(** * Subagent and CLAUDE.md generators: a shallow embedding

    The two command-line scripts of the repository,

      - plugins/context-master/skills/context-master/scripts/create_subagent.py
      - plugins/context-solver/skills/context-solver/scripts/generate_claude_md.py

    are embedded as monadic programs over an explicit Python world (object
    heap, file system, working directory, standard output).  Module [Py]
    models the part of the Python runtime and standard library the scripts
    call; [CreateSubagent] and [GenerateClaudeMd] follow the scripts line
    by line. *)

From Stdlib Require Import NArith List String Ascii Bool Lia.
From stdpp Require Import base option list gmap.

Set Warnings "-register-all".

Set Default Proof Using "Type".

(** ** The Python runtime the scripts rely on *)

Module Py.

(** A Python [str] is a sequence of Unicode code points (surrogates
    included, as command-line arguments can carry them). *)
Abbreviation char := N (only parsing).
Abbreviation str := (list N) (only parsing).

(** An ASCII literal of the source. *)
Definition lit (s : string) : str :=
  map N_of_ascii (list_ascii_of_string s).

Definition dq : str := [34%N].
Definition nl : str := [10%N].

(** [sep.join(xs)] *)
Fixpoint join (sep : str) (xs : list str) : str :=
  match xs with
  | [] => []
  | [x] => x
  | x :: rest => x ++ sep ++ join sep rest
  end.

(** A triple-quoted literal, given line by line. *)
Definition text (lines : list str) : str := join nl lines.

(** *** Objects *)

Abbreviation loc := nat (only parsing).

(** Strings are immutable and held by value; dicts and lists are mutable
    objects reached through a reference. *)
Inductive value :=
| VStr (s : str)
| VRef (l : loc).

(** A dict keeps its items in insertion order; every dict of the two
    scripts has string keys. *)
Inductive object :=
| ODict (items : list (str * value))
| OList (elems : list value).

Inductive node :=
| Dir
| File (content : str).

Record world := World {
  heap : gmap loc object;
  fs : gmap (list str) node;
  cwd : list str;
  stdout : list str
}.

Definition set_heap (h : gmap loc object) (w : world) : world :=
  World h (fs w) (cwd w) (stdout w).
Definition set_fs (f : gmap (list str) node) (w : world) : world :=
  World (heap w) f (cwd w) (stdout w).
Definition set_stdout (o : list str) (w : world) : world :=
  World (heap w) (fs w) (cwd w) o.

(** *** Exceptions and the state-and-exception monad *)

Inductive exn :=
| ValueError (msg : str)
| KeyError (key : str)
| TypeError
| IndexError
| RecursionError
| JSONDecodeError
| UnicodeEncodeError
| FileNotFoundError
| FileExistsError
| NotADirectoryError
| IsADirectoryError
| OSError (errno : N)
| ArgumentError (flag : str) (given : str) (choices : list str)
| SystemExit (code : N) (cause : exn).

(** [isinstance(e, OSError)]: the four subclasses the file-system calls
    raise, and [OSError] itself with the [errno] of any other failure. *)
Definition is_OSError (e : exn) : bool :=
  match e with
  | FileNotFoundError | FileExistsError
  | NotADirectoryError | IsADirectoryError | OSError _ => true
  | _ => false
  end.

(** [Stuck] marks behaviour this model does not cover: values of a shape
    the scripts never build (a list where a string is formatted, a
    dangling reference) and library features they never use. *)
Inductive outcome (A : Type) :=
| Return (a : A)
| Raise (e : exn)
| Stuck.
Arguments Return {A} a.
Arguments Raise {A} e.
Arguments Stuck {A}.

Definition obind {A B} (o : outcome A) (f : A -> outcome B) : outcome B :=
  match o with
  | Return a => f a
  | Raise e => Raise e
  | Stuck => Stuck
  end.

Fixpoint osequence {A} (os : list (outcome A)) : outcome (list A) :=
  match os with
  | [] => Return []
  | o :: rest =>
      obind o (fun a => obind (osequence rest) (fun r => Return (a :: r)))
  end.

Definition M (A : Type) : Type := world -> outcome A * world.

Definition ret {A} (a : A) : M A := fun w => (Return a, w).
Definition raise {A} (e : exn) : M A := fun w => (Raise e, w).
Definition stuck {A} : M A := fun w => (Stuck, w).

Definition bind {A B} (m : M A) (f : A -> M B) : M B := fun w =>
  match m w with
  | (Return a, w') => f a w'
  | (Raise e, w') => (Raise e, w')
  | (Stuck, w') => (Stuck, w')
  end.

(** [try: m except <handles>: handler] *)
Definition try_except {A} (m : M A) (handles : exn -> bool)
    (handler : exn -> M A) : M A := fun w =>
  match m w with
  | (Raise e, w') => if handles e then handler e w' else (Raise e, w')
  | r => r
  end.

(** A computation that only reads the heap. *)
Definition read_heap {A} (f : gmap loc object -> outcome A) : M A :=
  fun w => (f (heap w), w).

Definition lift {A} (o : outcome A) : M A := fun w => (o, w).


Declare Scope py_scope.
Delimit Scope py_scope with py.
Notation "x <- m ;; k" := (bind m (fun x => k))
  (at level 100, m at next level, right associativity) : py_scope.
Notation "m ;; k" := (bind m (fun _ => k))
  (at level 100, right associativity) : py_scope.
Open Scope py_scope.

(** *** Dict and list objects *)

Definition str_eqb (a b : str) : bool := bool_decide (a = b).

(** Insertion-ordered items: lookup, and assignment that keeps the
    position of a key already present and appends a new one. *)
Fixpoint items_get {V} (k : str) (items : list (str * V)) : option V :=
  match items with
  | [] => None
  | (k', v) :: rest => if str_eqb k k' then Some v else items_get k rest
  end.

Fixpoint items_set {V} (k : str) (v : V) (items : list (str * V))
    : list (str * V) :=
  match items with
  | [] => [(k, v)]
  | (k', v') :: rest =>
      if str_eqb k k' then (k', v) :: rest
      else (k', v') :: items_set k v rest
  end.

Definition get_dict (d : value) : M (list (str * value)) := fun w =>
  match d with
  | VRef l =>
      match heap w !! l with
      | Some (ODict items) => (Return items, w)
      | _ => (Stuck, w)
      end
  | VStr _ => (Stuck, w)
  end.

(** [k in d] *)
Definition contains (d : value) (k : str) : M bool :=
  items <- get_dict d ;;
  ret (bool_decide (is_Some (items_get k items))).

(** [d.keys()] *)
Definition keys (d : value) : M (list str) :=
  items <- get_dict d ;;
  ret (map fst items).

(** [d[k]] *)
Definition getitem (d : value) (k : str) : M value :=
  items <- get_dict d ;;
  match items_get k items with
  | Some v => ret v
  | None => raise (KeyError k)
  end.

(** [d[k]] for a key that is itself a value read from an object: lists
    and dicts are not hashable. *)
Definition getitem_value (d : value) (k : value) : M value :=
  match k with
  | VStr s => getitem d s
  | VRef _ => raise TypeError
  end.

(** [d[k] = v] *)
Definition setitem (d : value) (k : str) (v : value) : M unit := fun w =>
  match d with
  | VRef l =>
      match heap w !! l with
      | Some (ODict items) =>
          (Return tt, set_heap (<[l := ODict (items_set k v items)]> (heap w)) w)
      | _ => (Stuck, w)
      end
  | VStr _ => (Stuck, w)
  end.

Definition alloc (o : object) : M value := fun w =>
  let l := fresh (dom (heap w)) in
  (Return (VRef l), set_heap (<[l := o]> (heap w)) w).

(** [d.copy()]: a new dict object holding the same values (shallow). *)
Definition dict_copy (d : value) : M value :=
  items <- get_dict d ;;
  alloc (ODict items).

(** The elements a [for] loop over a list visits. *)
Definition iter_list (v : value) : M (list value) := fun w =>
  match v with
  | VRef l =>
      match heap w !! l with
      | Some (OList elems) => (Return elems, w)
      | _ => (Stuck, w)
      end
  | VStr _ => (Stuck, w)
  end.

(** [str(v)] / [format(v, '')], covered for strings. *)
Definition str_of (v : value) : outcome str :=
  match v with
  | VStr s => Return s
  | VRef _ => Stuck
  end.

(** *** Text encodings *)

Definition is_surrogate (c : char) : bool :=
  ((0xD800 <=? c) && (c <=? 0xDFFF))%N.

(** Code points the strict UTF-8 codec encodes: the Unicode scalar values. *)
Definition utf8_char (c : char) : bool :=
  (negb (is_surrogate c) && (c <? 0x110000))%N.

Definition utf8_encodable (s : str) : bool := forallb utf8_char s.

(** Code points [os.fsencode] encodes (UTF-8 with surrogateescape). *)
Definition fs_char (c : char) : bool :=
  (utf8_char c || ((0xDC80 <=? c) && (c <=? 0xDCFF)))%N.

(** *** pathlib (POSIX flavour) *)

(** The root of a path: none, [/], or the [//] that pathlib keeps when a
    path starts with exactly two slashes. *)
Inductive anchor := Relative | Root | DoubleRoot.

Definition rooted (a : anchor) : bool :=
  match a with Relative => false | _ => true end.

Record path := MkPath { anchored : anchor; parts : list str }.

Definition slash : char := 47%N.

(** [s.split(sep)] for a one-character separator. *)
Fixpoint split_on (sep : char) (s : str) : list str :=
  match s with
  | [] => [[]]
  | c :: rest =>
      if (c =? sep)%N then [] :: split_on sep rest
      else match split_on sep rest with
           | [] => [[c]]
           | x :: xs => (c :: x) :: xs
           end
  end.

Definition dot : str := lit ".".
Definition dotdot : str := lit "..".

(** The components pathlib keeps: empty ones and [.] are dropped. *)
Definition parse_parts (s : str) : list str :=
  filter (fun c => c <> [] /\ c <> dot) (split_on slash s).

Definition is_absolute (s : str) : bool :=
  match s with
  | c :: _ => (c =? slash)%N
  | [] => false
  end.

(** [splitroot]: two leading slashes are a root of their own, one slash
    or more than two are [/]. *)
Definition anchor_of (s : str) : anchor :=
  match s with
  | c1 :: rest =>
      if (c1 =? slash)%N then
        match rest with
        | c2 :: rest' =>
            if (c2 =? slash)%N then
              match rest' with
              | c3 :: _ => if (c3 =? slash)%N then Root else DoubleRoot
              | [] => DoubleRoot
              end
            else Root
        | [] => Root
        end
      else Relative
  | [] => Relative
  end.

(** [Path(s)] *)
Definition Path (s : str) : path := MkPath (anchor_of s) (parse_parts s).

(** [p / s]: an absolute right operand replaces the left one. *)
Definition joinpath (p : path) (s : str) : path :=
  if is_absolute s then Path s
  else MkPath (anchored p) (parts p ++ parse_parts s).

(** [p.parent] *)
Definition parent (p : path) : path :=
  MkPath (anchored p) (removelast (parts p)).

(** [str(p)] *)
Definition path_str (p : path) : str :=
  match anchored p with
  | Root => slash :: join [slash] (parts p)
  | DoubleRoot => slash :: slash :: join [slash] (parts p)
  | Relative =>
      match parts p with
      | [] => dot
      | _ => join [slash] (parts p)
      end
  end.

(** *** The file system

    [fs] maps the resolved location of every entry (its component list
    from the root) to a directory or to a file with its text.  The root is
    always a directory.  The platform is Linux: a name of more than
    [NAME_MAX] bytes or a path of [PATH_MAX] bytes or more is refused with
    [ENAMETOOLONG].  Permissions, symbolic links and a full disk are
    outside the model. *)

Definition node_at (f : gmap (list str) node) (p : list str) : option node :=
  match p with
  | [] => Some Dir
  | _ => f !! p
  end.

(** The bytes of [os.fsencode(s)]: UTF-8, where a surrogate stands for
    the one byte it escapes. *)
Definition char_bytes (c : char) : nat :=
  if (c <? 0x80)%N then 1
  else if (c <? 0x800)%N then 2
  else if is_surrogate c then 1
  else if (c <? 0x10000)%N then 3
  else 4.

Definition fs_bytes (s : str) : nat :=
  fold_right (fun c n => char_bytes c + n) 0 s.

Definition NAME_MAX : nat := 255.
Definition PATH_MAX : nat := 4096.
Definition ENAMETOOLONG : N := 36.

Definition step (cur : list str) (c : str) : list str :=
  if str_eqb c dot then cur
  else if str_eqb c dotdot then removelast cur
  else cur ++ [c].

(** Name resolution: every component is looked up in an existing
    directory, which refuses a name of more than [NAME_MAX] bytes. *)
Fixpoint walk (f : gmap (list str) node) (cur : list str) (comps : list str)
    : exn + list str :=
  match comps with
  | [] => inr cur
  | c :: rest =>
      match node_at f cur with
      | None => inl FileNotFoundError
      | Some (File _) => inl NotADirectoryError
      | Some Dir =>
          if NAME_MAX <? fs_bytes c then inl (OSError ENAMETOOLONG)
          else walk f (step cur c) rest
      end
  end.

(** The components handed to the system call for [p]. *)
Definition os_comps (p : path) : list str :=
  if rooted (anchored p) then parts p
  else match parts p with
       | [] => [dot]
       | _ => parts p
       end.

(** What a system call does with the path name [str(p)]: a name of
    [PATH_MAX] bytes or more is refused before anything is looked up. *)
Definition resolve (w : world) (p : path) : exn + list str :=
  if PATH_MAX <=? fs_bytes (path_str p) then inl (OSError ENAMETOOLONG)
  else walk (fs w) (if rooted (anchored p) then [] else cwd w) (os_comps p).

(** The path name is encoded before the system call is made. *)
Definition fsencode (p : path) : M unit :=
  if negb (forallb (forallb fs_char) (parts p)) then raise UnicodeEncodeError
  else if existsb (existsb (N.eqb 0)) (parts p)
  then raise (ValueError (lit "embedded null byte"))
  else ret tt.

(** [os.mkdir(p)] *)
Definition os_mkdir (p : path) : M unit :=
  fsencode p ;;
  fun w =>
    match resolve w p with
    | inl e => (Raise e, w)
    | inr target =>
        match node_at (fs w) target with
        | Some _ => (Raise FileExistsError, w)
        | None => (Return tt, set_fs (<[target := Dir]> (fs w)) w)
        end
    end.

(** The errors of [stat] that [_ignore_error] has [is_dir] answer
    [False] to: [ENOENT] and [ENOTDIR]. *)
Definition ignore_error (e : exn) : bool :=
  match e with
  | FileNotFoundError | NotADirectoryError => true
  | _ => false
  end.

(** [p.is_dir()]: [False] also when nothing is there or the path name
    cannot be encoded (a [ValueError]); another error of [stat] is
    raised. *)
Definition is_dir (p : path) : M bool := fun w =>
  match fsencode p w with
  | (Return _, _) =>
      match resolve w p with
      | inr target =>
          match node_at (fs w) target with
          | Some Dir => (Return true, w)
          | _ => (Return false, w)
          end
      | inl e => if ignore_error e then (Return false, w) else (Raise e, w)
      end
  | _ => (Return false, w)
  end.

Definition is_FileNotFoundError (e : exn) : bool :=
  match e with FileNotFoundError => true | _ => false end.

(** The [except OSError] clause of [Path.mkdir]. *)
Definition mkdir_oserror (p : path) (exist_ok : bool) (e : exn) : M unit :=
  d <- is_dir p ;;
  if negb exist_ok || negb d then raise e else ret tt.

(** [p.mkdir(parents=False, exist_ok=exist_ok)] *)
Definition mkdir_flat (p : path) (exist_ok : bool) : M unit :=
  try_except (os_mkdir p)
    (fun e => is_OSError e && negb (is_FileNotFoundError e))
    (mkdir_oserror p exist_ok).

(** [p.mkdir(parents=True, exist_ok=exist_ok)] for the path with the
    reversed components [rparts]: on [FileNotFoundError] the parent is made
    first, by a call of the method itself, and the directory is retried
    without [parents].  [room] is the number of nested calls the
    interpreter still allows; the call after the last raises
    [RecursionError]. *)
Fixpoint mkdir_parents (room : nat) (anch : anchor) (rparts : list str)
    (exist_ok : bool) : M unit :=
  match room with
  | 0 => raise RecursionError
  | S room' =>
      let p := MkPath anch (rev rparts) in
      try_except (os_mkdir p) is_OSError
        (fun e =>
           if is_FileNotFoundError e then
             match rparts with
             | [] => raise e
             | _ :: rparent =>
                 mkdir_parents room' anch rparent true ;;
                 mkdir_flat p exist_ok
             end
           else mkdir_oserror p exist_ok e)
  end.

(** The nested calls of [Path.mkdir] that fit under the recursion limit
    where the scripts call it (CPython 3.11): the limit less the frames of
    the module, of [main] and of the function, and those the innermost
    call needs for itself. *)
Definition mkdir_room : nat := 992.

(** [p.mkdir(parents=parents, exist_ok=exist_ok)] *)
Definition mkdir (p : path) (parents exist_ok : bool) : M unit :=
  if parents then mkdir_parents mkdir_room (anchored p) (rev (parts p)) exist_ok
  else mkdir_flat p exist_ok.

(** [p.write_text(data)]: the file is opened for writing (created or
    truncated) and the text is then encoded with the locale's encoding,
    taken to be UTF-8. *)
Definition write_text (p : path) (data : str) : M unit :=
  fsencode p ;;
  fun w =>
    match resolve w p with
    | inl e => (Raise e, w)
    | inr target =>
        match node_at (fs w) target with
        | Some Dir => (Raise IsADirectoryError, w)
        | _ =>
            if utf8_encodable data
            then (Return tt, set_fs (<[target := File data]> (fs w)) w)
            else (Raise UnicodeEncodeError,
                  set_fs (<[target := File []]> (fs w)) w)
        end
    end.

(** What a later reader finds at [p]. *)
Definition read_file (w : world) (p : path) : option str :=
  match resolve w p with
  | inr target =>
      match node_at (fs w) target with
      | Some (File data) => Some data
      | _ => None
      end
  | inl _ => None
  end.

(** [print(s)] on a UTF-8 standard output. *)
Definition print (s : str) : M unit := fun w =>
  if utf8_encodable s
  then (Return tt, set_stdout (stdout w ++ [s]) w)
  else (Raise UnicodeEncodeError, w).

(** *** str.format

    [fmt.format] with keyword arguments, for replacement fields that are plain keyword
    names, which is all the scripts use.  [{{] and [}}] stand for a brace;
    a field with a conversion, a format specification, attribute or index
    access is outside the model. *)

Definition lbrace : char := 123%N.
Definition rbrace : char := 125%N.

Definition is_digit (c : char) : bool := ((48 <=? c) && (c <=? 57))%N.

(** A character that starts a feature of the field grammar left out. *)
Definition field_special (c : char) : bool :=
  existsb (N.eqb c) (lbrace :: lit "!:.[").

(** The value a field named [name] stands for. *)
Definition get_field (kwargs : list (str * value)) (name : str)
    : outcome str :=
  if forallb is_digit name then Raise IndexError
  else match items_get name kwargs with
       | Some v => str_of v
       | None => Raise (KeyError name)
       end.

(** [field] is [None] in literal text and [Some acc] inside a replacement
    field whose name read so far is [rev acc]. *)
Fixpoint format_from (kwargs : list (str * value)) (fmt : str)
    (field : option str) : outcome str :=
  match fmt, field with
  | [], None => Return []
  | [], Some _ =>
      Raise (ValueError (lit "expected '}' before end of string"))
  | c :: rest, Some acc =>
      if (c =? rbrace)%N then
        obind (get_field kwargs (rev acc)) (fun s =>
        obind (format_from kwargs rest None) (fun out =>
        Return (s ++ out)))
      else if field_special c then Stuck
      else format_from kwargs rest (Some (c :: acc))
  | c :: rest, None =>
      if (c =? lbrace)%N then
        match rest with
        | [] => Raise (ValueError (lit "Single '{' encountered in format string"))
        | c' :: rest' =>
            if (c' =? lbrace)%N then
              obind (format_from kwargs rest' None) (fun out =>
              Return (lbrace :: out))
            else format_from kwargs rest (Some [])
        end
      else if (c =? rbrace)%N then
        match rest with
        | c' :: rest' =>
            if (c' =? rbrace)%N then
              obind (format_from kwargs rest' None) (fun out =>
              Return (rbrace :: out))
            else Raise (ValueError (lit "Single '}' encountered in format string"))
        | [] => Raise (ValueError (lit "Single '}' encountered in format string"))
        end
      else
        obind (format_from kwargs rest None) (fun out => Return (c :: out))
  end.

Definition format (fmt : str) (kwargs : list (str * value)) : outcome str :=
  format_from kwargs fmt None.

(** *** json.dumps *)

Definition hex_digit (d : N) : char :=
  (if d <? 10 then 48 + d else 87 + d)%N.

(** ['{0:04x}'.format(n)] for [n < 0x10000]. *)
Definition hex4 (n : N) : str :=
  [hex_digit (n / 4096 mod 16); hex_digit (n / 256 mod 16);
   hex_digit (n / 16 mod 16); hex_digit (n mod 16)]%N.

Definition backslash : char := 92%N.

(** One character under [ESCAPE_ASCII]: a backslash, a double quote and
    everything outside [' '..'~'] is replaced. *)
Definition escape_char (c : char) : str :=
  if (c =? backslash)%N then lit "\\"
  else if (c =? 34)%N then backslash :: dq
  else if (c =? 8)%N then lit "\b"
  else if (c =? 12)%N then lit "\f"
  else if (c =? 10)%N then lit "\n"
  else if (c =? 13)%N then lit "\r"
  else if (c =? 9)%N then lit "\t"
  else if ((32 <=? c) && (c <=? 126))%N then [c]
  else if (c <? 0x10000)%N then lit "\u" ++ hex4 c
  else
    let n := (c - 0x10000)%N in
    let s1 := N.lor 0xd800 (N.land (N.shiftr n 10) 0x3ff) in
    let s2 := N.lor 0xdc00 (N.land n 0x3ff) in
    lit "\u" ++ hex4 s1 ++ lit "\u" ++ hex4 s2.

(** [py_encode_basestring_ascii] *)
Definition encode_str (s : str) : str :=
  dq ++ flat_map escape_char s ++ dq.

(** ['\n' + ' ' * (indent * level)] *)
Definition newline_indent (indent level : nat) : str :=
  nl ++ repeat 32%N (indent * level).

(** The interpreter's recursion limit. *)
Definition recursion_limit : nat := 1000.

(** [_iterencode] with [indent] given, so that the item separator is [,]
    followed by a new line and the key separator is [: ].  [markers] holds
    the containers being encoded, for the circular-reference check. *)
Fixpoint iterencode (depth : nat) (h : gmap loc object) (indent : nat)
    (markers : list loc) (level : nat) (v : value) : outcome str :=
  match depth with
  | 0 => Raise RecursionError
  | S depth' =>
      match v with
      | VStr s => Return (encode_str s)
      | VRef l =>
          if bool_decide (l ∈ markers)
          then Raise (ValueError (lit "Circular reference detected"))
          else
            let sub := iterencode depth' h indent (l :: markers) (S level) in
            let sep := lit "," ++ newline_indent indent (S level) in
            match h !! l with
            | None => Stuck
            | Some (OList []) => Return (lit "[]")
            | Some (OList elems) =>
                obind (osequence (map sub elems)) (fun chunks =>
                Return (lit "[" ++ newline_indent indent (S level)
                        ++ join sep chunks
                        ++ newline_indent indent level ++ lit "]"))
            | Some (ODict []) => Return (lit "{}")
            | Some (ODict items) =>
                obind (osequence
                         (map (fun kv =>
                                 obind (sub (snd kv)) (fun chunk =>
                                 Return (encode_str (fst kv) ++ lit ": " ++ chunk)))
                              items)) (fun chunks =>
                Return (lit "{" ++ newline_indent indent (S level)
                        ++ join sep chunks
                        ++ newline_indent indent level ++ lit "}"))
            end
      end
  end.

(** [json.dumps(v, indent=indent)] *)
Definition json_dumps (v : value) (indent : nat) : M str :=
  read_heap (fun h => iterencode recursion_limit h indent [] 0 v).

(** *** json.loads

    The decoder for strings, arrays, objects and the three literal names;
    numbers are outside the model. *)

Inductive json :=
| JNull
| JBool (b : bool)
| JStr (s : str)
| JArr (elems : list json)
| JObj (items : list (str * json)).

Definition hex_value (c : char) : option N :=
  (if (48 <=? c) && (c <=? 57) then Some (c - 48)
   else if (97 <=? c) && (c <=? 102) then Some (c - 87)
   else if (65 <=? c) && (c <=? 70) then Some (c - 55)
   else None)%N.

(** [_decode_uXXXX]: four hexadecimal digits. *)
Definition decode_uXXXX (s : str) : option (N * str) :=
  match s with
  | a :: b :: c :: d :: rest =>
      match hex_value a, hex_value b, hex_value c, hex_value d with
      | Some x, Some y, Some z, Some t =>
          Some (((x * 16 + y) * 16 + z) * 16 + t, rest)%N
      | _, _, _, _ => None
      end
  | _ => None
  end.

(** The character a one-letter escape stands for. *)
Definition unescape (c : char) : option char :=
  (if c =? 34 then Some 34
   else if c =? 92 then Some 92
   else if c =? 47 then Some 47
   else if c =? 98 then Some 8
   else if c =? 102 then Some 12
   else if c =? 110 then Some 10
   else if c =? 114 then Some 13
   else if c =? 116 then Some 9
   else None)%N.

(** [scanstring], from just after the opening quote: the string and the
    input left after the closing quote.  A high surrogate escape followed
    by a low surrogate escape is one character. *)
Fixpoint scanstring (fuel : nat) (s : str) : outcome (str * str) :=
  match fuel with
  | 0 => Stuck
  | S fuel' =>
      match s with
      | [] => Raise JSONDecodeError
      | c :: rest =>
          if (c =? 34)%N then Return ([], rest)
          else if (c <? 32)%N then Raise JSONDecodeError
          else if (c =? backslash)%N then
            match rest with
            | [] => Raise JSONDecodeError
            | e :: rest' =>
                if (e =? 117)%N then
                  match decode_uXXXX rest' with
                  | None => Raise JSONDecodeError
                  | Some (uni, rest'') =>
                      let lone :=
                        obind (scanstring fuel' rest'') (fun r =>
                        Return (uni :: fst r, snd r)) in
                      if ((0xd800 <=? uni) && (uni <=? 0xdbff))%N then
                        match rest'' with
                        | 92%N :: 117%N :: rest3 =>
                            match decode_uXXXX rest3 with
                            | None => Raise JSONDecodeError
                            | Some (uni2, rest4) =>
                                if ((0xdc00 <=? uni2) && (uni2 <=? 0xdfff))%N
                                then
                                  obind (scanstring fuel' rest4) (fun r =>
                                  Return
                                    ((0x10000 + N.lor (N.shiftl (uni - 0xd800) 10)
                                                      (uni2 - 0xdc00))%N :: fst r,
                                     snd r))
                                else lone
                            end
                        | _ => lone
                        end
                      else lone
                  end
                else
                  match unescape e with
                  | None => Raise JSONDecodeError
                  | Some ch =>
                      obind (scanstring fuel' rest') (fun r =>
                      Return (ch :: fst r, snd r))
                  end
            end
          else
            obind (scanstring fuel' rest) (fun r => Return (c :: fst r, snd r))
      end
  end.

Definition is_space (c : char) : bool :=
  existsb (N.eqb c) [32; 9; 10; 13]%N.

Fixpoint skip_ws (s : str) : str :=
  match s with
  | c :: rest => if is_space c then skip_ws rest else s
  | [] => []
  end.

(** [s.startswith(prefix)], with the rest of [s]. *)
Fixpoint strip_prefix (prefix s : str) : option str :=
  match prefix, s with
  | [], _ => Some s
  | p :: prefix', c :: s' =>
      if (p =? c)%N then strip_prefix prefix' s' else None
  | _ :: _, [] => None
  end.

(** [scan_once] with [JSONArray] and [JSONObject].  The fuel bounds the
    number of values and members read; a scan that runs out of it is
    [Stuck]. *)
Fixpoint scan_once (fuel : nat) (s : str) : outcome (json * str) :=
  match fuel with
  | 0 => Stuck
  | S fuel' =>
      match s with
      | [] => Raise JSONDecodeError
      | c :: rest =>
          if (c =? 34)%N then
            obind (scanstring fuel' rest) (fun r => Return (JStr (fst r), snd r))
          else if (c =? 91)%N then
            match skip_ws rest with
            | 93%N :: rest' => Return (JArr [], rest')
            | body => scan_elems fuel' body []
            end
          else if (c =? 123)%N then
            match skip_ws rest with
            | 125%N :: rest' => Return (JObj [], rest')
            | body => scan_pairs fuel' body []
            end
          else
            match strip_prefix (lit "null") s,
                  strip_prefix (lit "true") s,
                  strip_prefix (lit "false") s with
            | Some r, _, _ => Return (JNull, r)
            | _, Some r, _ => Return (JBool true, r)
            | _, _, Some r => Return (JBool false, r)
            | _, _, _ =>
                if is_digit c || (c =? 45)%N
                   || (c =? 78)%N || (c =? 73)%N then Stuck
                else Raise JSONDecodeError
            end
      end
  end

with scan_elems (fuel : nat) (s : str) (acc : list json)
    : outcome (json * str) :=
  match fuel with
  | 0 => Stuck
  | S fuel' =>
      obind (scan_once fuel' s) (fun r =>
      match skip_ws (snd r) with
      | 93%N :: rest => Return (JArr (rev (fst r :: acc)), rest)
      | 44%N :: rest => scan_elems fuel' (skip_ws rest) (fst r :: acc)
      | _ => Raise JSONDecodeError
      end)
  end

with scan_pairs (fuel : nat) (s : str) (acc : list (str * json))
    : outcome (json * str) :=
  match fuel with
  | 0 => Stuck
  | S fuel' =>
      match s with
      | 34%N :: rest =>
          obind (scanstring fuel' rest) (fun k =>
          match skip_ws (snd k) with
          | 58%N :: rest' =>
              obind (scan_once fuel' (skip_ws rest')) (fun r =>
              let acc' := items_set (fst k) (fst r) acc in
              match skip_ws (snd r) with
              | 125%N :: rest'' => Return (JObj acc', rest'')
              | 44%N :: rest'' => scan_pairs fuel' (skip_ws rest'') acc'
              | _ => Raise JSONDecodeError
              end)
          | _ => Raise JSONDecodeError
          end)
      | _ => Raise JSONDecodeError
      end
  end.

(** [json.loads(s)] *)
Definition json_loads (s : str) : outcome json :=
  obind (scan_once (S (length s)) (skip_ws s)) (fun r =>
  match skip_ws (snd r) with
  | [] => Return (fst r)
  | _ => Raise JSONDecodeError
  end).

End Py.

(** ** create_subagent.py *)

Module CreateSubagent.
Import Py.

(** The instruction texts of the five templates. *)

Definition researcher_instructions : str := text [
  lit "You are a research specialist. Your job is to:";
  lit "- Search through documentation efficiently";
  lit "- THINK DEEPLY about findings using extended thinking";
  lit "- Analyze patterns and implications";
  lit "- Synthesize insights with reasoning";
  lit "- Return concise, well-reasoned summaries";
  [];
  lit "IMPORTANT: For complex research, use extended thinking before responding:";
  lit "- Use " ++ dq ++ lit "think hard" ++ dq ++ lit " for multi-source analysis";
  lit "- Use " ++ dq ++ lit "ultrathink" ++ dq ++ lit " for architecture pattern evaluation";
  lit "- Your thinking happens in YOUR isolated context";
  lit "- Return only the analysis summary to the main agent";
  [];
  lit "The main agent needs your INSIGHTS, not raw data."
].

Definition tester_instructions : str := text [
  lit "You are a testing specialist. Your job is to:";
  lit "- Execute test suites";
  lit "- Validate code changes";
  lit "- ANALYZE test failures deeply";
  lit "- Identify root causes and patterns";
  lit "- Report clear, actionable results";
  [];
  lit "IMPORTANT: When test failures occur, use extended thinking:";
  lit "- Use " ++ dq ++ lit "think hard" ++ dq ++ lit " to analyze failure patterns";
  lit "- Consider root causes and related issues";
  lit "- Your analysis happens in YOUR isolated context";
  lit "- Return actionable findings to the main agent";
  [];
  lit "Focus on test execution and insightful result reporting."
].

Definition analyzer_instructions : str := text [
  lit "You are a code analysis specialist. Your job is to:";
  lit "- Analyze code structure and patterns";
  lit "- THINK DEEPLY about implications and tradeoffs";
  lit "- Identify potential issues and opportunities";
  lit "- Compute complexity metrics";
  lit "- Find dependencies and relationships";
  [];
  lit "IMPORTANT: Always use extended thinking for analysis:";
  lit "- Use " ++ dq ++ lit "think harder" ++ dq ++ lit " for architecture analysis";
  lit "- Use " ++ dq ++ lit "ultrathink" ++ dq ++ lit " for complex system evaluation";
  lit "- Consider multiple perspectives and edge cases";
  lit "- Your deep reasoning happens in YOUR isolated context";
  lit "- Return concise analysis with key insights to the main agent";
  [];
  lit "Provide actionable insights backed by reasoning."
].

Definition builder_instructions : str := text [
  lit "You are a build specialist. Your job is to:";
  lit "- Execute build processes";
  lit "- Run deployment scripts";
  lit "- Verify build outputs";
  lit "- Report build status and errors";
  [];
  lit "Focus on build execution and clear status reporting. Return success/failure and any errors."
].

Definition deep_analyzer_instructions : str := text [
  lit "You are a deep analysis specialist. Your PRIMARY function is to think deeply before responding.";
  [];
  lit "MANDATORY WORKFLOW:";
  lit "1. Always start with " ++ dq ++ lit "ultrathink" ++ dq ++ lit " for complex analysis";
  lit "2. Consider multiple approaches and perspectives";
  lit "3. Evaluate tradeoffs, implications, and edge cases";
  lit "4. Reason through consequences and alternatives";
  lit "5. Synthesize findings into clear recommendations";
  [];
  lit "Your extended thinking happens in YOUR isolated context - this is your superpower.";
  lit "The main agent only sees your conclusions, not your reasoning process.";
  [];
  lit "RETURN FORMAT:";
  lit "- Brief conclusion (2-3 sentences)";
  lit "- Key reasoning points (3-5 bullets)";
  lit "- Recommendation with rationale";
  lit "- Any important caveats";
  [];
  lit "The main agent trusts your deep analysis. Give them confidence through thorough thinking."
].

Definition CLAUDE_CODE_FORMAT : str := text [
  lit "# {agent_name}";
  [];
  lit "{description}";
  [];
  lit "## Instructions";
  [];
  lit "{instructions}";
  [];
  lit "## Allowed Tools";
  [];
  lit "{tools}";
  [];
  lit "## Autonomy Level";
  [];
  lit "{autonomy_description}";
  []
].

(** The objects the module's top level builds: for each template its tools
    list and its record, then [SUBAGENT_TEMPLATES] and
    [AUTONOMY_DESCRIPTIONS] themselves. *)
Definition module_heap : gmap loc object := list_to_map [
  (1, OList [VStr (lit "read"); VStr (lit "search"); VStr (lit "web_search")]);
  (2, ODict [
     (lit "name", VStr (lit "{agent_name}"));
     (lit "description", VStr (lit "Research and documentation lookup agent with deep analysis"));
     (lit "instructions", VStr researcher_instructions);
     (lit "tools", VRef 1);
     (lit "autonomy", VStr (lit "medium"))]);
  (3, OList [VStr (lit "bash"); VStr (lit "read"); VStr (lit "write")]);
  (4, ODict [
     (lit "name", VStr (lit "{agent_name}"));
     (lit "description", VStr (lit "Testing and validation agent with analysis"));
     (lit "instructions", VStr tester_instructions);
     (lit "tools", VRef 3);
     (lit "autonomy", VStr (lit "high"))]);
  (5, OList [VStr (lit "read"); VStr (lit "search"); VStr (lit "bash")]);
  (6, ODict [
     (lit "name", VStr (lit "{agent_name}"));
     (lit "description", VStr (lit "Code analysis and deep architectural insight agent"));
     (lit "instructions", VStr analyzer_instructions);
     (lit "tools", VRef 5);
     (lit "autonomy", VStr (lit "medium"))]);
  (7, OList [VStr (lit "bash"); VStr (lit "read")]);
  (8, ODict [
     (lit "name", VStr (lit "{agent_name}"));
     (lit "description", VStr (lit "Build and deployment agent"));
     (lit "instructions", VStr builder_instructions);
     (lit "tools", VRef 7);
     (lit "autonomy", VStr (lit "high"))]);
  (9, OList [VStr (lit "read"); VStr (lit "search"); VStr (lit "bash"); VStr (lit "web_search")]);
  (10, ODict [
     (lit "name", VStr (lit "{agent_name}"));
     (lit "description", VStr (lit "Deep analysis agent with mandatory extended thinking"));
     (lit "instructions", VStr deep_analyzer_instructions);
     (lit "tools", VRef 9);
     (lit "autonomy", VStr (lit "high"))]);
  (11, ODict [
     (lit "researcher", VRef 2);
     (lit "tester", VRef 4);
     (lit "analyzer", VRef 6);
     (lit "builder", VRef 8);
     (lit "deep_analyzer", VRef 10)]);
  (12, ODict [
     (lit "low", VStr (lit "Ask for confirmation before taking actions. Provide recommendations."));
     (lit "medium", VStr (lit "Take standard actions autonomously. Ask for confirmation on significant changes."));
     (lit "high", VStr (lit "Execute tasks fully autonomously. Report results when complete."))])
].

Definition SUBAGENT_TEMPLATES : value := VRef 11.
Definition AUTONOMY_DESCRIPTIONS : value := VRef 12.

(** The world after the module has been imported, and any later one in
    which the module's objects are as they were built. *)
Definition loaded (w : world) : Prop := module_heap ⊆ heap w.

Definition create_subagent (agent_name agent_type output_dir : str)
    : M unit :=
  known <- contains SUBAGENT_TEMPLATES agent_type ;;
  if negb known then
    ks <- keys SUBAGENT_TEMPLATES ;;
    raise (ValueError (lit "Unknown agent type: " ++ agent_type ++ lit ". "
                       ++ lit "Choose from: " ++ join (lit ", ") ks))
  else
    record <- getitem SUBAGENT_TEMPLATES agent_type ;;
    template <- dict_copy record ;;
    setitem template (lit "name") (VStr agent_name) ;;
    (* Create output directory *)
    let output_path := Path output_dir in
    mkdir output_path true true ;;
    (* Create .claude/agents directory structure *)
    let agents_dir :=
      joinpath (joinpath output_path (lit ".claude")) (lit "agents") in
    mkdir agents_dir true true ;;
    (* Generate agent file in Claude Code format *)
    let agent_file := joinpath agents_dir (agent_name ++ lit ".md") in
    tools <- getitem template (lit "tools") ;;
    elems <- iter_list tools ;;
    bullets <- lift (osequence
                 (map (fun tool =>
                         obind (str_of tool) (fun s => Return (lit "- " ++ s)))
                      elems)) ;;
    let tools_list := join nl bullets in
    autonomy <- getitem template (lit "autonomy") ;;
    autonomy_desc <- getitem_value AUTONOMY_DESCRIPTIONS autonomy ;;
    description <- getitem template (lit "description") ;;
    instructions <- getitem template (lit "instructions") ;;
    content <- lift (format CLAUDE_CODE_FORMAT
                 [(lit "agent_name", VStr agent_name);
                  (lit "description", description);
                  (lit "instructions", instructions);
                  (lit "tools", VStr tools_list);
                  (lit "autonomy_description", autonomy_desc)]) ;;
    write_text agent_file content ;;
    (* Also create a JSON version for programmatic use *)
    let json_file := joinpath agents_dir (agent_name ++ lit ".json") in
    dumped <- json_dumps template 2 ;;
    write_text json_file dumped ;;
    print (9989%N :: lit " Created subagent: " ++ agent_name) ;;
    print (lit "   Type: " ++ agent_type) ;;
    print (lit "   Location: " ++ path_str agent_file) ;;
    print (nl ++ 128221%N :: lit " Next steps:") ;;
    print (lit "   1. Review and customize " ++ path_str agent_file) ;;
    print (lit "   2. Use in Claude Code with: /agent " ++ agent_name) ;;
    print (lit "   3. Commit to version control") ;;
    (* Print usage example *)
    print (nl ++ 128161%N :: lit " Usage example:") ;;
    print (lit "   /agent " ++ agent_name ++ lit " [your task description]").

(** [main], from the command line as argparse has split it: the
    positional [agent_name] and the values given to [--type] and
    [--output], if any.  A [--type] outside [choices] makes argparse
    report the argument error and exit with status 2.  How argparse
    splits a command line, its help option and the command lines it
    rejects for another reason are outside the model: [main] is what runs
    once the three arguments are known. *)
Definition main (agent_name : str) (type_arg output_arg : option str)
    : M unit :=
  choices <- keys SUBAGENT_TEMPLATES ;;
  type_ <- match type_arg with
           | None => ret (lit "researcher")
           | Some t =>
               if bool_decide (t ∈ choices) then ret t
               else raise (SystemExit 2
                             (ArgumentError (lit "--type") t choices))
           end ;;
  let output := default (lit ".") output_arg in
  create_subagent agent_name type_ output.

End CreateSubagent.

(** ** generate_claude_md.py *)

Module GenerateClaudeMd.
Import Py.

Definition general_template : str := text [
  lit "# Claude Code Configuration";
  [];
  lit "## Project Overview";
  lit "<!-- Describe your project's purpose, architecture, and key components -->";
  [];
  lit "## Context Management Strategy";
  [];
  lit "### When to Use Subagents";
  lit "- **Code searches**: Use subagents to search through large codebases";
  lit "- **File analysis**: Delegate multi-file analysis to subagents";
  lit "- **Research tasks**: Use subagents for documentation lookups";
  lit "- **Testing**: Isolate test runs in subagents";
  [];
  lit "### Context Commands";
  lit "- Use `/clear` between major tasks to reset context";
  lit "- Use `/compact` before complex multi-step work";
  lit "- Use `think` for planning complex changes";
  [];
  lit "## Development Workflow";
  [];
  lit "1. **Planning Phase**: Use " ++ dq ++ lit "think" ++ dq ++ lit " to analyze approach";
  lit "2. **Implementation**: Keep main context focused on current task";
  lit "3. **Verification**: Use subagents for testing and validation";
  lit "4. **Cleanup**: `/clear` before starting new features";
  [];
  lit "## Allowed Tools";
  lit "- File operations (read, write, edit)";
  lit "- Git operations (commit, branch, status)";
  lit "- Shell commands for building and testing";
  lit "- Subagent delegation";
  [];
  lit "## Code Style";
  lit "<!-- Add your project's code style guidelines -->";
  [];
  lit "## Escalation Rules";
  lit "- Ask before making breaking changes";
  lit "- Confirm before deleting files";
  lit "- Verify test results before committing";
  []
].

Definition backend_template : str := text [
  lit "# Claude Code Configuration - Backend Project";
  [];
  lit "## Project Overview";
  lit "<!-- Describe your API/service architecture -->";
  [];
  lit "## Context Management Strategy";
  [];
  lit "### When to Use Subagents";
  lit "- **Database queries**: Delegate schema exploration to subagents";
  lit "- **API documentation**: Use subagents to search through API docs";
  lit "- **Log analysis**: Isolate log file analysis in subagents";
  lit "- **Dependency analysis**: Check dependencies in isolated context";
  lit "- **Test runs**: Execute test suites in subagents";
  [];
  lit "### Context Commands";
  lit "- `/clear` between feature implementations";
  lit "- `/compact` before multi-endpoint refactoring";
  lit "- `think hard` for API design decisions";
  [];
  lit "## Development Workflow";
  [];
  lit "1. **Schema Review**: Subagent explores DB schema";
  lit "2. **Planning**: Main context designs endpoint logic";
  lit "3. **Implementation**: Focus on current endpoint";
  lit "4. **Testing**: Subagent runs integration tests";
  lit "5. **Commit**: After test verification";
  [];
  lit "## API Patterns";
  lit "<!-- Add your API conventions (REST, GraphQL, etc.) -->";
  [];
  lit "## Database";
  lit "<!-- Add your schema info or reference documentation -->";
  [];
  lit "## Testing Strategy";
  lit "- Unit tests required for business logic";
  lit "- Integration tests for API endpoints";
  lit "- Use subagents for test execution";
  [];
  lit "## Escalation Rules";
  lit "- Confirm before database migrations";
  lit "- Ask before changing API contracts";
  lit "- Verify backward compatibility";
  []
].

Definition frontend_template : str := text [
  lit "# Claude Code Configuration - Frontend Project";
  [];
  lit "## Project Overview";
  lit "<!-- Describe your frontend architecture (React, Vue, Angular, etc.) -->";
  [];
  lit "## Context Management Strategy";
  [];
  lit "### When to Use Subagents";
  lit "- **Component searches**: Find similar components across codebase";
  lit "- **Style analysis**: Isolate CSS/styling investigations";
  lit "- **Bundle analysis**: Check dependencies and imports";
  lit "- **Test runs**: Execute component tests in subagents";
  lit "- **Build verification**: Run builds in isolated context";
  [];
  lit "### Context Commands";
  lit "- `/clear` between component implementations";
  lit "- `/compact` before large refactoring";
  lit "- `think` for component architecture decisions";
  [];
  lit "## Development Workflow";
  [];
  lit "1. **Component Planning**: Design component structure";
  lit "2. **Implementation**: Focus on current component";
  lit "3. **Styling**: Apply consistent design system";
  lit "4. **Testing**: Subagent runs component tests";
  lit "5. **Build Check**: Subagent verifies build";
  [];
  lit "## Component Patterns";
  lit "<!-- Add your component conventions -->";
  [];
  lit "## Styling Approach";
  lit "<!-- CSS-in-JS, Tailwind, CSS Modules, etc. -->";
  [];
  lit "## State Management";
  lit "<!-- Redux, Context API, Zustand, etc. -->";
  [];
  lit "## Testing Strategy";
  lit "- Component tests required";
  lit "- Use Testing Library best practices";
  lit "- Subagents handle test execution";
  [];
  lit "## Escalation Rules";
  lit "- Confirm before major architectural changes";
  lit "- Ask before adding new dependencies";
  lit "- Verify accessibility requirements";
  []
].

Definition fullstack_template : str := text [
  lit "# Claude Code Configuration - Full-Stack Project";
  [];
  lit "## Project Overview";
  lit "<!-- Describe your full-stack architecture -->";
  [];
  lit "## Context Management Strategy";
  [];
  lit "### When to Use Subagents";
  lit "- **Frontend searches**: Delegate component searches";
  lit "- **Backend analysis**: Isolate API endpoint analysis";
  lit "- **Database operations**: Schema exploration in subagents";
  lit "- **Build processes**: Run builds in isolated contexts";
  lit "- **Test suites**: Execute frontend and backend tests separately";
  [];
  lit "### Context Commands";
  lit "- `/clear` between frontend/backend context switches";
  lit "- `/compact` before cross-stack refactoring";
  lit "- `think hard` for architectural decisions";
  [];
  lit "## Development Workflow";
  [];
  lit "1. **Planning**: Design full-stack feature flow";
  lit "2. **Backend First**: Implement API endpoints";
  lit "3. **Frontend**: Build UI components";
  lit "4. **Integration**: Connect frontend to backend";
  lit "5. **Testing**: Subagents test both layers";
  [];
  lit "## Stack";
  lit "- **Frontend**: <!-- React, Vue, etc. -->";
  lit "- **Backend**: <!-- Node.js, Python, etc. -->";
  lit "- **Database**: <!-- PostgreSQL, MongoDB, etc. -->";
  [];
  lit "## API Patterns";
  lit "<!-- REST, GraphQL, tRPC, etc. -->";
  [];
  lit "## Testing Strategy";
  lit "- Unit tests for business logic";
  lit "- Integration tests for APIs";
  lit "- Component tests for UI";
  lit "- E2E tests for critical flows";
  [];
  lit "## Escalation Rules";
  lit "- Confirm before database migrations";
  lit "- Ask before API contract changes";
  lit "- Verify cross-stack impacts";
  []
].

Definition data_template : str := text [
  lit "# Claude Code Configuration - Data Science Project";
  [];
  lit "## Project Overview";
  lit "<!-- Describe your data pipeline and analysis goals -->";
  [];
  lit "## Context Management Strategy";
  [];
  lit "### When to Use Subagents";
  lit "- **Data exploration**: Delegate large dataset analysis";
  lit "- **Model searches**: Find similar models in codebase";
  lit "- **Documentation**: Research library documentation";
  lit "- **Experiment runs**: Execute training in subagents";
  lit "- **Result analysis**: Isolate metrics computation";
  [];
  lit "### Context Commands";
  lit "- `/clear` between experiments";
  lit "- `/compact` before model refactoring";
  lit "- `think harder` for model architecture decisions";
  [];
  lit "## Development Workflow";
  [];
  lit "1. **Data Exploration**: Subagent analyzes dataset";
  lit "2. **Feature Engineering**: Design features in main context";
  lit "3. **Model Development**: Implement and iterate";
  lit "4. **Evaluation**: Subagent runs evaluation metrics";
  lit "5. **Documentation**: Record experiment results";
  [];
  lit "## Data Pipeline";
  lit "<!-- Add your data sources and processing steps -->";
  [];
  lit "## Model Architecture";
  lit "<!-- Add your model details -->";
  [];
  lit "## Experiment Tracking";
  lit "<!-- MLflow, Weights & Biases, etc. -->";
  [];
  lit "## Testing Strategy";
  lit "- Unit tests for data processing";
  lit "- Validation tests for model outputs";
  lit "- Subagents handle long-running tests";
  [];
  lit "## Escalation Rules";
  lit "- Confirm before large dataset operations";
  lit "- Ask before changing data schemas";
  lit "- Verify model performance before deployment";
  []
].

Definition library_template : str := text [
  lit "# Claude Code Configuration - Library Project";
  [];
  lit "## Project Overview";
  lit "<!-- Describe your library's purpose and API -->";
  [];
  lit "## Context Management Strategy";
  [];
  lit "### When to Use Subagents";
  lit "- **API searches**: Find similar functions across codebase";
  lit "- **Documentation**: Research upstream dependencies";
  lit "- **Example analysis**: Review usage examples";
  lit "- **Test execution**: Run test suites in subagents";
  lit "- **Build verification**: Check builds across versions";
  [];
  lit "### Context Commands";
  lit "- `/clear` between feature implementations";
  lit "- `/compact` before API refactoring";
  lit "- `think` for public API design";
  [];
  lit "## Development Workflow";
  [];
  lit "1. **API Design**: Plan function signatures";
  lit "2. **Implementation**: Implement core logic";
  lit "3. **Documentation**: Write docstrings and examples";
  lit "4. **Testing**: Comprehensive test coverage";
  lit "5. **Verification**: Subagent runs full test suite";
  [];
  lit "## API Principles";
  lit "- Maintain backward compatibility";
  lit "- Clear, consistent naming";
  lit "- Comprehensive documentation";
  lit "- Type hints/annotations";
  [];
  lit "## Testing Strategy";
  lit "- Unit tests for all public APIs";
  lit "- Integration tests for workflows";
  lit "- Docstring examples as doctests";
  lit "- Subagents handle test execution";
  [];
  lit "## Documentation";
  lit "- Docstrings required for all public APIs";
  lit "- Usage examples in docs/";
  lit "- Changelog maintenance";
  [];
  lit "## Escalation Rules";
  lit "- Confirm before breaking API changes";
  lit "- Ask before adding dependencies";
  lit "- Verify semantic versioning";
  []
].

(** The one object the module's top level builds: [TEMPLATES]. *)
Definition module_heap : gmap loc object := list_to_map [
  (1, ODict [
     (lit "general", VStr general_template);
     (lit "backend", VStr backend_template);
     (lit "frontend", VStr frontend_template);
     (lit "fullstack", VStr fullstack_template);
     (lit "data", VStr data_template);
     (lit "library", VStr library_template)])
].

Definition TEMPLATES : value := VRef 1.

Definition loaded (w : world) : Prop := module_heap ⊆ heap w.

Definition generate_claude_md (project_type output_path : str) : M unit :=
  known <- contains TEMPLATES project_type ;;
  if negb known then
    ks <- keys TEMPLATES ;;
    raise (ValueError (lit "Unknown project type: " ++ project_type
                       ++ lit ". Choose from: " ++ join (lit ", ") ks))
  else
    content <- getitem TEMPLATES project_type ;;
    (* Create parent directory if it doesn't exist *)
    let output_file := Path output_path in
    mkdir (parent output_file) true true ;;
    (* Write the file *)
    data <- lift (str_of content) ;;
    write_text output_file data ;;
    print (9989%N :: lit " Generated CLAUDE.md at " ++ output_path) ;;
    print (lit "   Template: " ++ project_type) ;;
    print (nl ++ 128221%N :: lit " Next steps:") ;;
    print (lit "   1. Review and customize the generated CLAUDE.md") ;;
    print (lit "   2. Fill in project-specific details") ;;
    print (lit "   3. Commit it to your repository").

(** [main], from the values given to [--type] and [--output], if any, as
    for [create_subagent.py]. *)
Definition main (type_arg output_arg : option str) : M unit :=
  choices <- keys TEMPLATES ;;
  type_ <- match type_arg with
           | None => ret (lit "general")
           | Some t =>
               if bool_decide (t ∈ choices) then ret t
               else raise (SystemExit 2
                             (ArgumentError (lit "--type") t choices))
           end ;;
  let output := default (lit "./CLAUDE.md") output_arg in
  generate_claude_md type_ output.

End GenerateClaudeMd.

(** ** Vocabulary for the statements

    Nothing below is run by the scripts: these definitions name what the
    theorems talk about. *)

Module Registry.
Import Py CreateSubagent.

(** A template record as the registry holds it: the record object and its
    tools list, the five fields, and the description its autonomy level
    stands for in [AUTONOMY_DESCRIPTIONS]. *)
Record template := Template {
  t_loc : loc;
  t_tools_loc : loc;
  t_name : str;
  t_description : str;
  t_instructions : str;
  t_tools : list str;
  t_autonomy : str;
  t_autonomy_desc : str
}.

(** The items of a record with [name] in the first field. *)
Definition record_items (name : str) (t : template) : list (str * value) :=
  [(lit "name", VStr name);
   (lit "description", VStr (t_description t));
   (lit "instructions", VStr (t_instructions t));
   (lit "tools", VRef (t_tools_loc t));
   (lit "autonomy", VStr (t_autonomy t))].

Definition dict_at (h : gmap loc object) (v : value)
    : option (list (str * value)) :=
  match v with
  | VRef l => match h !! l with Some (ODict items) => Some items | _ => None end
  | VStr _ => None
  end.

(** Heap [h] holds template [t] under key [ty] of [SUBAGENT_TEMPLATES]. *)
Definition has_template (h : gmap loc object) (ty : str) (t : template)
    : Prop :=
  (exists reg, dict_at h SUBAGENT_TEMPLATES = Some reg
               /\ items_get ty reg = Some (VRef (t_loc t)))
  /\ h !! t_loc t = Some (ODict (record_items (t_name t) t))
  /\ h !! t_tools_loc t = Some (OList (map VStr (t_tools t)))
  /\ (exists auts, dict_at h AUTONOMY_DESCRIPTIONS = Some auts
                   /\ items_get (t_autonomy t) auts
                      = Some (VStr (t_autonomy_desc t))).

Fixpoint strs_of (vs : list value) : option (list str) :=
  match vs with
  | [] => Some []
  | VStr s :: rest => option_map (cons s) (strs_of rest)
  | VRef _ :: _ => None
  end.

(** Reading the template under [ty] off the heap. *)
Definition view (h : gmap loc object) (ty : str) : option template :=
  match dict_at h SUBAGENT_TEMPLATES with
  | Some reg =>
      match items_get ty reg with
      | Some (VRef l) =>
          match h !! l with
          | Some (ODict [(k1, VStr n); (k2, VStr d); (k3, VStr i);
                         (k4, VRef tl); (k5, VStr a)]) =>
              match h !! tl, dict_at h AUTONOMY_DESCRIPTIONS with
              | Some (OList elems), Some auts =>
                  match strs_of elems, items_get a auts with
                  | Some tools, Some (VStr desc) =>
                      let t := Template l tl n d i tools a desc in
                      if bool_decide
                           ([k1; k2; k3; k4; k5] = map fst (record_items n t))
                      then Some t else None
                  | _, _ => None
                  end
              | _, _ => None
              end
          | _ => None
          end
      | _ => None
      end
  | None => None
  end.

(** The keys of a registry, in order. *)
Definition registry_keys (h : gmap loc object) (registry : value)
    : list str :=
  match dict_at h registry with
  | Some reg => map fst reg
  | None => []
  end.

(** The valid type keys of either script. *)
Definition agent_types : list str :=
  registry_keys CreateSubagent.module_heap SUBAGENT_TEMPLATES.
Definition project_types : list str :=
  registry_keys GenerateClaudeMd.module_heap GenerateClaudeMd.TEMPLATES.

(** [needle in haystack] for strings. *)
Definition substring (needle haystack : str) : Prop :=
  exists before after, haystack = before ++ needle ++ after.

(** The text of the [.md] file for [name] and template [t]. *)
Definition md_text (name : str) (t : template) : str :=
  lit "# " ++ name ++ nl ++ nl
  ++ t_description t ++ nl ++ nl
  ++ lit "## Instructions" ++ nl ++ nl
  ++ t_instructions t ++ nl ++ nl
  ++ lit "## Allowed Tools" ++ nl ++ nl
  ++ join nl (map (fun tool => lit "- " ++ tool) (t_tools t)) ++ nl ++ nl
  ++ lit "## Autonomy Level" ++ nl ++ nl
  ++ t_autonomy_desc t ++ nl.

(** A JSON array of strings at nesting level 1 under [indent=2]. *)
Definition array_text (xs : list str) : str :=
  match xs with
  | [] => lit "[]"
  | _ => lit "[" ++ nl ++ lit "    "
         ++ join (lit "," ++ nl ++ lit "    ") (map encode_str xs)
         ++ nl ++ lit "  ]"
  end.

(** The text of the [.json] file for [name] and template [t]: the five
    members in the order name, description, instructions, tools,
    autonomy. *)
Definition json_text (name : str) (t : template) : str :=
  lit "{" ++ nl
  ++ lit "  " ++ encode_str (lit "name") ++ lit ": "
     ++ encode_str name ++ lit "," ++ nl
  ++ lit "  " ++ encode_str (lit "description") ++ lit ": "
     ++ encode_str (t_description t) ++ lit "," ++ nl
  ++ lit "  " ++ encode_str (lit "instructions") ++ lit ": "
     ++ encode_str (t_instructions t) ++ lit "," ++ nl
  ++ lit "  " ++ encode_str (lit "tools") ++ lit ": "
     ++ array_text (t_tools t) ++ lit "," ++ nl
  ++ lit "  " ++ encode_str (lit "autonomy") ++ lit ": "
     ++ encode_str (t_autonomy t) ++ nl
  ++ lit "}".

(** The two files of a run. *)
Definition agents_dir (output_dir : str) : path :=
  joinpath (joinpath (Path output_dir) (lit ".claude")) (lit "agents").
Definition agent_file (agent_name output_dir : str) : path :=
  joinpath (agents_dir output_dir) (agent_name ++ lit ".md").
Definition json_file (agent_name output_dir : str) : path :=
  joinpath (agents_dir output_dir) (agent_name ++ lit ".json").

(** A path name the system calls accept: no component with a character
    [os.fsencode] rejects, none with a null character. *)
Definition path_ok (p : path) : bool :=
  forallb (forallb fs_char) (parts p)
  && negb (existsb (existsb (N.eqb 0)) (parts p)).

(** The lines a successful run prints. *)
Definition status_lines (agent_name agent_type output_dir : str)
    : list str :=
  [9989%N :: lit " Created subagent: " ++ agent_name;
   lit "   Type: " ++ agent_type;
   lit "   Location: " ++ path_str (agent_file agent_name output_dir);
   nl ++ 128221%N :: lit " Next steps:";
   lit "   1. Review and customize "
     ++ path_str (agent_file agent_name output_dir);
   lit "   2. Use in Claude Code with: /agent " ++ agent_name;
   lit "   3. Commit to version control";
   nl ++ 128161%N :: lit " Usage example:";
   lit "   /agent " ++ agent_name ++ lit " [your task description]"].

Fixpoint print_all (lines : list str) : M unit :=
  match lines with
  | [] => ret tt
  | [line] => print line
  | line :: rest => print line ;; print_all rest
  end.

(** What [create_subagent] still does once the texts of the two files are
    known: the directories, the two writes and the status lines. *)
Definition emit (agent_name agent_type output_dir md js : str) : M unit :=
  mkdir (Path output_dir) true true ;;
  mkdir (agents_dir output_dir) true true ;;
  write_text (agent_file agent_name output_dir) md ;;
  write_text (json_file agent_name output_dir) js ;;
  print_all (status_lines agent_name agent_type output_dir).

(** *** Where a run can succeed *)

(** Where the resolution of a path starts. *)
Definition start_of (w : world) (anch : anchor) : list str :=
  if rooted anch then [] else cwd w.

Definition is_file (o : option node) : bool :=
  match o with Some (File _) => true | _ => false end.

(** A component the file system takes and a print can show: text that
    UTF-8 encodes, no null character, at most [NAME_MAX] bytes.  The
    component [..] is one of them. *)
Definition plain_name (c : str) : bool :=
  utf8_encodable c && negb (existsb (N.eqb 0) c)
  && (fs_bytes c <=? NAME_MAX).

Definition plain_path (p : path) : bool := forallb plain_name (parts p).

(** The name of [p] is one a system call takes: under [PATH_MAX]. *)
Definition short_path (p : path) : bool :=
  fs_bytes (path_str p) <? PATH_MAX.

(** [p] has no more levels than [Path.mkdir] can make one inside the
    other. *)
Definition shallow (p : path) : bool := length (parts p) <=? mkdir_room.

(** Where the components [comps] lead from [start] when every directory
    on the way is there: a name leads one level down and [..] one level
    up.  Without [..] it is [start ++ comps]. *)
Definition place (start comps : list str) : list str :=
  fold_left step comps start.

(** The directories of [p] can be made: [p] is within the limits of the
    platform and of the interpreter, resolution starts in a directory and
    no file is in the place of [p] or of a directory on the way to it. *)
Definition way_clear (w : world) (p : path) : bool :=
  let start := start_of w (anchored p) in
  short_path p && shallow p
  && match node_at (fs w) start with
     | Some Dir =>
         forallb (fun k => negb (is_file (node_at (fs w)
                                            (place start (take k (parts p))))))
                 (seq 0 (S (length (parts p))))
     | _ => false
     end.

(** The file [p] can be written: its name is one a system call takes, no
    directory is in its place, and its place is not that of a directory
    on the way to it (which a path with [..] can come back to). *)
Definition not_dir (w : world) (p : path) : bool :=
  let start := start_of w (anchored p) in
  let target := place start (parts p) in
  short_path p
  && match node_at (fs w) target with
     | Some Dir => false
     | _ => true
     end
  && forallb (fun k => negb (bool_decide
                               (place start (take k (parts p)) = target)))
       (seq 0 (length (parts p))).

(** Nothing is at the place of [p], and the directories made on the way
    to [p] leave it so. *)
Definition absent (w : world) (p : path) : bool :=
  not_dir w p
  && match node_at (fs w) (place (start_of w (anchored p)) (parts p)) with
     | None => true
     | Some _ => false
     end.

(** The longest of the extensions a run adds to the agent name,
    [.json], in bytes. *)
Definition ext_bytes : nat := 5.

(** A name safe as a file stem: text that UTF-8 encodes, without a path
    separator or a null character, short enough for the file names made
    of it. *)
Definition safe_name (n : str) : bool :=
  forallb (fun c => utf8_char c && negb (c =? slash)%N && negb (c =? 0)%N) n
  && (fs_bytes n + ext_bytes <=? NAME_MAX).

(** Every directory on the way to [p], and [p] itself, is there. *)
Definition dirs_exist (w : world) (p : path) : Prop :=
  forall k, k <= length (parts p) ->
    node_at (fs w) (place (start_of w (anchored p)) (take k (parts p)))
    = Some Dir.

(** *** generate_claude_md.py *)

(** The template text [TEMPLATES] holds under [ty]. *)
Definition template_text (h : gmap loc object) (ty : str) : option str :=
  match dict_at h GenerateClaudeMd.TEMPLATES with
  | Some reg =>
      match items_get ty reg with
      | Some (VStr s) => Some s
      | _ => None
      end
  | None => None
  end.

(** The lines a successful run of [generate_claude_md] prints. *)
Definition generate_lines (project_type output_path : str) : list str :=
  [9989%N :: lit " Generated CLAUDE.md at " ++ output_path;
   lit "   Template: " ++ project_type;
   nl ++ 128221%N :: lit " Next steps:";
   lit "   1. Review and customize the generated CLAUDE.md";
   lit "   2. Fill in project-specific details";
   lit "   3. Commit it to your repository"].

(** What [generate_claude_md] still does once the template is found. *)
Definition emit_md (project_type output_path content : str) : M unit :=
  mkdir (parent (Path output_path)) true true ;;
  write_text (Path output_path) content ;;
  print_all (generate_lines project_type output_path).

(** Looking [ty] up in [registry] yields a template record: a dict whose
    [tools] is a non-empty list and whose [autonomy] is a key of
    [AUTONOMY_DESCRIPTIONS]. *)
Definition yields_record (w : world) (registry : value) (ty : str) : Prop :=
  exists l items tl elems a desc,
    getitem registry ty w = (Return (VRef l), w)
    /\ heap w !! l = Some (ODict items)
    /\ items_get (lit "tools") items = Some (VRef tl)
    /\ heap w !! tl = Some (OList elems) /\ elems <> []
    /\ items_get (lit "autonomy") items = Some (VStr a)
    /\ getitem AUTONOMY_DESCRIPTIONS a w = (Return (VStr desc), w).

(** *** Worlds to run the scripts in *)

(** A newly started interpreter with the objects [h] of a module, in an
    empty root directory. *)
Definition fresh_world (h : gmap loc object) : world := World h ∅ [] [].

(** The same in an empty directory [/home], the working directory. *)
Definition home_world (h : gmap loc object) : world :=
  World h {[ [lit "home"] := Dir ]} [lit "home"] [].

(** Scenario A of the specification, and the same agent made under a
    nested output directory that does not exist yet. *)
Definition doc_searcher_run : outcome unit * world :=
  create_subagent (lit "doc-searcher") (lit "researcher") (lit ".")
    (fresh_world CreateSubagent.module_heap).
Definition nested_run : outcome unit * world :=
  create_subagent (lit "doc-searcher") (lit "researcher") (lit "build/out")
    (home_world CreateSubagent.module_heap).

(** Scenario B of the specification. *)
Definition library_run : outcome unit * world :=
  GenerateClaudeMd.main (Some (lit "library")) None
    (fresh_world GenerateClaudeMd.module_heap).


(** The extensions of the two files, and the separator between the
    elements of a JSON array at nesting level 1. *)
Definition ext_md : str := lit ".md".
Definition ext_json : str := lit ".json".
Definition elem_sep : str := lit "," ++ nl ++ lit "    ".

(** Every string of a template can be written to a UTF-8 file. *)
Definition encodable_template (t : template) : bool :=
  utf8_encodable (t_description t) && utf8_encodable (t_instructions t)
  && forallb utf8_encodable (t_tools t) && utf8_encodable (t_autonomy t).

End Registry.

(** * Predicates on computations and worlds

    What the statements and the lemmas below say about a run: which parts
    of the world a computation leaves alone, which directories and files a
    world has, and what is known of the world after a successful run. *)

Module Invariants.
Import Py CreateSubagent Registry.

(** A computation is [fs_only] when it changes neither the heap, nor the
    working directory, nor what has been printed. *)
Definition fs_only {A} (m : M A) : Prop :=
  forall w, heap (snd (m w)) = heap w /\ cwd (snd (m w)) = cwd w
            /\ stdout (snd (m w)) = stdout w.

(** [f'] has every directory of [f]. *)
Definition dirs_kept (f f' : gmap (list str) node) : Prop :=
  forall q, node_at f q = Some Dir -> node_at f' q = Some Dir.

(** A computation keeps every directory of the world it starts in. *)
Definition keeps_dirs {A} (m : M A) : Prop :=
  forall w, dirs_kept (fs w) (fs (snd (m w))).

(** [p] names a directory of [w]. *)
Definition names_dir (w : world) (p : path) : Prop :=
  path_ok p = true
  /\ exists t, resolve w p = inr t /\ node_at (fs w) t = Some Dir.

(** [p] names a file of [w] that holds [data]. *)
Definition holds (w : world) (p : path) (data : str) : Prop :=
  path_ok p = true
  /\ exists t, resolve w p = inr t /\ node_at (fs w) t = Some (File data).

(** Components a directory takes: of at most [NAME_MAX] bytes. *)
Definition plain (comps : list str) : Prop :=
  Forall (fun c => fs_bytes c <= NAME_MAX) comps.

(** The world after the directory [target] was made, or found to be
    there. *)
Definition dir_added (target : list str) (w w' : world) : Prop :=
  heap w' = heap w /\ cwd w' = cwd w /\ stdout w' = stdout w
  /\ node_at (fs w') target = Some Dir
  /\ forall q, q <> target -> node_at (fs w') q = node_at (fs w) q.

(** The world after the directories on the way along [comps] from [start]
    were made. *)
Definition dirs_made (start comps : list str) (w w' : world) : Prop :=
  heap w' = heap w /\ cwd w' = cwd w /\ stdout w' = stdout w
  /\ (forall k, k <= length comps ->
                node_at (fs w') (place start (take k comps)) = Some Dir)
  /\ (forall q, (forall k, k <= length comps ->
                           q <> place start (take k comps)) ->
                node_at (fs w') q = node_at (fs w) q).

(** What is known of the world a successful [emit] leaves. *)
Record emitted (n ty out md js : str) (w w' : world) : Prop := {
  em_heap : heap w' = heap w;
  em_cwd : cwd w' = cwd w;
  em_dirs : dirs_kept (fs w) (fs w');
  em_out : names_dir w' (Path out);
  em_agents : names_dir w' (agents_dir out);
  em_md : holds w' (agent_file n out) md;
  em_json : holds w' (json_file n out) js;
  em_md_ok : utf8_encodable md = true;
  em_json_ok : utf8_encodable js = true;
  em_lines : forallb utf8_encodable (status_lines n ty out) = true;
  em_stdout : stdout w' = stdout w ++ status_lines n ty out
}.

(** What is known of the world a successful [emit_md] leaves. *)
Record generated (ty out text : str) (w w' : world) : Prop := {
  gen_heap : heap w' = heap w;
  gen_cwd : cwd w' = cwd w;
  gen_dirs : dirs_kept (fs w) (fs w');
  gen_parent : names_dir w' (parent (Path out));
  gen_file : holds w' (Path out) text;
  gen_stdout : stdout w' = stdout w ++ generate_lines ty out
}.

(** Decides the comparisons of code points left in the goal. *)
Ltac n_tests :=
  repeat match goal with
         | |- context [(?a =? ?b)%N] =>
             first [ rewrite (proj2 (N.eqb_eq a b)) by lia
                   | rewrite (proj2 (N.eqb_neq a b)) by lia ]
         | |- context [(?a <? ?b)%N] =>
             first [ rewrite (proj2 (N.ltb_lt a b)) by lia
                   | rewrite (proj2 (N.ltb_ge a b)) by lia ]
         | |- context [(?a <=? ?b)%N] =>
             first [ rewrite (proj2 (N.leb_le a b)) by lia
                   | rewrite (proj2 (N.leb_gt a b)) by lia ]
         end.

(** Computes the lengths of the literal pieces of a text. *)
Ltac lit_lengths :=
  change (length nl) with 1 in *;
  repeat match goal with
         | |- context [length (encode_str (lit ?s))] =>
             let n := eval vm_compute in (length (encode_str (lit s))) in
             change (length (encode_str (lit s))) with n
         | |- context [length (lit ?s)] =>
             let n := eval vm_compute in (length (lit s)) in
             change (length (lit s)) with n
         end.

End Invariants.

(** * Effects of a run

    What a run may do to the file system and how it may end, for the
    statements about runs of either outcome. *)

Module Effects.
Import Py CreateSubagent Registry Invariants.

(** From [w] to [w'] the working directory is the same, every directory
    is still a directory, and every file has kept its text unless it is
    the file one of the paths [targets] names. *)
Definition only_writes (targets : list path) (w w' : world) : Prop :=
  cwd w' = cwd w
  /\ dirs_kept (fs w) (fs w')
  /\ forall q data,
       node_at (fs w) q = Some (File data) ->
       node_at (fs w') q = Some (File data)
       \/ exists p, p ∈ targets /\ resolve w' p = inr q.

(** The exceptions the platform calls of the scripts raise: an
    [OSError] of the file system, [UnicodeEncodeError], the [ValueError]
    of a path name with a null character, and the [RecursionError] of
    [Path.mkdir] under too many missing levels. *)
Definition platform_error (e : exn) : bool :=
  match e with
  | FileNotFoundError | FileExistsError
  | NotADirectoryError | IsADirectoryError | OSError _
  | UnicodeEncodeError | RecursionError => true
  | ValueError msg => str_eqb msg (lit "embedded null byte")
  | _ => false
  end.

(** An outcome that is a result or an exception of [errors]. *)
Definition ends_in {A} (errors : exn -> bool) (o : outcome A) : Prop :=
  match o with
  | Return _ => True
  | Raise e => errors e = true
  | Stuck => False
  end.

(** A computation that, from any world, writes only the files [targets]
    name and ends in a result or a platform error. *)
Definition confined {A} (targets : list path) (m : M A) : Prop :=
  forall w, only_writes targets w (snd (m w))
            /\ ends_in platform_error (fst (m w)).

(** Text of ASCII characters only. *)
Definition ascii_only (s : str) : bool := forallb (fun c => (c <? 128)%N) s.



(** A name the file system takes as a file stem: every character is one
    [os.fsencode] encodes, none is a path separator or null, and the file
    names made of it are within [NAME_MAX].  Unlike [safe_name] it may
    hold the surrogates that stand for undecodable bytes of the command
    line. *)
Definition file_stem (n : str) : bool :=
  forallb (fun c => fs_char c && negb (c =? slash)%N && negb (c =? 0)%N) n
  && (fs_bytes n + ext_bytes <=? NAME_MAX).



(** The exit of [argparse] on a command line it rejects. *)
Definition usage_error (e : exn) : bool :=
  match e with
  | SystemExit code (ArgumentError _ _ _) => (code =? 2)%N
  | _ => false
  end.

(** A working directory [/home] that is in use: notes, a project file, a
    [docs] directory and the agent file of an earlier run. *)
Definition busy_world (h : gmap loc object) : world :=
  World h
    (list_to_map
       [([lit "home"], Dir);
        ([lit "home"; lit "notes.txt"], File (lit "keep me"));
        ([lit "home"; lit "CLAUDE.md"], File (lit "old project notes"));
        ([lit "home"; lit "docs"], Dir);
        ([lit "home"; lit ".claude"], Dir);
        ([lit "home"; lit ".claude"; lit "agents"], Dir);
        ([lit "home"; lit ".claude"; lit "agents"; lit "doc-searcher.md"],
         File (lit "old agent"))])
    [lit "home"] [].

(** The agent of scenario A made again in that directory. *)
Definition busy_run : outcome unit * world :=
  create_subagent (lit "doc-searcher") (lit "researcher") (lit ".")
    (busy_world CreateSubagent.module_heap).

(** A project file written over the one that is there. *)
Definition busy_md_run : outcome unit * world :=
  GenerateClaudeMd.generate_claude_md (lit "library") (lit "./CLAUDE.md")
    (busy_world GenerateClaudeMd.module_heap).

(** An agent whose name is an absolute path, made with output [out]. *)
Definition escaping_run : outcome unit * world :=
  create_subagent (lit "/home/docs/bot") (lit "tester") (lit "out")
    (busy_world CreateSubagent.module_heap).

(** An agent with a name outside ASCII: e acute, the euro sign and an
    emoji. *)
Definition accented_run : outcome unit * world :=
  create_subagent [233; 8364; 128512]%N (lit "builder") (lit ".")
    (fresh_world CreateSubagent.module_heap).

(** An agent that cannot be written: [/home/notes.txt] is a file, not a
    directory. *)
Definition blocked_run : outcome unit * world :=
  create_subagent (lit "bot") (lit "tester") (lit "notes.txt/sub")
    (busy_world CreateSubagent.module_heap).

(** A project file that cannot be written, for the same reason. *)
Definition blocked_md_run : outcome unit * world :=
  GenerateClaudeMd.generate_claude_md (lit "data")
    (lit "notes.txt/CLAUDE.md") (busy_world GenerateClaudeMd.module_heap).

(** An agent whose name is longer than a file name can be. *)
Definition long_name_run : outcome unit * world :=
  create_subagent (repeat 97%N 300) (lit "tester") (lit ".")
    (busy_world CreateSubagent.module_heap).

(** An agent made below a directory whose name is too long. *)
Definition long_output_run : outcome unit * world :=
  create_subagent (lit "bot") (lit "tester") (repeat 97%N 300)
    (busy_world CreateSubagent.module_heap).

(** An agent made in a directory beside the working directory. *)
Definition sibling_run : outcome unit * world :=
  create_subagent (lit "bot") (lit "tester") (lit "../proj/out")
    (busy_world CreateSubagent.module_heap).

(** A project file made through a directory that is missing and left
    again: [site/../pages/CLAUDE.md]. *)
Definition detour_md_run : outcome unit * world :=
  GenerateClaudeMd.generate_claude_md (lit "frontend")
    (lit "site/../pages/CLAUDE.md")
    (busy_world GenerateClaudeMd.module_heap).

(** An agent made with an output that starts with two slashes, which
    pathlib keeps. *)
Definition double_slash_run : outcome unit * world :=
  create_subagent (lit "bot") (lit "tester") (lit "//srv/x")
    (busy_world CreateSubagent.module_heap).

(** An output path of [levels] missing directories [a/a/.../a]. *)
Definition deep_path (levels : nat) : str :=
  flat_map (fun _ => lit "a/") (seq 0 levels) ++ lit "CLAUDE.md".

Definition deep_md_run (levels : nat) : outcome unit * world :=
  GenerateClaudeMd.generate_claude_md (lit "general") (deep_path levels)
    (busy_world GenerateClaudeMd.module_heap).

(** An agent whose name holds an undecodable byte of the command line
    ([0xff], kept by Python as the surrogate [U+DCFF]). *)
Definition undecodable_run : outcome unit * world :=
  create_subagent (lit "bot" ++ [0xDCFF%N]) (lit "tester") (lit ".")
    (busy_world CreateSubagent.module_heap).

End Effects.

Import Py CreateSubagent Registry Invariants Effects.

(** * Facts about the runtime model *)

Section Monad.
Context {A B : Type}.

Lemma bind_eq (m : M A) (f : A -> M B) w :
  bind m f w = match m w with
               | (Return a, w') => f a w'
               | (Raise e, w') => (Raise e, w')
               | (Stuck, w') => (Stuck, w')
               end.
Proof. reflexivity. Qed.

Lemma bind_Return_inv (m : M A) (f : A -> M B) w b w' :
  bind m f w = (Return b, w') ->
  exists a w1, m w = (Return a, w1) /\ f a w1 = (Return b, w').
Proof.
  unfold bind. destruct (m w) as [[a|e|] w1]; intros H; try discriminate.
  eauto.
Qed.

Lemma bind_Return (m : M A) (f : A -> M B) w a w1 :
  m w = (Return a, w1) -> bind m f w = f a w1.
Proof. unfold bind. intros ->. reflexivity. Qed.

(** A run whose outcome is [Return] ends in its own final world. *)
Lemma outcome_Return (r : outcome A * world) a :
  fst r = Return a -> r = (Return a, snd r).
Proof. destruct r as [o w]. simpl. by intros ->. Qed.
End Monad.

(** ** Items *)

Lemma str_eqb_eq (a b : str) : str_eqb a b = true <-> a = b.
Proof. unfold str_eqb. apply bool_decide_eq_true. Qed.

Lemma items_get_None {V} (k : str) (items : list (str * V)) :
  items_get k items = None <-> k ∉ map fst items.
Proof.
  induction items as [|[k' v] rest IH]; simpl.
  - split; [intros _; apply not_elem_of_nil | done].
  - unfold str_eqb. rewrite not_elem_of_cons. case_bool_decide; split.
    + discriminate.
    + intros [? _]. congruence.
    + intros H'. split; [done | by apply IH].
    + intros [_ H']. by apply IH.
Qed.

Lemma items_get_is_Some {V} (k : str) (items : list (str * V)) :
  is_Some (items_get k items) <-> k ∈ map fst items.
Proof.
  rewrite <- not_eq_None_Some, items_get_None.
  split; [apply dec_stable | auto].
Qed.

(** ** Reading the registry *)

Lemma dict_at_weaken (h h' : gmap loc object) v items :
  h ⊆ h' -> dict_at h v = Some items -> dict_at h' v = Some items.
Proof.
  intros Hsub. destruct v as [|l]; simpl; [done|].
  destruct (h !! l) as [[its|]|] eqn:E; try discriminate.
  intros [= <-]. by rewrite (lookup_weaken _ _ _ _ E Hsub).
Qed.

Lemma has_template_weaken (h h' : gmap loc object) ty t :
  h ⊆ h' -> has_template h ty t -> has_template h' ty t.
Proof.
  intros Hsub ([reg [Hreg Hty]] & Hrec & Htools & [auts [Hauts Hdesc]]).
  repeat split.
  - exists reg. eauto using dict_at_weaken.
  - eapply lookup_weaken; eauto.
  - eapply lookup_weaken; eauto.
  - exists auts. eauto using dict_at_weaken.
Qed.

Lemma strs_of_Some vs ss : strs_of vs = Some ss -> vs = map VStr ss.
Proof.
  revert ss. induction vs as [|[s|l] rest IH]; simpl; intros ss H.
  - by injection H as <-.
  - destruct (strs_of rest) as [ss'|]; simpl in H; [|discriminate].
    injection H as <-. simpl. f_equal. by apply IH.
  - discriminate.
Qed.

Lemma view_sound (h : gmap loc object) ty t :
  view h ty = Some t -> has_template h ty t.
Proof.
  unfold view, has_template.
  destruct (dict_at h SUBAGENT_TEMPLATES) as [reg|] eqn:Hreg; [|discriminate].
  destruct (items_get ty reg) as [[|l]|] eqn:Hty; try discriminate.
  destruct (h !! l) as [[items|]|] eqn:Hl; try discriminate.
  destruct items as [|[k1 [n|]] [|[k2 [d|]] [|[k3 [i|]] [|[k4 [|tl]]
    [|[k5 [a|]] [|]]]]]]; try discriminate.
  destruct (h !! tl) as [[|elems]|] eqn:Htl; try discriminate.
  destruct (dict_at h AUTONOMY_DESCRIPTIONS) as [auts|] eqn:Hauts;
    [|discriminate].
  destruct (strs_of elems) as [tools|] eqn:Hstrs; [|discriminate].
  destruct (items_get a auts) as [[desc|]|] eqn:Hdesc; try discriminate.
  case_bool_decide as Hkeys; [|discriminate].
  intros [= <-]. simpl in *.
  injection Hkeys as -> -> -> -> ->.
  apply strs_of_Some in Hstrs as ->.
  repeat split; eauto.
Qed.

Lemma loaded_has_template w ty t :
  loaded w -> view module_heap ty = Some t -> has_template (heap w) ty t.
Proof.
  intros Hl Hv. eapply has_template_weaken; [exact Hl|].
  by apply view_sound.
Qed.

Lemma agent_types_eq :
  agent_types
  = [lit "researcher"; lit "tester"; lit "analyzer"; lit "builder";
     lit "deep_analyzer"].
Proof. vm_compute. reflexivity. Qed.

Lemma project_types_eq :
  project_types
  = [lit "general"; lit "backend"; lit "frontend"; lit "fullstack";
     lit "data"; lit "library"].
Proof. vm_compute. reflexivity. Qed.

Lemma valid_view ty :
  ty ∈ agent_types -> is_Some (view module_heap ty).
Proof.
  rewrite agent_types_eq, !elem_of_cons, elem_of_nil.
  intros [->|[->|[->|[->|[->|[]]]]]]; vm_compute; eauto.
Qed.

(** ** Heap primitives *)

Lemma get_dict_eq d w items :
  dict_at (heap w) d = Some items -> get_dict d w = (Return items, w).
Proof.
  destruct d as [|l]; simpl; [done|].
  destruct (heap w !! l) as [[its|]|]; try discriminate. by intros [= ->].
Qed.

Lemma contains_eq d k w items :
  dict_at (heap w) d = Some items ->
  contains d k w = (Return (bool_decide (is_Some (items_get k items))), w).
Proof. intros H. unfold contains. by rewrite bind_eq, (get_dict_eq _ _ _ H). Qed.

Lemma keys_eq d w items :
  dict_at (heap w) d = Some items -> keys d w = (Return (map fst items), w).
Proof. intros H. unfold keys. by rewrite bind_eq, (get_dict_eq _ _ _ H). Qed.

Lemma getitem_eq d k w items v :
  dict_at (heap w) d = Some items -> items_get k items = Some v ->
  getitem d k w = (Return v, w).
Proof.
  intros H Hk. unfold getitem. by rewrite bind_eq, (get_dict_eq _ _ _ H), Hk.
Qed.

Lemma getitem_missing d k w items :
  dict_at (heap w) d = Some items -> items_get k items = None ->
  getitem d k w = (Raise (KeyError k), w).
Proof.
  intros H Hk. unfold getitem. by rewrite bind_eq, (get_dict_eq _ _ _ H), Hk.
Qed.

Lemma dict_copy_eq d w items :
  dict_at (heap w) d = Some items ->
  dict_copy d w
  = (Return (VRef (fresh (dom (heap w)))),
     set_heap (<[fresh (dom (heap w)) := ODict items]> (heap w)) w).
Proof.
  intros H. unfold dict_copy. by rewrite bind_eq, (get_dict_eq _ _ _ H).
Qed.

Lemma fresh_loc_None (h : gmap loc object) : h !! fresh (dom h) = None.
Proof. apply not_elem_of_dom, is_fresh. Qed.

Lemma fresh_loc_ne (h : gmap loc object) l o :
  h !! l = Some o -> fresh (dom h) <> l.
Proof. intros H E. rewrite <- E, fresh_loc_None in H. discriminate. Qed.

(** ** Rendering *)

Lemma osequence_bullets (tools : list str) :
  osequence (map (fun tool => obind (str_of tool)
                                (fun s => Return (lit "- " ++ s)))
                 (map VStr tools))
  = Return (map (fun tool => lit "- " ++ tool) tools).
Proof.
  induction tools as [|x rest IH]; [done|].
  cbn [map osequence str_of obind]. by rewrite IH.
Qed.

(** Rendering [CLAUDE_CODE_FORMAT] cannot fail, whatever the five strings
    are, and inserts each of them as it is. *)
Lemma format_CLAUDE_CODE_FORMAT (name d i tools_list desc : str) :
  format CLAUDE_CODE_FORMAT
    [(lit "agent_name", VStr name); (lit "description", VStr d);
     (lit "instructions", VStr i); (lit "tools", VStr tools_list);
     (lit "autonomy_description", VStr desc)]
  = Return (lit "# " ++ name ++ nl ++ nl ++ d ++ nl ++ nl
            ++ lit "## Instructions" ++ nl ++ nl ++ i ++ nl ++ nl
            ++ lit "## Allowed Tools" ++ nl ++ nl ++ tools_list ++ nl ++ nl
            ++ lit "## Autonomy Level" ++ nl ++ nl ++ desc ++ nl).
Proof. vm_compute. reflexivity. Qed.

Lemma iterencode_str depth h ind markers level s :
  iterencode (S depth) h ind markers level (VStr s) = Return (encode_str s).
Proof. reflexivity. Qed.

Lemma iterencode_list depth h ind markers level l x xs :
  l ∉ markers -> h !! l = Some (OList (x :: xs)) ->
  iterencode (S depth) h ind markers level (VRef l)
  = obind (osequence
             (map (iterencode depth h ind (l :: markers) (S level)) (x :: xs)))
      (fun chunks =>
         Return (lit "[" ++ newline_indent ind (S level)
                 ++ join (lit "," ++ newline_indent ind (S level)) chunks
                 ++ newline_indent ind level ++ lit "]")).
Proof.
  intros Hm Hl. cbn [iterencode].
  by rewrite (bool_decide_eq_false_2 _ Hm), Hl.
Qed.

Lemma iterencode_list_nil depth h ind markers level l :
  l ∉ markers -> h !! l = Some (OList []) ->
  iterencode (S depth) h ind markers level (VRef l) = Return (lit "[]").
Proof.
  intros Hm Hl. cbn [iterencode].
  by rewrite (bool_decide_eq_false_2 _ Hm), Hl.
Qed.

Lemma iterencode_dict depth h ind markers level l kv items :
  l ∉ markers -> h !! l = Some (ODict (kv :: items)) ->
  iterencode (S depth) h ind markers level (VRef l)
  = obind (osequence
             (map (fun kv =>
                     obind (iterencode depth h ind (l :: markers) (S level)
                              (snd kv))
                       (fun chunk =>
                          Return (encode_str (fst kv) ++ lit ": " ++ chunk)))
                  (kv :: items)))
      (fun chunks =>
         Return (lit "{" ++ newline_indent ind (S level)
                 ++ join (lit "," ++ newline_indent ind (S level)) chunks
                 ++ newline_indent ind level ++ lit "}")).
Proof.
  intros Hm Hl. cbn [iterencode].
  by rewrite (bool_decide_eq_false_2 _ Hm), Hl.
Qed.

Lemma osequence_encode depth h ind markers level (xs : list str) :
  osequence (map (iterencode (S depth) h ind markers level) (map VStr xs))
  = Return (map encode_str xs).
Proof.
  induction xs as [|x rest IH]; [done|].
  cbn [map osequence]. rewrite IH. reflexivity.
Qed.

Lemma iterencode_tools depth (h : gmap loc object) markers l tools :
  l ∉ markers -> h !! l = Some (OList (map VStr tools)) ->
  iterencode (S (S depth)) h 2 markers 1 (VRef l)
  = Return (array_text tools).
Proof.
  intros Hm Hl. destruct tools as [|x rest].
  - by apply iterencode_list_nil.
  - rewrite (iterencode_list (S depth) h 2 markers 1 l (VStr x)
               (map VStr rest) Hm Hl).
    change (VStr x :: map VStr rest) with (map VStr (x :: rest)).
    rewrite osequence_encode. reflexivity.
Qed.

Lemma iterencode_record (h : gmap loc object) l name t depth :
  h !! l = Some (ODict (record_items name t)) ->
  h !! t_tools_loc t = Some (OList (map VStr (t_tools t))) ->
  l <> t_tools_loc t ->
  iterencode (S (S (S depth))) h 2 [] 0 (VRef l) = Return (json_text name t).
Proof.
  intros Hl Htl Hne.
  erewrite iterencode_dict by (eauto; apply not_elem_of_nil).
  cbn [map osequence fst snd].
  rewrite !iterencode_str.
  erewrite iterencode_tools
    by (eauto; rewrite list_elem_of_singleton; congruence).
  cbn [obind join]. unfold json_text.
  generalize (encode_str name) (encode_str (t_description t))
    (encode_str (t_instructions t)) (array_text (t_tools t))
    (encode_str (t_autonomy t)).
  intros e1 e2 e3 e4 e5. rewrite <- !app_assoc. vm_compute. reflexivity.
Qed.
(** ** What the file-system calls leave alone

    A computation is [fs_only] when it changes neither the heap, nor the
    working directory, nor what has been printed. *)

Lemma fs_only_ret {A} (a : A) : fs_only (ret a).
Proof. by intros w. Qed.

Lemma fs_only_raise {A} e : fs_only (@raise A e).
Proof. by intros w. Qed.

Lemma fs_only_bind {A B} (m : M A) (f : A -> M B) :
  fs_only m -> (forall a, fs_only (f a)) -> fs_only (bind m f).
Proof.
  intros Hm Hf w. unfold bind. specialize (Hm w).
  destruct (m w) as [[a|e|] w1]; simpl in *; try done.
  destruct (Hf a w1) as (-> & -> & ->). done.
Qed.

Lemma fs_only_try_except {A} (m : M A) handles handler :
  fs_only m -> (forall e, fs_only (handler e)) ->
  fs_only (try_except m handles handler).
Proof.
  intros Hm Hh w. unfold try_except. specialize (Hm w).
  destruct (m w) as [[a|e|] w1]; simpl in *; try done.
  destruct (handles e); [|done].
  destruct (Hh e w1) as (-> & -> & ->). done.
Qed.

Lemma fsencode_state p w : snd (fsencode p w) = w.
Proof.
  unfold fsencode. destruct (negb _); [done|]. by destruct (existsb _ _).
Qed.

Lemma fs_only_fsencode p : fs_only (fsencode p).
Proof. intros w. by rewrite fsencode_state. Qed.

Lemma fs_only_os_mkdir p : fs_only (os_mkdir p).
Proof.
  unfold os_mkdir. apply fs_only_bind; [apply fs_only_fsencode|].
  intros _ w. destruct (resolve w p); [done|].
  by destruct (node_at _ _).
Qed.

Lemma is_dir_state p w : snd (is_dir p w) = w.
Proof.
  unfold is_dir. destruct (fsencode p w) as [[| |] ?]; try done.
  destruct (resolve w p) as [e|t]; [by destruct (ignore_error e)|].
  by destruct (node_at _ _) as [[|]|].
Qed.

Lemma fs_only_mkdir_oserror p ok e : fs_only (mkdir_oserror p ok e).
Proof.
  unfold mkdir_oserror. apply fs_only_bind.
  - intros w. by rewrite is_dir_state.
  - intros d. destruct (_ || _); [apply fs_only_raise | apply fs_only_ret].
Qed.

Lemma fs_only_mkdir_flat p ok : fs_only (mkdir_flat p ok).
Proof.
  apply fs_only_try_except;
    auto using fs_only_os_mkdir, fs_only_mkdir_oserror.
Qed.

Lemma fs_only_mkdir_parents room anch rparts ok :
  fs_only (mkdir_parents room anch rparts ok).
Proof.
  revert rparts ok. induction room as [|room IH]; intros rparts ok;
    [apply fs_only_raise|].
  cbn [mkdir_parents].
  apply fs_only_try_except; [apply fs_only_os_mkdir|].
  intros e. destruct (is_FileNotFoundError e);
    [|apply fs_only_mkdir_oserror].
  destruct rparts as [|c rparent]; [apply fs_only_raise|].
  apply fs_only_bind; auto using fs_only_mkdir_flat.
Qed.

Lemma fs_only_mkdir p parents ok : fs_only (mkdir p parents ok).
Proof.
  unfold mkdir.
  destruct parents; auto using fs_only_mkdir_parents, fs_only_mkdir_flat.
Qed.

Lemma fs_only_write_text p data : fs_only (write_text p data).
Proof.
  unfold write_text. apply fs_only_bind; [apply fs_only_fsencode|].
  intros _ w. destruct (resolve w p); [done|].
  destruct (node_at _ _) as [[|]|]; try done; by destruct (utf8_encodable _).
Qed.

(** ** [create_subagent], once the template is found

    The record is copied to a fresh object, the copy gets the agent's
    name, and what remains is [emit] with the two texts. *)

Lemma create_subagent_run name ty out w t :
  has_template (heap w) ty t ->
  create_subagent name ty out w
  = emit name ty out (md_text name t) (json_text name t)
      (set_heap (<[fresh (dom (heap w)) := ODict (record_items name t)]>
                   (heap w)) w).
Proof.
  intros ([reg [Hreg Hty]] & Hrec & Htools & [auts [Hauts Hdesc]]).
  set (l := fresh (dom (heap w))).
  set (h1 := <[l := ODict (record_items name t)]> (heap w)).
  assert (Hl1 : h1 !! l = Some (ODict (record_items name t)))
    by apply lookup_insert_eq.
  assert (Htl1 : h1 !! t_tools_loc t = Some (OList (map VStr (t_tools t)))).
  { unfold h1. rewrite lookup_insert_ne; [done|]. by eapply fresh_loc_ne. }
  assert (Hne : l <> t_tools_loc t) by (by eapply fresh_loc_ne).
  assert (Hauts1 : dict_at h1 AUTONOMY_DESCRIPTIONS = Some auts).
  { eapply dict_at_weaken; [|exact Hauts].
    apply insert_subseteq, fresh_loc_None. }
  unfold create_subagent.
  rewrite bind_eq, (contains_eq _ _ _ _ Hreg), Hty.
  rewrite bool_decide_eq_true_2 by eauto. cbn [negb].
  rewrite bind_eq, (getitem_eq _ _ _ _ _ Hreg Hty).
  rewrite bind_eq, (dict_copy_eq (VRef (t_loc t)) w (record_items (t_name t) t))
    by (simpl; by rewrite Hrec).
  fold l.
  rewrite bind_eq. unfold setitem. cbn [heap set_heap].
  rewrite lookup_insert_eq, insert_insert_eq.
  change (items_set (lit "name") (VStr name) (record_items (t_name t) t))
    with (record_items name t).
  fold h1.
  change (set_heap h1 (set_heap _ w)) with (set_heap h1 w).
  set (w1 := set_heap h1 w).
  assert (Hw : heap w1 = h1) by reflexivity. clearbody w1.
  unfold emit, agent_file, json_file, agents_dir.
  (* the two directories *)
  rewrite !bind_eq.
  pose proof (fs_only_mkdir (Path out) true true w1) as (Hf & _ & _).
  destruct (mkdir (Path out) true true w1) as [[[]|e|] w2];
    [|reflexivity..].
  simpl in Hf. rewrite <- Hf in Hw. clear Hf w1.
  rewrite !bind_eq.
  match goal with |- context [mkdir ?p true true w2] =>
    pose proof (fs_only_mkdir p true true w2) as (Hf & _ & _);
    destruct (mkdir p true true w2) as [[[]|e|] w3]; [|reflexivity..]
  end.
  simpl in Hf. rewrite <- Hf in Hw. clear Hf w2.
  (* the text of the .md file *)
  assert (Hd : dict_at (heap w3) (VRef l) = Some (record_items name t))
    by (simpl; by rewrite Hw, Hl1).
  rewrite bind_eq, (getitem_eq _ (lit "tools") _ _ _ Hd eq_refl).
  rewrite bind_eq. unfold iter_list. rewrite Hw, Htl1.
  rewrite bind_eq. unfold lift. rewrite osequence_bullets.
  rewrite bind_eq, (getitem_eq _ (lit "autonomy") _ _ _ Hd eq_refl).
  rewrite bind_eq. unfold getitem_value.
  rewrite (getitem_eq _ _ w3 _ _ (eq_trans (f_equal (fun h => dict_at h _) Hw)
                                    Hauts1) Hdesc).
  rewrite bind_eq, (getitem_eq _ (lit "description") _ _ _ Hd eq_refl).
  rewrite bind_eq, (getitem_eq _ (lit "instructions") _ _ _ Hd eq_refl).
  rewrite bind_eq, format_CLAUDE_CODE_FORMAT.
  fold (md_text name t).
  (* the write, then the text of the .json file *)
  rewrite !bind_eq.
  match goal with |- context [write_text ?p ?d w3] =>
    pose proof (fs_only_write_text p d w3) as (Hf & _ & _);
    destruct (write_text p d w3) as [[[]|e|] w4]; [|reflexivity..]
  end.
  simpl in Hf. rewrite <- Hf in Hw. clear Hf Hd w3.
  rewrite bind_eq. unfold json_dumps, read_heap, recursion_limit.
  rewrite Hw, (iterencode_record h1 l name t 997 Hl1 Htl1 Hne).
  reflexivity.
Qed.

(** ** An unknown type *)

Lemma substring_join sep (xs : list str) k :
  k ∈ xs -> substring k (join sep xs).
Proof.
  induction xs as [|x rest IH]; [by intros ?%elem_of_nil|].
  intros [->|Hin]%elem_of_cons.
  - destruct rest as [|y rest'].
    + exists [], []. simpl. by rewrite app_nil_r.
    + exists [], (sep ++ join sep (y :: rest')). reflexivity.
  - destruct (IH Hin) as (before & after & Heq).
    destruct rest as [|y rest']; [by apply elem_of_nil in Hin|].
    exists (x ++ sep ++ before), after.
    change (join sep (x :: y :: rest'))
      with (x ++ sep ++ join sep (y :: rest')).
    rewrite Heq. by rewrite <- !app_assoc.
Qed.

Lemma substring_app_r a b k : substring k b -> substring k (a ++ b).
Proof.
  intros (before & after & ->). exists (a ++ before), after.
  by rewrite <- app_assoc.
Qed.

Lemma substring_app_l a b k : substring k a -> substring k (a ++ b).
Proof.
  intros (before & after & ->). exists before, (after ++ b).
  by rewrite <- !app_assoc.
Qed.

Lemma loaded_registry w :
  loaded w ->
  exists reg, dict_at (heap w) SUBAGENT_TEMPLATES = Some reg
              /\ map fst reg = agent_types.
Proof.
  intros Hl.
  destruct (dict_at module_heap SUBAGENT_TEMPLATES) as [reg|] eqn:E;
    [|by vm_compute in E].
  exists reg. split; [by eapply dict_at_weaken|].
  unfold agent_types, registry_keys. by rewrite E.
Qed.

Lemma loaded_templates w :
  GenerateClaudeMd.loaded w ->
  exists reg, dict_at (heap w) GenerateClaudeMd.TEMPLATES = Some reg
              /\ map fst reg = project_types.
Proof.
  intros Hl.
  destruct (dict_at GenerateClaudeMd.module_heap GenerateClaudeMd.TEMPLATES)
    as [reg|] eqn:E; [|by vm_compute in E].
  exists reg. split; [by eapply dict_at_weaken|].
  unfold project_types, registry_keys. by rewrite E.
Qed.

Lemma unknown_contains d k w items :
  dict_at (heap w) d = Some items -> k ∉ map fst items ->
  contains d k w = (Return false, w).
Proof.
  intros Hd Hk. rewrite (contains_eq _ _ _ _ Hd).
  apply items_get_None in Hk. rewrite Hk.
  by rewrite bool_decide_eq_false_2 by (by intros [? ?]).
Qed.

Lemma create_subagent_unknown name ty out w :
  loaded w -> ty ∉ agent_types ->
  create_subagent name ty out w
  = (Raise (ValueError (lit "Unknown agent type: " ++ ty ++ lit ". "
                        ++ lit "Choose from: "
                        ++ join (lit ", ") agent_types)), w).
Proof.
  intros Hl Hty. destruct (loaded_registry w Hl) as (reg & Hreg & Hkeys).
  unfold create_subagent.
  rewrite bind_eq, (unknown_contains _ _ _ _ Hreg) by by rewrite Hkeys.
  cbn [negb]. rewrite bind_eq, (keys_eq _ _ _ Hreg), Hkeys. reflexivity.
Qed.

Lemma generate_claude_md_unknown ty out w :
  GenerateClaudeMd.loaded w -> ty ∉ project_types ->
  GenerateClaudeMd.generate_claude_md ty out w
  = (Raise (ValueError (lit "Unknown project type: " ++ ty
                        ++ lit ". Choose from: "
                        ++ join (lit ", ") project_types)), w).
Proof.
  intros Hl Hty. destruct (loaded_templates w Hl) as (reg & Hreg & Hkeys).
  unfold GenerateClaudeMd.generate_claude_md.
  rewrite bind_eq, (unknown_contains _ _ _ _ Hreg) by by rewrite Hkeys.
  cbn [negb]. rewrite bind_eq, (keys_eq _ _ _ Hreg), Hkeys. reflexivity.
Qed.

Lemma main_unknown name ty output_arg w :
  loaded w -> ty ∉ agent_types ->
  main name (Some ty) output_arg w
  = (Raise (SystemExit 2 (ArgumentError (lit "--type") ty agent_types)), w).
Proof.
  intros Hl Hty. destruct (loaded_registry w Hl) as (reg & Hreg & Hkeys).
  unfold main. rewrite bind_eq, (keys_eq _ _ _ Hreg), Hkeys.
  rewrite bind_eq. by rewrite bool_decide_eq_false_2.
Qed.

Lemma generate_main_unknown ty output_arg w :
  GenerateClaudeMd.loaded w -> ty ∉ project_types ->
  GenerateClaudeMd.main (Some ty) output_arg w
  = (Raise (SystemExit 2 (ArgumentError (lit "--type") ty project_types)), w).
Proof.
  intros Hl Hty. destruct (loaded_templates w Hl) as (reg & Hreg & Hkeys).
  unfold GenerateClaudeMd.main. rewrite bind_eq, (keys_eq _ _ _ Hreg), Hkeys.
  rewrite bind_eq. by rewrite bool_decide_eq_false_2.
Qed.
(** ** Escaping and scanning a string *)

Lemma hex_value_digit d : (d < 16)%N -> hex_value (hex_digit d) = Some d.
Proof.
  intros Hd. unfold hex_value, hex_digit.
  destruct (N.ltb_spec d 10).
  - rewrite (proj2 (N.leb_le 48 (48 + d))) by lia.
    rewrite (proj2 (N.leb_le (48 + d) 57)) by lia. simpl. f_equal. lia.
  - rewrite (proj2 (N.leb_gt (87 + d) 57)) by lia. rewrite andb_false_r.
    rewrite (proj2 (N.leb_le 97 (87 + d))) by lia.
    rewrite (proj2 (N.leb_le (87 + d) 102)) by lia. simpl. f_equal. lia.
Qed.

Lemma decode_hex4 n rest :
  (n < 65536)%N -> decode_uXXXX (hex4 n ++ rest) = Some (n, rest).
Proof.
  intros Hn. unfold hex4, decode_uXXXX. cbn [app].
  rewrite !hex_value_digit by (apply N.mod_lt; lia).
  do 2 f_equal. zify. Z.to_euclidean_division_equations. lia.
Qed.

Lemma lor_shiftl_add a b k :
  (b < 2 ^ k)%N -> N.lor (N.shiftl a k) b = (N.shiftl a k + b)%N.
Proof.
  intros Hb. rewrite N.add_nocarry_lxor.
  - symmetry. apply N.lxor_lor.
    apply N.bits_inj. intros i. rewrite N.land_spec, N.bits_0.
    destruct (N.lt_ge_cases i k) as [Hi|Hi].
    + by rewrite N.shiftl_spec_low.
    + rewrite <- (N.mod_small b (2 ^ k)) by done.
      rewrite N.mod_pow2_bits_high by done. apply andb_false_r.
  - apply N.bits_inj. intros i. rewrite N.land_spec, N.bits_0.
    destruct (N.lt_ge_cases i k) as [Hi|Hi].
    + by rewrite N.shiftl_spec_low.
    + rewrite <- (N.mod_small b (2 ^ k)) by done.
      rewrite N.mod_pow2_bits_high by done. apply andb_false_r.
Qed.

Lemma high_surrogate n :
  (n < 0x100000)%N ->
  N.lor 0xd800 (N.land (N.shiftr n 10) 0x3ff) = (0xd800 + n / 1024)%N.
Proof.
  intros Hn. change 0x3ff%N with (N.ones 10).
  rewrite N.land_ones, N.shiftr_div_pow2. change (2 ^ 10)%N with 1024%N.
  rewrite N.mod_small by (apply N.Div0.div_lt_upper_bound; lia).
  change 0xd800%N with (N.shiftl 54 10).
  apply lor_shiftl_add. change (2 ^ 10)%N with 1024%N.
  apply N.Div0.div_lt_upper_bound; lia.
Qed.

Lemma low_surrogate n :
  N.lor 0xdc00 (N.land n 0x3ff) = (0xdc00 + n mod 1024)%N.
Proof.
  change 0x3ff%N with (N.ones 10). rewrite N.land_ones.
  change 0xdc00%N with (N.shiftl 55 10).
  apply lor_shiftl_add. apply N.mod_lt. done.
Qed.

Lemma join_surrogates n :
  (n < 0x100000)%N ->
  (0x10000 + N.lor (N.shiftl (0xd800 + n / 1024 - 0xd800) 10)
                   (0xdc00 + n mod 1024 - 0xdc00))%N
  = (0x10000 + n)%N.
Proof.
  intros Hn.
  rewrite (N.add_comm 0xd800), (N.add_comm 0xdc00), !N.add_sub.
  rewrite lor_shiftl_add by (by apply N.mod_lt).
  rewrite N.shiftl_mul_pow2. change (2 ^ 10)%N with 1024%N.
  f_equal. zify. Z.to_euclidean_division_equations. lia.
Qed.

Lemma utf8_char_spec c :
  utf8_char c = true <-> ((c < 0xD800 \/ 0xDFFF < c) /\ c < 0x110000)%N.
Proof.
  unfold utf8_char, is_surrogate.
  rewrite andb_true_iff, negb_true_iff, andb_false_iff.
  rewrite N.leb_gt, N.leb_gt, N.ltb_lt. tauto.
Qed.

Lemma scanstring_u4 c fuel tail :
  (c < 0xd800 \/ 0xdbff < c)%N -> (c < 0x10000)%N ->
  scanstring (S fuel) ((lit "\u" ++ hex4 c) ++ tail)
  = obind (scanstring fuel tail) (fun r => Return (c :: fst r, snd r)).
Proof.
  intros Hc Hlt.
  change ((lit "\u" ++ hex4 c) ++ tail)
    with (92 :: 117 :: hex4 c ++ tail)%N.
  cbn [scanstring]. unfold backslash. n_tests.
  rewrite decode_hex4 by done.
  destruct Hc; n_tests; cbn [andb]; reflexivity.
Qed.

Lemma scanstring_pair n fuel tail :
  (n < 0x100000)%N ->
  scanstring (S fuel)
    ((lit "\u" ++ hex4 (0xd800 + n / 1024)
      ++ lit "\u" ++ hex4 (0xdc00 + n mod 1024)) ++ tail)
  = obind (scanstring fuel tail)
      (fun r => Return ((0x10000 + n)%N :: fst r, snd r)).
Proof.
  intros Hn.
  assert (n / 1024 < 1024)%N by (apply N.Div0.div_lt_upper_bound; lia).
  assert (n mod 1024 < 1024)%N by (by apply N.mod_lt).
  change ((lit "\u" ++ hex4 (0xd800 + n / 1024)
           ++ lit "\u" ++ hex4 (0xdc00 + n mod 1024)) ++ tail)
    with (92 :: 117 :: (hex4 (0xd800 + n / 1024)
          ++ 92 :: 117 :: hex4 (0xdc00 + n mod 1024)) ++ tail)%N.
  rewrite <- app_assoc.
  remember (n / 1024)%N as a eqn:Ha. remember (n mod 1024)%N as b eqn:Hb.
  cbn [scanstring]. unfold backslash. n_tests.
  rewrite decode_hex4 by lia. n_tests. cbn [andb app].
  rewrite decode_hex4 by lia. n_tests. cbn [andb].
  subst a b. by rewrite join_surrogates.
Qed.

(** Scanning what [escape_char] wrote gives the character back. *)
Lemma scanstring_escape c fuel tail :
  utf8_char c = true ->
  scanstring (S fuel) (escape_char c ++ tail)
  = obind (scanstring fuel tail) (fun r => Return (c :: fst r, snd r)).
Proof.
  intros Hc%utf8_char_spec. unfold escape_char.
  destruct (N.eqb_spec c backslash) as [->|H92]; [reflexivity|].
  destruct (N.eqb_spec c 34) as [->|H34]; [reflexivity|].
  destruct (N.eqb_spec c 8) as [->|H8]; [reflexivity|].
  destruct (N.eqb_spec c 12) as [->|H12]; [reflexivity|].
  destruct (N.eqb_spec c 10) as [->|H10]; [reflexivity|].
  destruct (N.eqb_spec c 13) as [->|H13]; [reflexivity|].
  destruct (N.eqb_spec c 9) as [->|H9]; [reflexivity|].
  unfold backslash in *.
  destruct (N.leb_spec 32 c) as [H32|H32];
    [destruct (N.leb_spec c 126) as [H126|H126]|]; cbn [andb].
  - cbn [app scanstring]. unfold backslash. n_tests. reflexivity.
  - destruct (N.ltb_spec c 0x10000) as [Hlt|Hge].
    + apply scanstring_u4; lia.
    + rewrite high_surrogate, low_surrogate by lia.
      rewrite scanstring_pair by lia.
      by replace (65536 + (c - 65536))%N with c by lia.
  - rewrite (proj2 (N.ltb_lt c 0x10000)) by lia.
    apply scanstring_u4; lia.
Qed.

Lemma scanstring_encode s fuel rest :
  utf8_encodable s = true -> length s < fuel ->
  scanstring fuel (flat_map escape_char s ++ dq ++ rest) = Return (s, rest).
Proof.
  revert fuel. induction s as [|c s IH]; intros fuel Hs Hf.
  - destruct fuel; [lia|]. reflexivity.
  - destruct fuel as [|fuel]; [simpl in Hf; lia|].
    apply andb_true_iff in Hs as [Hc Hs].
    cbn [flat_map]. rewrite <- app_assoc.
    rewrite scanstring_escape by done.
    rewrite IH by (simpl in Hf; done || lia). reflexivity.
Qed.

(** ** Decoding what [json.dumps] wrote *)

Lemma encode_str_app s rest :
  encode_str s ++ rest = 34%N :: flat_map escape_char s ++ dq ++ rest.
Proof. unfold encode_str. by rewrite <- !app_assoc. Qed.

Lemma escape_char_length c : 1 <= length (escape_char c).
Proof.
  unfold escape_char.
  repeat match goal with
         | |- context [if ?b then _ else _] => destruct b
         end; simpl; lia.
Qed.

Lemma flat_map_escape_length s : length s <= length (flat_map escape_char s).
Proof.
  induction s as [|c s IH]; [done|].
  cbn [flat_map]. rewrite length_app. pose proof (escape_char_length c).
  simpl. lia.
Qed.

Lemma encode_str_length s : length s + 2 <= length (encode_str s).
Proof.
  unfold encode_str. rewrite !length_app. pose proof (flat_map_escape_length s).
  simpl. lia.
Qed.

Lemma skip_ws_app ws s :
  forallb is_space ws = true -> skip_ws (ws ++ s) = skip_ws s.
Proof.
  induction ws as [|c ws IH]; [done|].
  intros [Hc Hws]%andb_true_iff. simpl. rewrite Hc. by apply IH.
Qed.

Lemma skip_ws_encode_str s rest :
  skip_ws (encode_str s ++ rest) = encode_str s ++ rest.
Proof. by rewrite encode_str_app. Qed.

Lemma scan_once_str s fuel rest :
  utf8_encodable s = true -> S (length s) < fuel ->
  scan_once fuel (encode_str s ++ rest) = Return (JStr s, rest).
Proof.
  intros Hs Hf. destruct fuel as [|fuel]; [lia|].
  rewrite encode_str_app. cbn [scan_once]. n_tests.
  by rewrite scanstring_encode by (done || lia).
Qed.

Lemma scan_elems_strs xs : forall fuel acc rest,
  xs <> [] -> forallb utf8_encodable xs = true ->
  length (join elem_sep (map encode_str xs)) < fuel ->
  scan_elems fuel (join elem_sep (map encode_str xs) ++ nl ++ lit "  ]" ++ rest)
    acc
  = Return (JArr (rev acc ++ map JStr xs), rest).
Proof.
  induction xs as [|x [|y ys] IH]; intros fuel acc rest Hne Hxs Hf; [done|..].
  - apply andb_true_iff in Hxs as [Hx _]. cbn [map join] in *.
    pose proof (encode_str_length x).
    destruct fuel as [|fuel]; [lia|].
    cbn [scan_elems]. rewrite scan_once_str by (done || lia).
    reflexivity.
  - apply andb_true_iff in Hxs as [Hx Hxs].
    change (join elem_sep (map encode_str (x :: y :: ys)))
      with (encode_str x ++ elem_sep
            ++ join elem_sep (map encode_str (y :: ys))) in *.
    rewrite !length_app in Hf. pose proof (encode_str_length x).
    destruct fuel as [|fuel]; [lia|].
    rewrite <- !app_assoc.
    cbn [scan_elems]. rewrite scan_once_str by (done || lia).
    cbn [obind fst snd].
    change (elem_sep ++ ?s) with (44%N :: (nl ++ lit "    ") ++ s).
    cbn [skip_ws is_space existsb N.eqb Pos.eqb orb].
    rewrite skip_ws_app by reflexivity.
    change (map encode_str (y :: ys))
      with (encode_str y :: map encode_str ys).
    assert (Hj : forall l, exists tl,
               join elem_sep (encode_str y :: l) = 34%N :: tl).
    { intros [|z l]; eexists; cbn [join]; rewrite ?encode_str_app;
        reflexivity. }
    destruct (Hj (map encode_str ys)) as [tl Htl].
    rewrite (app_assoc (join _ _)).
    replace (skip_ws ((join elem_sep (encode_str y :: map encode_str ys)
                       ++ nl) ++ lit "  ]" ++ rest))
      with ((join elem_sep (encode_str y :: map encode_str ys) ++ nl)
            ++ lit "  ]" ++ rest)
      by (by rewrite Htl).
    rewrite <- app_assoc.
    change (encode_str y :: map encode_str ys)
      with (map encode_str (y :: ys)).
    rewrite IH by (done || (simpl in *; lia)).
    cbn [rev map]. by rewrite <- app_assoc.
Qed.

Lemma array_text_length xs :
  xs <> [] ->
  length (array_text xs)
  = 10 + length (join elem_sep (map encode_str xs)).
Proof.
  destruct xs as [|x xs]; [done|]. intros _. unfold array_text.
  fold elem_sep. rewrite !length_app. lit_lengths. lia.
Qed.

Lemma join_encode_head x xs :
  exists tl, join elem_sep (map encode_str (x :: xs)) = 34%N :: tl.
Proof.
  destruct xs; eexists; cbn [map join]; rewrite ?encode_str_app; reflexivity.
Qed.

Lemma scan_once_array xs fuel rest :
  forallb utf8_encodable xs = true ->
  length (array_text xs) < fuel ->
  scan_once fuel (array_text xs ++ rest) = Return (JArr (map JStr xs), rest).
Proof.
  intros Hxs Hf. destruct xs as [|x xs].
  - destruct fuel as [|fuel]; [simpl in Hf; lia|]. reflexivity.
  - rewrite array_text_length in Hf by done.
    destruct fuel as [|fuel]; [lia|].
    unfold array_text. fold elem_sep. rewrite <- !app_assoc.
    change (lit "[" ++ ?s) with (91%N :: s).
    cbn [scan_once]. n_tests.
    rewrite (app_assoc nl), skip_ws_app by reflexivity.
    pose proof (scan_elems_strs (x :: xs) fuel [] rest) as Hscan.
    destruct (join_encode_head x xs) as [tl Htl].
    rewrite Htl in *. cbn [app skip_ws is_space existsb N.eqb Pos.eqb orb].
    apply Hscan; (done || lia).
Qed.

(** One member of an object and the comma after it. *)
Lemma scan_pairs_member k v val more fuel acc tl :
  utf8_encodable k = true -> length k < fuel ->
  skip_ws (val ++ lit "," ++ nl ++ lit "  " ++ 34%N :: more)
  = val ++ lit "," ++ nl ++ lit "  " ++ 34%N :: more ->
  scan_once fuel (val ++ lit "," ++ nl ++ lit "  " ++ 34%N :: more)
  = Return (v, lit "," ++ nl ++ lit "  " ++ 34%N :: more) ->
  scan_pairs fuel (34%N :: more) (items_set k v acc) = tl ->
  scan_pairs (S fuel)
    (encode_str k ++ lit ": " ++ val ++ lit "," ++ nl ++ lit "  "
     ++ 34%N :: more) acc
  = tl.
Proof.
  intros Hk Hf Hws Hval <-. rewrite encode_str_app.
  cbn [scan_pairs]. rewrite scanstring_encode by done.
  cbn [obind fst snd]. change (lit ": " ++ ?s) with (58%N :: 32%N :: s).
  cbn [skip_ws is_space existsb N.eqb Pos.eqb orb].
  rewrite Hws, Hval. reflexivity.
Qed.

(** The last member and the closing brace. *)
Lemma scan_pairs_last k v val fuel acc rest :
  utf8_encodable k = true -> length k < fuel ->
  skip_ws (val ++ nl ++ lit "}" ++ rest) = val ++ nl ++ lit "}" ++ rest ->
  scan_once fuel (val ++ nl ++ lit "}" ++ rest)
  = Return (v, nl ++ lit "}" ++ rest) ->
  scan_pairs (S fuel) (encode_str k ++ lit ": " ++ val ++ nl ++ lit "}" ++ rest)
    acc
  = Return (JObj (items_set k v acc), rest).
Proof.
  intros Hk Hf Hws Hval. rewrite encode_str_app.
  cbn [scan_pairs]. rewrite scanstring_encode by done.
  cbn [obind fst snd]. change (lit ": " ++ ?s) with (58%N :: 32%N :: s).
  cbn [skip_ws is_space existsb N.eqb Pos.eqb orb].
  rewrite Hws, Hval. reflexivity.
Qed.

Lemma json_text_length name t :
  length (json_text name t)
  = 82 + length (encode_str name) + length (encode_str (t_description t))
    + length (encode_str (t_instructions t)) + length (array_text (t_tools t))
    + length (encode_str (t_autonomy t)).
Proof.
  unfold json_text.
  generalize (encode_str name) (encode_str (t_description t))
    (encode_str (t_instructions t)) (array_text (t_tools t))
    (encode_str (t_autonomy t)).
  intros e1 e2 e3 e4 e5. rewrite !length_app. lit_lengths. lia.
Qed.

Lemma scan_pairs_json_text name t fuel :
  utf8_encodable name = true -> encodable_template t = true ->
  length (json_text name t) <= 6 + fuel ->
  scan_pairs (S (S (S (S (S fuel)))))
    (encode_str (lit "name") ++ lit ": " ++ encode_str name
     ++ lit "," ++ nl ++ lit "  "
     ++ encode_str (lit "description") ++ lit ": "
     ++ encode_str (t_description t) ++ lit "," ++ nl ++ lit "  "
     ++ encode_str (lit "instructions") ++ lit ": "
     ++ encode_str (t_instructions t) ++ lit "," ++ nl ++ lit "  "
     ++ encode_str (lit "tools") ++ lit ": "
     ++ array_text (t_tools t) ++ lit "," ++ nl ++ lit "  "
     ++ encode_str (lit "autonomy") ++ lit ": "
     ++ encode_str (t_autonomy t) ++ nl ++ lit "}" ++ []) []
  = Return (JObj [(lit "name", JStr name);
                  (lit "description", JStr (t_description t));
                  (lit "instructions", JStr (t_instructions t));
                  (lit "tools", JArr (map JStr (t_tools t)));
                  (lit "autonomy", JStr (t_autonomy t))], []).
Proof.
  intros Hn Ht HL. unfold encodable_template in Ht.
  apply andb_true_iff in Ht as [Ht Ha].
  apply andb_true_iff in Ht as [Ht Hts].
  apply andb_true_iff in Ht as [Hd Hi].
  rewrite json_text_length in HL.
  pose proof (encode_str_length name).
  pose proof (encode_str_length (t_description t)).
  pose proof (encode_str_length (t_instructions t)).
  pose proof (encode_str_length (t_autonomy t)).
  rewrite (encode_str_app (lit "description")),
    (encode_str_app (lit "instructions")), (encode_str_app (lit "tools")),
    (encode_str_app (lit "autonomy")).
  do 4 (eapply scan_pairs_member;
        [ reflexivity | simpl; lia
        | first [ apply skip_ws_encode_str | by destruct (t_tools _) ]
        | first [ apply scan_once_str; [done | lia]
                | apply scan_once_array; [done | lia] ]
        | rewrite <- encode_str_app ]).
  erewrite scan_pairs_last;
    [ reflexivity | reflexivity | simpl; lia | apply skip_ws_encode_str
    | apply scan_once_str; [done | lia] ].
Qed.

Lemma scan_once_open fuel body :
  scan_once (S fuel) (skip_ws (lit "{" ++ nl ++ lit "  " ++ 34%N :: body))
  = scan_pairs fuel (34%N :: body) [].
Proof. reflexivity. Qed.

(** [json.loads] gives back the five members, in order. *)
Lemma json_loads_json_text name t :
  utf8_encodable name = true -> encodable_template t = true ->
  json_loads (json_text name t)
  = Return (JObj [(lit "name", JStr name);
                  (lit "description", JStr (t_description t));
                  (lit "instructions", JStr (t_instructions t));
                  (lit "tools", JArr (map JStr (t_tools t)));
                  (lit "autonomy", JStr (t_autonomy t))]).
Proof.
  intros Hn Ht. unfold json_loads.
  pose proof (json_text_length name t) as HL.
  pose proof (scan_pairs_json_text name t (length (json_text name t) - 5)
                Hn Ht) as Hscan.
  remember (length (json_text name t)) as len eqn:E. clear E.
  destruct len as [|[|[|[|[|[|L]]]]]]; try lia.
  replace (S (S (S (S (S (S L))))) - 5) with (S L) in Hscan by lia.
  unfold json_text.
  rewrite (encode_str_app (lit "name")), scan_once_open.
  rewrite <- encode_str_app, <- (app_nil_r (lit "}")).
  rewrite Hscan by lia. reflexivity.
Qed.
(** ** Name resolution and the two file-system calls *)

Lemma world_eta w : World (heap w) (fs w) (cwd w) (stdout w) = w.
Proof. by destruct w. Qed.

Lemma set_fs_same w : set_fs (fs w) w = w.
Proof. by destruct w. Qed.

Lemma node_at_insert_ne (f : gmap (list str) node) t q x :
  q <> t -> node_at (<[t := x]> f) q = node_at f q.
Proof.
  intros Hne. destruct q as [|c q]; [done|]. simpl.
  by rewrite lookup_insert_ne.
Qed.

Lemma node_at_insert_eq (f : gmap (list str) node) t x :
  t <> [] -> node_at (<[t := x]> f) t = Some x.
Proof.
  intros Hne. destruct t as [|c t]; [done|]. simpl.
  by rewrite lookup_insert_eq.
Qed.

Lemma walk_app f cur a b :
  walk f cur (a ++ b)
  = match walk f cur a with
    | inl e => inl e
    | inr c => walk f c b
    end.
Proof.
  revert cur. induction a as [|c a IH]; intros cur; [done|].
  simpl. destruct (node_at f cur) as [[|]|]; try done.
  destruct (NAME_MAX <? fs_bytes c); by rewrite ?IH.
Qed.

Lemma dirs_kept_refl f : dirs_kept f f.
Proof. by intros q. Qed.

Lemma dirs_kept_trans f g h : dirs_kept f g -> dirs_kept g h -> dirs_kept f h.
Proof. intros H1 H2 q Hq. auto. Qed.

Lemma dirs_kept_insert f t x :
  node_at f t <> Some Dir -> dirs_kept f (<[t := x]> f).
Proof.
  intros Ht q Hq. rewrite node_at_insert_ne; [done|]. congruence.
Qed.

Lemma dirs_kept_insert_dir f t : dirs_kept f (<[t := Dir]> f).
Proof.
  intros q Hq. destruct (decide (q = t)) as [->|Hne].
  - destruct t; [done|]. by apply node_at_insert_eq.
  - by rewrite node_at_insert_ne.
Qed.

Lemma walk_mono f f' cur comps t :
  dirs_kept f f' -> walk f cur comps = inr t -> walk f' cur comps = inr t.
Proof.
  intros Hk. revert cur. induction comps as [|c comps IH]; intros cur; [done|].
  simpl. destruct (node_at f cur) as [[|]|] eqn:E; try discriminate.
  rewrite (Hk _ E). destruct (NAME_MAX <? fs_bytes c); [done|]. apply IH.
Qed.

(** A path name under [PATH_MAX] is looked up component by component. *)
Lemma resolve_short w p :
  short_path p = true ->
  resolve w p = walk (fs w) (start_of w (anchored p)) (os_comps p).
Proof.
  unfold short_path, resolve. intros H%Nat.ltb_lt.
  by rewrite (proj2 (Nat.leb_gt _ _) H).
Qed.

Lemma resolve_inr w p t :
  resolve w p = inr t ->
  short_path p = true
  /\ walk (fs w) (start_of w (anchored p)) (os_comps p) = inr t.
Proof.
  unfold short_path, resolve.
  destruct (Nat.leb_spec PATH_MAX (fs_bytes (path_str p))) as [|Hlt];
    [done|].
  intros Hw. split; [by apply Nat.ltb_lt|done].
Qed.

Lemma resolve_mono w w' p t :
  dirs_kept (fs w) (fs w') -> cwd w' = cwd w ->
  resolve w p = inr t -> resolve w' p = inr t.
Proof.
  intros Hk Hc [Hs Hw]%resolve_inr. rewrite (resolve_short _ _ Hs).
  unfold start_of in *. rewrite Hc. by eapply walk_mono.
Qed.

(** A path whose last component is a proper name resolves to an entry of
    that name. *)
Lemma resolve_last w p init c t :
  parts p = init ++ [c] -> c <> dot -> c <> dotdot ->
  resolve w p = inr t -> exists cur, t = cur ++ [c].
Proof.
  intros Hp Hdot Hdd [_ Hw]%resolve_inr. revert Hw.
  unfold os_comps. rewrite Hp.
  assert (Hc : match init ++ [c] with [] => [dot] | _ => init ++ [c] end
               = init ++ [c]) by (by destruct init).
  rewrite Hc.
  replace (if rooted (anchored p) then init ++ [c] else init ++ [c])
    with (init ++ [c]) by (by destruct (rooted (anchored p))).
  rewrite walk_app.
  destruct (walk _ _ init) as [e|cur]; [discriminate|].
  simpl. destruct (node_at _ cur) as [[|]|]; try discriminate.
  destruct (NAME_MAX <? fs_bytes c); [discriminate|].
  intros [= <-]. exists cur. unfold step, str_eqb.
  by rewrite !bool_decide_eq_false_2.
Qed.

(** What a successful write did. *)
Lemma write_text_Return p data w w' :
  write_text p data w = (Return tt, w') ->
  exists t, fsencode p w = (Return tt, w)
            /\ resolve w p = inr t
            /\ node_at (fs w) t <> Some Dir
            /\ utf8_encodable data = true
            /\ w' = set_fs (<[t := File data]> (fs w)) w.
Proof.
  unfold write_text. intros (u & w1 & Henc & H)%bind_Return_inv.
  pose proof (fsencode_state p w) as Hw. rewrite Henc in Hw. simpl in Hw.
  subst w1. destruct u.
  destruct (resolve w p) as [e|t]; [discriminate|].
  exists t. destruct (node_at (fs w) t) as [[|]|] eqn:E; try discriminate;
    destruct (utf8_encodable data); try discriminate;
    injection H as <-; rewrite ?E; repeat split; congruence.
Qed.

Lemma write_text_eq p data w t :
  fsencode p w = (Return tt, w) -> resolve w p = inr t ->
  node_at (fs w) t <> Some Dir -> utf8_encodable data = true ->
  write_text p data w = (Return tt, set_fs (<[t := File data]> (fs w)) w).
Proof.
  intros Henc Hres Hnode Hdata. unfold write_text.
  rewrite bind_eq, Henc, Hres, Hdata.
  by destruct (node_at (fs w) t) as [[|]|].
Qed.

(** The file just written can be read back. *)
Lemma read_after_write w p t data :
  resolve w p = inr t -> node_at (fs w) t <> Some Dir ->
  let w' := set_fs (<[t := File data]> (fs w)) w in
  resolve w' p = inr t /\ node_at (fs w') t = Some (File data).
Proof.
  intros Hres Hnode w'. split.
  - apply (resolve_mono w w' p t); [|done|done].
    by apply dirs_kept_insert.
  - apply node_at_insert_eq. by intros ->.
Qed.

Lemma print_Return s w w' :
  print s w = (Return tt, w') ->
  utf8_encodable s = true /\ w' = set_stdout (stdout w ++ [s]) w.
Proof.
  unfold print. destruct (utf8_encodable s); [|discriminate].
  by intros [= <-].
Qed.

Lemma read_file_ext w w' p :
  fs w' = fs w -> cwd w' = cwd w -> read_file w' p = read_file w p.
Proof. unfold read_file, resolve. by intros -> ->. Qed.

(** ** The paths of the two files *)

Lemma split_on_nosep sep ext :
  Forall (fun c => c <> sep) ext -> split_on sep ext = [ext].
Proof.
  induction 1 as [|c ext Hc _ IH]; [done|].
  simpl. rewrite (proj2 (N.eqb_neq c sep) Hc). by rewrite IH.
Qed.

Lemma split_on_snoc sep s :
  exists init tl,
    split_on sep s = init ++ [tl]
    /\ forall ext, Forall (fun c => c <> sep) ext ->
                   split_on sep (s ++ ext) = init ++ [tl ++ ext].
Proof.
  induction s as [|c s (init & tl & Hs & Hext)].
  - exists [], []. split; [done|]. intros ext Hx. by apply split_on_nosep.
  - simpl. destruct (N.eqb_spec c sep) as [->|Hne].
    + exists ([] :: init), tl. split; [by rewrite Hs|].
      intros ext Hx. by rewrite Hext.
    + destruct init as [|x init].
      * exists [], (c :: tl). split; [by rewrite Hs|].
        intros ext Hx. by rewrite Hext.
      * exists ((c :: x) :: init), tl. split; [by rewrite Hs|].
        intros ext Hx. by rewrite Hext.
Qed.

Lemma is_absolute_app n ext :
  Forall (fun c => c <> slash) ext -> ext <> [] ->
  is_absolute (n ++ ext) = is_absolute n.
Proof.
  intros Hx Hne. destruct n as [|c n]; [|done].
  destruct Hx as [|c ext Hc _]; [done|]. simpl.
  by apply N.eqb_neq.
Qed.

Lemma anchor_of_app n ext :
  Forall (fun c => c <> slash) ext -> ext <> [] ->
  anchor_of (n ++ ext) = anchor_of n.
Proof.
  intros Hx Hne. destruct Hx as [|x ext Hx _]; [done|].
  apply N.eqb_neq in Hx.
  destruct n as [|c1 [|c2 [|c3 n]]]; simpl; rewrite ?Hx; try done;
    repeat match goal with
           | |- context [if (?c =? slash)%N then _ else _] =>
               destruct (c =? slash)%N; rewrite ?Hx; try done
           end.
Qed.

(** The file for [n] next to directory [d]: the same components for
    every extension, up to the last, which ends in the extension. *)
Lemma file_parts d n :
  exists anch init tl,
    forall ext, Forall (fun c => c <> slash) ext -> 2 < length ext ->
                joinpath d (n ++ ext) = MkPath anch (init ++ [tl ++ ext]).
Proof.
  destruct (split_on_snoc slash n) as (raw & tl & _ & Hsplit).
  set (keep := filter (fun c : str => c <> [] /\ c <> dot) raw).
  exists (if is_absolute n then anchor_of n else anchored d),
         (if is_absolute n then keep else parts d ++ keep), tl.
  intros ext Hx Hlen.
  assert (Hp : parse_parts (n ++ ext) = keep ++ [tl ++ ext]).
  { unfold parse_parts. rewrite Hsplit by done. rewrite filter_app.
    f_equal. rewrite filter_cons_True; [done|].
    split; intros E%(f_equal length); rewrite length_app in E;
      simpl in E; lia. }
  unfold joinpath, Path.
  rewrite is_absolute_app, anchor_of_app
    by (done || (intros ->; simpl in Hlen; lia)).
  rewrite Hp. destruct (is_absolute n); [done|]. by rewrite <- app_assoc.
Qed.

Lemma ext_md_ok : Forall (fun c => c <> slash) ext_md /\ 2 < length ext_md.
Proof. split; [|simpl; lia]. repeat constructor; by vm_compute. Qed.

Lemma ext_json_ok :
  Forall (fun c => c <> slash) ext_json /\ 2 < length ext_json.
Proof. split; [|simpl; lia]. repeat constructor; by vm_compute. Qed.

(** The two files of a run never resolve to the same entry. *)
Lemma files_differ n out w w' t1 t2 :
  resolve w (agent_file n out) = inr t1 ->
  resolve w' (json_file n out) = inr t2 ->
  t1 <> t2.
Proof.
  unfold agent_file, json_file.
  destruct (file_parts (agents_dir out) n) as (anch & init & tl & Hparts).
  destruct ext_md_ok as [Hm1 Hm2]. destruct ext_json_ok as [Hj1 Hj2].
  fold ext_md ext_json.
  rewrite (Hparts ext_md), (Hparts ext_json) by done.
  intros H1 H2.
  eapply (resolve_last _ _ init (tl ++ ext_md)) in H1 as [c1 ->];
    [|done|..].
  2,3: intros E%(f_equal length); rewrite length_app in E; simpl in E; lia.
  eapply (resolve_last _ _ init (tl ++ ext_json)) in H2 as [c2 ->];
    [|done|..].
  2,3: intros E%(f_equal length); rewrite length_app in E; simpl in E; lia.
  intros [_ [=]%app_inv_head]%app_inj_tail.
Qed.
(** ** Making directories *)

Lemma fsencode_ok p w : path_ok p = true -> fsencode p w = (Return tt, w).
Proof.
  unfold path_ok, fsencode. intros [H1 H2]%andb_true_iff.
  rewrite H1. apply negb_true_iff in H2. by rewrite H2.
Qed.

Lemma fsencode_Return p w u w' :
  fsencode p w = (Return u, w') -> path_ok p = true.
Proof.
  unfold path_ok, fsencode.
  destruct (forallb _ _); [|discriminate].
  by destruct (existsb _ _).
Qed.

Lemma os_mkdir_Return p w w' :
  os_mkdir p w = (Return tt, w') ->
  path_ok p = true
  /\ exists t, resolve w p = inr t /\ node_at (fs w) t = None
               /\ w' = set_fs (<[t := Dir]> (fs w)) w.
Proof.
  unfold os_mkdir. intros (u & w1 & Henc & H)%bind_Return_inv.
  pose proof (fsencode_state p w) as Hw. rewrite Henc in Hw. simpl in Hw.
  subst w1. split; [by eapply fsencode_Return|].
  destruct (resolve w p) as [e|t]; [discriminate|]. exists t.
  destruct (node_at (fs w) t); [discriminate|]. by injection H as <-.
Qed.

Lemma os_mkdir_made p w w' :
  os_mkdir p w = (Return tt, w') -> names_dir w' p.
Proof.
  intros (Hok & t & Hres & Hnone & ->)%os_mkdir_Return.
  split; [done|]. exists t. split.
  - apply (resolve_mono w); [apply dirs_kept_insert_dir|done|done].
  - apply node_at_insert_eq. intros ->. discriminate.
Qed.

Lemma is_dir_true p w w' :
  is_dir p w = (Return true, w') -> w' = w /\ names_dir w p.
Proof.
  unfold is_dir, names_dir.
  destruct (fsencode p w) as [[u| |] w1] eqn:Henc; try (by intros [=]).
  apply fsencode_Return in Henc.
  destruct (resolve w p) as [e|t];
    [destruct (ignore_error e); by intros [=]|].
  destruct (node_at (fs w) t) as [[|]|] eqn:E; intros [= <-]; eauto.
Qed.

Lemma is_dir_eq p w : names_dir w p -> is_dir p w = (Return true, w).
Proof.
  intros (Hok & t & Hres & Hnode). unfold is_dir.
  by rewrite (fsencode_ok _ _ Hok), Hres, Hnode.
Qed.

Lemma mkdir_oserror_Return p ok e w w' :
  mkdir_oserror p ok e w = (Return tt, w') -> w' = w /\ names_dir w p.
Proof.
  unfold mkdir_oserror. intros (d & w1 & Hd & H)%bind_Return_inv.
  destruct d; [|by rewrite orb_true_r in H].
  apply is_dir_true in Hd as [-> Hn].
  destruct ok; simpl in H; [|discriminate]. by injection H as <-.
Qed.

Lemma mkdir_flat_made p ok w w' :
  mkdir_flat p ok w = (Return tt, w') -> names_dir w' p.
Proof.
  unfold mkdir_flat, try_except.
  destruct (os_mkdir p w) as [[[]|e|] w1] eqn:E.
  - intros [= <-]. by eapply os_mkdir_made.
  - destruct (_ && _); [|discriminate].
    by intros [-> ?]%mkdir_oserror_Return.
  - discriminate.
Qed.

Lemma mkdir_parents_made room anch rparts ok w w' :
  mkdir_parents room anch rparts ok w = (Return tt, w') ->
  names_dir w' (MkPath anch (rev rparts)).
Proof.
  destruct room as [|room]; [discriminate|].
  destruct rparts as [|c rparent]; cbn [mkdir_parents]; unfold try_except;
    (destruct (os_mkdir _ w) as [[[]|e|] w1] eqn:E;
     [ intros [= <-]; by eapply os_mkdir_made | | discriminate ]);
    (destruct (is_OSError e); [|discriminate]);
    destruct (is_FileNotFoundError e); try discriminate;
    try (by intros [-> ?]%mkdir_oserror_Return).
  intros (u & w2 & _ & H)%bind_Return_inv. by eapply mkdir_flat_made.
Qed.

Lemma path_eta p : MkPath (anchored p) (parts p) = p.
Proof. by destruct p. Qed.

Lemma mkdir_made p w w' :
  mkdir p true true w = (Return tt, w') -> names_dir w' p.
Proof.
  unfold mkdir. intros H%mkdir_parents_made.
  by rewrite rev_involutive, path_eta in H.
Qed.

(** A directory that is there already is left as it is. *)
Lemma mkdir_existing p w :
  names_dir w p -> mkdir p true true w = (Return tt, w).
Proof.
  intros Hn. pose proof Hn as (Hok & t & Hres & Hnode).
  assert (Hos : os_mkdir p w = (Raise FileExistsError, w)).
  { unfold os_mkdir. by rewrite bind_eq, (fsencode_ok _ _ Hok), Hres, Hnode. }
  unfold mkdir. change mkdir_room with (S (Nat.pred mkdir_room)).
  destruct (rev (parts p)) as [|c rparent] eqn:Hrev;
    cbn [mkdir_parents]; rewrite <- Hrev, rev_involutive, path_eta;
    unfold try_except; rewrite Hos; cbn [is_OSError is_FileNotFoundError];
    unfold mkdir_oserror; by rewrite bind_eq, (is_dir_eq _ _ Hn).
Qed.

(** ** Every directory is kept *)

Lemma keeps_dirs_same {A} (m : M A) :
  (forall w, snd (m w) = w) -> keeps_dirs m.
Proof. intros H w. rewrite H. apply dirs_kept_refl. Qed.

Lemma keeps_dirs_bind {A B} (m : M A) (f : A -> M B) :
  keeps_dirs m -> (forall a, keeps_dirs (f a)) -> keeps_dirs (bind m f).
Proof.
  intros Hm Hf w. unfold bind. specialize (Hm w).
  destruct (m w) as [[a|e|] w1]; simpl in *; try done.
  eapply dirs_kept_trans; [exact Hm | apply Hf].
Qed.

Lemma keeps_dirs_try_except {A} (m : M A) handles handler :
  keeps_dirs m -> (forall e, keeps_dirs (handler e)) ->
  keeps_dirs (try_except m handles handler).
Proof.
  intros Hm Hh w. unfold try_except. specialize (Hm w).
  destruct (m w) as [[a|e|] w1]; simpl in *; try done.
  destruct (handles e); [|done].
  eapply dirs_kept_trans; [exact Hm | apply Hh].
Qed.

Lemma keeps_dirs_os_mkdir p : keeps_dirs (os_mkdir p).
Proof.
  unfold os_mkdir. apply keeps_dirs_bind.
  - apply keeps_dirs_same, fsencode_state.
  - intros _ w. destruct (resolve w p); [apply dirs_kept_refl|].
    destruct (node_at _ _); [apply dirs_kept_refl|].
    apply dirs_kept_insert_dir.
Qed.

Lemma keeps_dirs_mkdir_oserror p ok e : keeps_dirs (mkdir_oserror p ok e).
Proof.
  unfold mkdir_oserror. apply keeps_dirs_bind.
  - apply keeps_dirs_same, is_dir_state.
  - intros d. by destruct (_ || _); apply keeps_dirs_same.
Qed.

Lemma keeps_dirs_mkdir_flat p ok : keeps_dirs (mkdir_flat p ok).
Proof.
  apply keeps_dirs_try_except;
    auto using keeps_dirs_os_mkdir, keeps_dirs_mkdir_oserror.
Qed.

Lemma keeps_dirs_mkdir_parents room anch rparts ok :
  keeps_dirs (mkdir_parents room anch rparts ok).
Proof.
  revert rparts ok. induction room as [|room IH]; intros rparts ok;
    [by apply keeps_dirs_same|].
  cbn [mkdir_parents].
  apply keeps_dirs_try_except; [apply keeps_dirs_os_mkdir|].
  intros e. destruct (is_FileNotFoundError e);
    [|apply keeps_dirs_mkdir_oserror].
  destruct rparts as [|c rparent]; [by apply keeps_dirs_same|].
  apply keeps_dirs_bind; auto using keeps_dirs_mkdir_flat.
Qed.

Lemma keeps_dirs_mkdir p parents ok : keeps_dirs (mkdir p parents ok).
Proof.
  unfold mkdir.
  destruct parents;
    auto using keeps_dirs_mkdir_parents, keeps_dirs_mkdir_flat.
Qed.

Lemma names_dir_mono w w' p :
  dirs_kept (fs w) (fs w') -> cwd w' = cwd w ->
  names_dir w p -> names_dir w' p.
Proof.
  intros Hk Hc (Hok & t & Hres & Hnode). split; [done|]. exists t.
  split; [by eapply resolve_mono | by apply Hk].
Qed.
(** ** A successful run *)

Lemma print_eq s w :
  utf8_encodable s = true ->
  print s w = (Return tt, set_stdout (stdout w ++ [s]) w).
Proof. unfold print. by intros ->. Qed.

Lemma print_all_Return lines w w' :
  print_all lines w = (Return tt, w') ->
  forallb utf8_encodable lines = true
  /\ w' = set_stdout (stdout w ++ lines) w.
Proof.
  revert w. induction lines as [|l [|l' rest] IH]; intros w.
  - intros [= <-]. by rewrite app_nil_r, <- (world_eta w) at 1.
  - intros [Hl ->]%print_Return. cbn [forallb]. by rewrite Hl.
  - cbn [print_all]. intros ([] & w1 & [Hl ->]%print_Return & H)%bind_Return_inv.
    apply IH in H as [Hrest ->]. split.
    + cbn [forallb] in *. by rewrite Hl, Hrest.
    + unfold set_stdout. simpl. by rewrite <- app_assoc.
Qed.

Lemma print_all_eq lines w :
  forallb utf8_encodable lines = true ->
  print_all lines w = (Return tt, set_stdout (stdout w ++ lines) w).
Proof.
  revert w. induction lines as [|l [|l' rest] IH]; intros w Hl.
  - unfold set_stdout. by rewrite app_nil_r, world_eta.
  - cbn [forallb] in Hl. rewrite andb_true_r in Hl. by apply print_eq.
  - apply andb_true_iff in Hl as [Hl Hrest].
    cbn [print_all]. rewrite bind_eq, (print_eq _ _ Hl), (IH _ Hrest).
    unfold set_stdout. simpl. by rewrite <- app_assoc.
Qed.

Lemma holds_read w p data : holds w p data -> read_file w p = Some data.
Proof. intros (_ & t & Hres & Hnode). unfold read_file. by rewrite Hres, Hnode. Qed.

Lemma write_text_holds p data w w' :
  write_text p data w = (Return tt, w') ->
  holds w' p data /\ utf8_encodable data = true
  /\ dirs_kept (fs w) (fs w') /\ heap w' = heap w /\ cwd w' = cwd w
  /\ forall q other,
       holds w q other ->
       (forall tq t, resolve w q = inr tq -> resolve w p = inr t -> tq <> t) ->
       holds w' q other.
Proof.
  intros (t & Henc & Hres & Hnode & Hdata & ->)%write_text_Return.
  destruct (read_after_write w p t data Hres Hnode) as [Hres' Hnode'].
  assert (Hk : dirs_kept (fs w) (<[t := File data]> (fs w)))
    by (by apply dirs_kept_insert).
  split; [|split; [done|split; [done|split; [done|split; [done|]]]]].
  - split; [by eapply fsencode_Return|]. eauto.
  - intros q other (Hok & tq & Hq & Hnq) Hne. split; [done|]. exists tq. split.
    + by apply (resolve_mono w).
    + simpl. rewrite node_at_insert_ne; [done|]. by eapply Hne.
Qed.

Lemma holds_ext w w' p data :
  fs w' = fs w -> cwd w' = cwd w -> holds w p data -> holds w' p data.
Proof.
  intros Hf Hc (Hok & t & Hres & Hnode). split; [done|]. exists t.
  unfold resolve in *. by rewrite Hf, Hc.
Qed.

Lemma names_dir_ext w w' p :
  fs w' = fs w -> cwd w' = cwd w -> names_dir w p -> names_dir w' p.
Proof.
  intros Hf Hc (Hok & t & Hres & Hnode). split; [done|]. exists t.
  unfold resolve in *. by rewrite Hf, Hc.
Qed.

Lemma emit_Return n ty out md js w w' :
  emit n ty out md js w = (Return tt, w') -> emitted n ty out md js w w'.
Proof.
  unfold emit.
  intros ([] & w1 & H1 & H)%bind_Return_inv.
  apply bind_Return_inv in H as ([] & w2 & H2 & H).
  apply bind_Return_inv in H as ([] & w3 & H3 & H).
  apply bind_Return_inv in H as ([] & w4 & H4 & H).
  apply print_all_Return in H as [Hlines ->].
  pose proof (fs_only_mkdir (Path out) true true w) as (Hh1 & Hc1 & Hs1).
  pose proof (keeps_dirs_mkdir (Path out) true true w) as Hk1.
  rewrite H1 in Hh1, Hc1, Hs1, Hk1. simpl in Hh1, Hc1, Hs1, Hk1.
  pose proof (fs_only_mkdir (agents_dir out) true true w1)
    as (Hh2 & Hc2 & Hs2).
  pose proof (keeps_dirs_mkdir (agents_dir out) true true w1) as Hk2.
  rewrite H2 in Hh2, Hc2, Hs2, Hk2. simpl in Hh2, Hc2, Hs2, Hk2.
  apply mkdir_made in H1, H2.
  pose proof (fs_only_write_text (agent_file n out) md w2) as (_ & _ & Hs3).
  rewrite H3 in Hs3. simpl in Hs3.
  pose proof (fs_only_write_text (json_file n out) js w3) as (_ & _ & Hs4).
  rewrite H4 in Hs4. simpl in Hs4.
  apply write_text_holds in H3 as (Hmd & Hmd_ok & Hk3 & Hh3 & Hc3 & _).
  pose proof Hmd as (_ & t1 & Hres1 & Hnode1).
  apply write_text_holds in H4 as (Hjs & Hjs_ok & Hk4 & Hh4 & Hc4 & Hother).
  assert (Hmd4 : holds w4 (agent_file n out) md).
  { apply Hother; [done|]. intros tq t2 Hq Hres2. by eapply files_differ. }
  clear Hother. split; simpl; try done; try congruence.
  - eauto using dirs_kept_trans.
  - eapply names_dir_mono; [| |exact H1]; [eauto using dirs_kept_trans|].
    simpl. congruence.
  - eapply names_dir_mono; [| |exact H2]; [eauto using dirs_kept_trans|].
    simpl. congruence.
Qed.

Lemma holds_rewrite p data w :
  holds w p data -> utf8_encodable data = true ->
  write_text p data w = (Return tt, w).
Proof.
  intros (Hok & t & Hres & Hnode) Hdata.
  rewrite (write_text_eq p data w t); try done.
  - f_equal. rewrite insert_id by (by destruct t). apply set_fs_same.
  - by apply fsencode_ok.
  - by rewrite Hnode.
Qed.

(** Running [emit] again where it has succeeded changes no file. *)
Lemma emit_again n ty out md js w w' w2 :
  emitted n ty out md js w w' ->
  fs w2 = fs w' -> cwd w2 = cwd w' ->
  emit n ty out md js w2
  = (Return tt, set_stdout (stdout w2 ++ status_lines n ty out) w2).
Proof.
  intros E Hf Hc. unfold emit.
  rewrite bind_eq, mkdir_existing
    by (eapply names_dir_ext; [| |apply (em_out _ _ _ _ _ _ _ E)]; done).
  rewrite bind_eq, mkdir_existing
    by (eapply names_dir_ext; [| |apply (em_agents _ _ _ _ _ _ _ E)]; done).
  rewrite bind_eq, holds_rewrite;
    [ | eapply holds_ext; [| |apply (em_md _ _ _ _ _ _ _ E)]; done
      | apply (em_md_ok _ _ _ _ _ _ _ E) ].
  rewrite bind_eq, holds_rewrite;
    [ | eapply holds_ext; [| |apply (em_json _ _ _ _ _ _ _ E)]; done
      | apply (em_json_ok _ _ _ _ _ _ _ E) ].
  apply print_all_eq, (em_lines _ _ _ _ _ _ _ E).
Qed.
(** ** Directories that can be made

    Along a path of names the file system takes, [..] among them, where
    no file is in the way, [mkdir] with [parents] makes every directory
    that is missing. *)

Lemma step_plain cur c : c <> dot -> c <> dotdot -> step cur c = cur ++ [c].
Proof.
  intros H1 H2. unfold step, str_eqb. by rewrite !bool_decide_eq_false_2.
Qed.

Lemma place_snoc start pre c :
  place start (pre ++ [c]) = step (place start pre) c.
Proof. unfold place. by rewrite fold_left_app. Qed.

(** Without [.] and [..] the place is the path itself. *)
Lemma place_names start comps :
  Forall (fun c => c <> dot /\ c <> dotdot) comps ->
  place start comps = start ++ comps.
Proof.
  intros H. revert start. induction H as [|c comps [Hd Hdd] _ IH]; intros start.
  - by rewrite app_nil_r.
  - change (place start (c :: comps)) with (place (step start c) comps).
    rewrite IH, step_plain by done. by rewrite <- app_assoc.
Qed.

Lemma walk_dirs f start comps :
  plain comps ->
  (forall k, k < length comps ->
             node_at f (place start (take k comps)) = Some Dir) ->
  walk f start comps = inr (place start comps).
Proof.
  revert start. induction comps as [|c comps IH]; intros start Hp Hd; [done|].
  apply Forall_cons in Hp as [Hlen Hp]. simpl.
  pose proof (Hd 0 ltac:(simpl; lia)) as H0. simpl in H0.
  rewrite H0, (proj2 (Nat.ltb_ge _ _) Hlen).
  apply IH; [done|]. intros k Hk. apply (Hd (S k)). simpl. lia.
Qed.

Lemma walk_inr f start comps t :
  walk f start comps = inr t ->
  t = place start comps
  /\ plain comps
  /\ forall k, k < length comps ->
               node_at f (place start (take k comps)) = Some Dir.
Proof.
  revert start. induction comps as [|c comps IH]; intros start.
  - intros [= <-]. split; [done|]. split; [constructor|]. simpl. lia.
  - simpl. destruct (node_at f start) as [[|]|] eqn:E; try discriminate.
    destruct (Nat.ltb_spec NAME_MAX (fs_bytes c)) as [|Hlen]; [discriminate|].
    intros (-> & Hp & Hd)%IH. split; [done|]. split; [by constructor|].
    intros [|k] Hk; simpl; [done|]. apply Hd. simpl in Hk. lia.
Qed.

Lemma walk_inl f start comps e :
  plain comps ->
  (forall k, k <= length comps ->
             is_file (node_at f (place start (take k comps))) = false) ->
  walk f start comps = inl e -> e = FileNotFoundError.
Proof.
  revert start. induction comps as [|c comps IH]; intros start Hp Hf;
    [discriminate|].
  apply Forall_cons in Hp as [Hlen Hp]. simpl.
  pose proof (Hf 0 ltac:(lia)) as H0. simpl in H0.
  destruct (node_at f start) as [[|]|] eqn:E; try discriminate.
  - rewrite (proj2 (Nat.ltb_ge _ _) Hlen). apply IH; [done|].
    intros k Hk. apply (Hf (S k)). simpl. lia.
  - by intros [= <-].
Qed.

Lemma resolve_nonempty w anch comps :
  comps <> [] -> short_path (MkPath anch comps) = true ->
  resolve w (MkPath anch comps) = walk (fs w) (start_of w anch) comps.
Proof.
  intros Hne Hs. rewrite (resolve_short _ _ Hs). unfold os_comps. simpl.
  destruct (rooted anch); [done|]. by destruct comps.
Qed.

Lemma fs_bytes_app a b : fs_bytes (a ++ b) = fs_bytes a + fs_bytes b.
Proof. induction a as [|c a IH]; [done|]. simpl. rewrite IH. lia. Qed.

Lemma join_snoc sep xs x :
  xs <> [] -> join sep (xs ++ [x]) = join sep xs ++ sep ++ x.
Proof.
  induction xs as [|y [|z xs] IH]; [done|done|]. intros _.
  change (join sep ((y :: z :: xs) ++ [x]))
    with (y ++ sep ++ join sep ((z :: xs) ++ [x])).
  rewrite IH by done.
  change (join sep (y :: z :: xs)) with (y ++ sep ++ join sep (z :: xs)).
  by rewrite <- !app_assoc.
Qed.

Lemma path_str_snoc anch pre c :
  pre <> [] ->
  path_str (MkPath anch (pre ++ [c]))
  = path_str (MkPath anch pre) ++ [slash] ++ c.
Proof.
  intros Hne. unfold path_str. cbn [anchored parts].
  rewrite (join_snoc _ _ _ Hne).
  destruct anch; [|done|done]. by destruct pre as [|x [|y pre]].
Qed.

(** The paths above a path that is short enough are short enough. *)
Lemma short_path_init anch pre more :
  short_path (MkPath anch (pre ++ more)) = true ->
  short_path (MkPath anch pre) = true.
Proof.
  induction more as [|c more IH] using rev_ind; [by rewrite app_nil_r|].
  rewrite app_assoc. intros H. apply IH. clear IH. revert H.
  generalize (pre ++ more). intros comps. unfold short_path.
  intros H%Nat.ltb_lt. apply Nat.ltb_lt.
  destruct comps as [|x comps].
  - unfold PATH_MAX. by destruct anch; vm_compute; lia.
  - rewrite path_str_snoc, fs_bytes_app in H by done. lia.
Qed.

Lemma take_snoc_le {A} (pre : list A) c k :
  k <= length pre -> take k (pre ++ [c]) = take k pre.
Proof. intros Hk. by rewrite take_app_le. Qed.

(** With every directory above it in place, the last directory of a path
    is made, or found to be there. *)
Lemma mkdir_last room anch pre c w :
  let p := MkPath anch (pre ++ [c]) in
  let target := place (start_of w anch) (pre ++ [c]) in
  path_ok p = true -> short_path p = true -> plain (pre ++ [c]) ->
  (forall k, k <= length pre ->
             node_at (fs w) (place (start_of w anch) (take k pre)) = Some Dir) ->
  is_file (node_at (fs w) target) = false ->
  exists w',
    mkdir_flat p true w = (Return tt, w')
    /\ mkdir_parents (S room) anch (c :: rev pre) true w = (Return tt, w')
    /\ dir_added target w w'.
Proof.
  intros p target Hok Hshort Hp Hd Hfile.
  assert (Hres : resolve w p = inr target).
  { unfold p. rewrite resolve_nonempty by (done || by destruct pre).
    apply walk_dirs; [done|]. intros k Hk. rewrite length_app in Hk.
    rewrite take_snoc_le by (simpl in Hk; lia). apply Hd. simpl in Hk. lia. }
  assert (Hrev : MkPath anch (rev (c :: rev pre)) = p).
  { unfold p. simpl. by rewrite rev_involutive. }
  cbn [mkdir_parents]. rewrite Hrev.
  unfold mkdir_flat, try_except, os_mkdir.
  rewrite bind_eq, (fsencode_ok _ _ Hok), Hres.
  destruct (node_at (fs w) target) as [[|]|] eqn:E; [|done|].
  - cbn [is_OSError is_FileNotFoundError negb andb].
    unfold mkdir_oserror.
    rewrite bind_eq, is_dir_eq by (split; eauto).
    exists w. by repeat split.
  - eexists. split; [done|]. split; [done|].
    assert (Hne : target <> []) by (intros Ht; by rewrite Ht in E).
    repeat split; try done.
    + by apply node_at_insert_eq.
    + intros q Hq. simpl. by rewrite node_at_insert_ne.
Qed.

Lemma mkdir_parents_S room anch rparts ok :
  mkdir_parents (S room) anch rparts ok
  = try_except (os_mkdir (MkPath anch (rev rparts))) is_OSError
      (fun e =>
         if is_FileNotFoundError e then
           match rparts with
           | [] => raise e
           | _ :: rparent =>
               mkdir_parents room anch rparent true ;;
               mkdir_flat (MkPath anch (rev rparts)) ok
           end
         else mkdir_oserror (MkPath anch (rev rparts)) ok e)%py.
Proof. reflexivity. Qed.

Lemma mkdir_parents_existing room p w :
  names_dir w p ->
  mkdir_parents (S room) (anchored p) (rev (parts p)) true w = (Return tt, w).
Proof.
  intros Hn. pose proof Hn as (Hok & t & Hres & Hnode).
  assert (Hos : os_mkdir p w = (Raise FileExistsError, w)).
  { unfold os_mkdir. by rewrite bind_eq, (fsencode_ok _ _ Hok), Hres, Hnode. }
  destruct (rev (parts p)) as [|c rparent] eqn:Hrev;
    cbn [mkdir_parents]; rewrite <- Hrev, rev_involutive, path_eta;
    unfold try_except; rewrite Hos; cbn [is_OSError is_FileNotFoundError];
    unfold mkdir_oserror; by rewrite bind_eq, (is_dir_eq _ _ Hn).
Qed.

(** A further directory, made or found, after those on the way to it. *)
Lemma dirs_made_snoc start pre c w w1 w2 :
  dirs_made start pre w w1 ->
  dir_added (place start (pre ++ [c])) w1 w2 ->
  dirs_made start (pre ++ [c]) w w2.
Proof.
  intros (Hh & Hc & Hs & Hd & Hother) (Hh2 & Hc2 & Hs2 & Hd2 & Hother2).
  split; [congruence|]. split; [congruence|]. split; [congruence|]. split.
  - intros k Hk. rewrite length_app in Hk. simpl in Hk.
    destruct (decide (k = length pre + 1)) as [->|Hne].
    + replace (length pre + 1) with (length (pre ++ [c]))
        by (rewrite length_app; simpl; lia).
      by rewrite firstn_all.
    + rewrite take_snoc_le by lia.
      destruct (decide (place start (take k pre) = place start (pre ++ [c])))
        as [->|Hq]; [done|].
      rewrite Hother2 by done. apply Hd. lia.
  - intros q Hq. rewrite Hother2.
    + apply Hother. intros k Hk. rewrite <- (take_snoc_le pre c) by done.
      apply Hq. rewrite length_app. lia.
    + specialize (Hq (length (pre ++ [c])) ltac:(lia)).
      by rewrite firstn_all in Hq.
Qed.

Lemma mkdir_parents_total room anch comps w :
  path_ok (MkPath anch comps) = true ->
  short_path (MkPath anch comps) = true -> length comps <= S room ->
  plain comps ->
  node_at (fs w) (start_of w anch) = Some Dir ->
  (forall k, k <= length comps ->
             is_file (node_at (fs w) (place (start_of w anch) (take k comps)))
             = false) ->
  exists w', mkdir_parents (S room) anch (rev comps) true w = (Return tt, w')
             /\ dirs_made (start_of w anch) comps w w'.
Proof.
  revert room w. induction comps as [|c pre IH] using rev_ind;
    intros room w Hok Hshort Hroom Hp Hstart Hfile.
  - exists w. split.
    + apply (mkdir_parents_existing room (MkPath anch [])). split; [done|].
      exists (start_of w anch). split; [|done].
      rewrite (resolve_short _ _ Hshort). unfold os_comps. simpl.
      unfold start_of in *. destruct (rooted anch); [done|].
      simpl. by rewrite Hstart.
    + repeat split; try done. intros k _. by rewrite take_nil.
  - rewrite rev_app_distr. cbn [rev app].
    pose proof (short_path_init _ _ _ Hshort) as Hshort'.
    remember (start_of w anch) as start eqn:Hst.
    set (target := place start (pre ++ [c])).
    assert (Hok' : path_ok (MkPath anch pre) = true).
    { unfold path_ok in *. simpl in *.
      rewrite forallb_app, existsb_app in Hok.
      apply andb_true_iff in Hok as [[H1 _]%andb_true_iff H2].
      rewrite H1. simpl. apply negb_true_iff in H2.
      apply orb_false_iff in H2 as [-> _]. done. }
    assert (Hp' : plain pre) by (by apply Forall_app in Hp as [? _]).
    assert (Hfile' : forall k, k <= length pre ->
               is_file (node_at (fs w) (place start (take k pre))) = false).
    { intros k Hk. rewrite <- (take_snoc_le pre c) by done.
      apply Hfile. rewrite length_app. lia. }
    assert (Htarget : is_file (node_at (fs w) target) = false).
    { specialize (Hfile (length (pre ++ [c])) ltac:(lia)).
      by rewrite firstn_all in Hfile. }
    destruct (walk (fs w) start (pre ++ [c])) as [e|t] eqn:Hwalk.
    + (* a directory above is missing: the parent is made first *)
      pose proof Hwalk as He. apply walk_inl in He as ->; [|done|done].
      assert (Hpre : pre <> []).
      { intros ->. simpl in Hwalk. rewrite Hstart in Hwalk.
        by destruct (NAME_MAX <? fs_bytes c). }
      destruct room as [|room].
      { rewrite length_app in Hroom. simpl in Hroom.
        destruct pre; [done|]. simpl in Hroom. lia. }
      destruct (IH room w Hok' Hshort') as (w1 & Hrun & Hdm);
        [rewrite length_app in Hroom; simpl in Hroom; lia | done
        | by rewrite <- Hst | by rewrite <- Hst |].
      rewrite <- Hst in Hdm.
      pose proof Hdm as (Hh & Hc & Hs & Hd & Hother).
      assert (Hs1 : start_of w1 anch = start)
        by (rewrite Hst; unfold start_of; by rewrite Hc).
      destruct (mkdir_last 0 anch pre c w1) as (w2 & Hflat & _ & Hadd);
        try done.
      * rewrite Hs1. apply Hd.
      * rewrite Hs1. fold target.
        destruct (decide (Forall (fun k => target <> place start (take k pre))
                            (seq 0 (S (length pre))))) as [Hall|Hsome].
        -- rewrite Hother; [done|]. intros k Hk.
           rewrite Forall_forall in Hall. apply Hall, elem_of_seq. lia.
        -- apply not_Forall_Exists in Hsome; [|intros k; apply _].
           apply Exists_exists in Hsome as (k & Hk%elem_of_seq & Hq).
           apply dec_stable in Hq. rewrite Hq, Hd by lia. done.
      * rewrite Hs1 in Hadd. fold target in Hadd.
        exists w2. split; [|by eapply dirs_made_snoc].
        rewrite mkdir_parents_S. simpl rev. rewrite rev_involutive.
        unfold try_except at 1. unfold os_mkdir at 1.
        rewrite bind_eq, (fsencode_ok _ _ Hok).
        rewrite resolve_nonempty by (done || by destruct pre). rewrite <- Hst.
        rewrite Hwalk. cbn [is_OSError is_FileNotFoundError].
        by rewrite bind_eq, Hrun.
    + (* every directory above is there *)
      apply walk_inr in Hwalk as (-> & _ & Hd).
      assert (Hd' : forall k, k <= length pre ->
                 node_at (fs w) (place start (take k pre)) = Some Dir).
      { intros k Hk. rewrite <- (take_snoc_le pre c) by done.
        apply Hd. rewrite length_app. simpl. lia. }
      pose proof (mkdir_last room anch pre c w Hok Hshort Hp) as Hlast.
      rewrite <- Hst in Hlast.
      destruct (Hlast Hd' Htarget) as (w2 & _ & Hrun & Hadd).
      exists w2. split; [done|].
      eapply dirs_made_snoc; [|exact Hadd]. by repeat split.
Qed.
(** ** Runs that succeed *)

Lemma plain_name_spec c :
  plain_name c = true ->
  utf8_encodable c = true /\ existsb (N.eqb 0) c = false
  /\ fs_bytes c <= NAME_MAX.
Proof.
  unfold plain_name.
  intros [[H1 H2%negb_true_iff]%andb_true_iff H3%Nat.leb_le]%andb_true_iff.
  done.
Qed.

Lemma utf8_fs_char s : utf8_encodable s = true -> forallb fs_char s = true.
Proof.
  unfold utf8_encodable. rewrite !forallb_forall. intros H c Hc.
  unfold fs_char. by rewrite (H c Hc).
Qed.

Lemma plain_path_ok p : plain_path p = true -> path_ok p = true.
Proof.
  unfold plain_path, path_ok. intros H.
  induction (parts p) as [|c comps IH]; [done|].
  simpl in H. apply andb_true_iff in H as [Hc H].
  apply plain_name_spec in Hc as (H1 & H2 & _).
  specialize (IH H). apply andb_true_iff in IH as [IH1 IH2].
  simpl. rewrite (utf8_fs_char _ H1), IH1, H2. done.
Qed.

Lemma plain_path_plain p : plain_path p = true -> plain (parts p).
Proof.
  unfold plain_path, plain. rewrite forallb_forall, Forall_forall.
  intros H c Hc%list_elem_of_In.
  by destruct (plain_name_spec c (H c Hc)) as (_ & _ & ?).
Qed.

Lemma plain_path_app anch a b :
  plain_path (MkPath anch (a ++ b)) = true ->
  plain_path (MkPath anch a) = true /\ plain_path (MkPath anch b) = true.
Proof.
  unfold plain_path. simpl. rewrite forallb_app. apply andb_true_iff.
Qed.

Lemma way_clear_spec w p :
  way_clear w p = true ->
  node_at (fs w) (start_of w (anchored p)) = Some Dir
  /\ forall k, k <= length (parts p) ->
       is_file (node_at (fs w)
                  (place (start_of w (anchored p)) (take k (parts p))))
       = false.
Proof.
  unfold way_clear. intros [_ H]%andb_true_iff. revert H.
  destruct (node_at _ (start_of _ _)) as [[|]|]; try discriminate.
  rewrite forallb_forall. intros H. split; [done|]. intros k Hk.
  apply negb_true_iff, H, in_seq. lia.
Qed.

Lemma way_clear_limits w p :
  way_clear w p = true ->
  short_path p = true /\ length (parts p) <= mkdir_room.
Proof.
  unfold way_clear, shallow.
  by intros [[H1 H2%Nat.leb_le]%andb_true_iff _]%andb_true_iff.
Qed.

Lemma mkdir_room_S : mkdir_room = S (Nat.pred mkdir_room).
Proof. reflexivity. Qed.

Lemma mkdir_total p w :
  plain_path p = true -> way_clear w p = true ->
  exists w', mkdir p true true w = (Return tt, w')
             /\ dirs_made (start_of w (anchored p)) (parts p) w w'.
Proof.
  intros Hp Hclear. destruct (way_clear_limits _ _ Hclear) as [Hs Hroom].
  apply way_clear_spec in Hclear as [Hstart Hfile]. unfold mkdir.
  rewrite mkdir_room_S in *. destruct p as [anch comps].
  cbn [anchored parts] in *.
  apply mkdir_parents_total; try done.
  - by apply plain_path_ok.
  - by apply (plain_path_plain (MkPath anch comps)).
Qed.

(** A file written into a directory that is there. *)
Lemma write_text_total anch chain c data w :
  let start := start_of w anch in
  let target := place start (chain ++ [c]) in
  plain_path (MkPath anch (chain ++ [c])) = true ->
  short_path (MkPath anch (chain ++ [c])) = true ->
  (forall k, k <= length chain ->
             node_at (fs w) (place start (take k chain)) = Some Dir) ->
  node_at (fs w) target <> Some Dir ->
  utf8_encodable data = true ->
  write_text (MkPath anch (chain ++ [c])) data w
  = (Return tt, set_fs (<[target := File data]> (fs w)) w).
Proof.
  intros start target Hp Hs Hd Hnode Hdata. apply write_text_eq; try done.
  - by apply fsencode_ok, plain_path_ok.
  - rewrite resolve_nonempty by (done || by destruct chain).
    apply walk_dirs; [by apply (plain_path_plain (MkPath anch _))|].
    intros k Hk. rewrite length_app in Hk. simpl in Hk.
    rewrite take_snoc_le by lia. apply Hd. lia.
Qed.

Lemma utf8_encodable_app a b :
  utf8_encodable (a ++ b) = utf8_encodable a && utf8_encodable b.
Proof. apply forallb_app. Qed.

Lemma utf8_encodable_join sep xs :
  utf8_encodable sep = true -> forallb utf8_encodable xs = true ->
  utf8_encodable (join sep xs) = true.
Proof.
  intros Hsep. induction xs as [|x [|y ys] IH]; [done|..].
  - simpl. by rewrite andb_true_r.
  - intros [Hx Hxs]%andb_true_iff.
    change (join sep (x :: y :: ys)) with (x ++ sep ++ join sep (y :: ys)).
    by rewrite !utf8_encodable_app, Hx, Hsep, IH.
Qed.

Lemma plain_path_str p :
  plain_path p = true -> utf8_encodable (path_str p) = true.
Proof.
  intros Hp. assert (Hparts : forallb utf8_encodable (parts p) = true).
  { unfold plain_path in Hp. rewrite forallb_forall in *.
    intros c Hc. by destruct (plain_name_spec c (Hp c Hc)) as [? _]. }
  unfold path_str. destruct (anchored p).
  - destruct (parts p) eqn:E; [done|]. by apply utf8_encodable_join.
  - change (slash :: ?s) with ([slash] ++ s).
    rewrite utf8_encodable_app, utf8_encodable_join by done. done.
  - change (slash :: slash :: ?s) with ([slash; slash] ++ s).
    rewrite utf8_encodable_app, utf8_encodable_join by done. done.
Qed.

Lemma safe_name_spec n :
  safe_name n = true ->
  utf8_encodable n = true /\ existsb (N.eqb 0) n = false
  /\ Forall (fun c => c <> slash) n.
Proof.
  unfold safe_name. intros [Hn _]%andb_true_iff. revert Hn.
  induction n as [|c n IH]; [done|]. cbn [forallb].
  intros [[[H1 H2]%andb_true_iff H3]%andb_true_iff H]%andb_true_iff.
  destruct (IH H) as (IH1 & IH2 & IH3).
  apply negb_true_iff in H2, H3. apply N.eqb_neq in H2, H3.
  split; [|split].
  - cbn [utf8_encodable forallb]. by rewrite H1.
  - cbn [existsb]. rewrite IH2. by destruct c.
  - by constructor.
Qed.

Lemma safe_name_bytes n :
  safe_name n = true -> fs_bytes n + ext_bytes <= NAME_MAX.
Proof. unfold safe_name. by intros [_ H%Nat.leb_le]%andb_true_iff. Qed.

Lemma ext_md_bytes : fs_bytes ext_md <= ext_bytes.
Proof. vm_compute. lia. Qed.

Lemma ext_json_bytes : fs_bytes ext_json <= ext_bytes.
Proof. vm_compute. lia. Qed.

(** The file of a safe name lies directly in the agents directory. *)
Lemma safe_file_parts d n ext :
  safe_name n = true ->
  Forall (fun c => c <> slash) ext -> 2 < length ext ->
  joinpath d (n ++ ext) = MkPath (anchored d) (parts d ++ [n ++ ext]).
Proof.
  intros (_ & _ & Hn)%safe_name_spec Hx Hlen.
  assert (Hall : Forall (fun c => c <> slash) (n ++ ext))
    by (by apply Forall_app).
  unfold joinpath.
  assert (Habs : is_absolute (n ++ ext) = false).
  { destruct Hall as [|c s Hc _]; [done|]. simpl. by apply N.eqb_neq. }
  rewrite Habs. f_equal. f_equal. unfold parse_parts.
  rewrite split_on_nosep by done. rewrite filter_cons_True; [done|].
  split; intros E%(f_equal length); rewrite length_app in E; simpl in E; lia.
Qed.

Lemma agents_dir_parts out :
  agents_dir out
  = MkPath (anchor_of out)
      (parse_parts out ++ [lit ".claude"; lit "agents"]).
Proof.
  unfold agents_dir, joinpath, Path. cbn [is_absolute lit]. simpl.
  by rewrite <- app_assoc.
Qed.

Lemma plain_name_file n ext :
  safe_name n = true -> utf8_encodable ext = true ->
  existsb (N.eqb 0) ext = false -> fs_bytes ext <= ext_bytes ->
  plain_name (n ++ ext) = true.
Proof.
  intros Hn Hx H0 Hbytes. pose proof (safe_name_bytes _ Hn) as Hnb.
  apply safe_name_spec in Hn as (H1 & H2 & _). unfold plain_name.
  rewrite utf8_encodable_app, H1, Hx, existsb_app, H2, H0.
  by rewrite (proj2 (Nat.leb_le _ _)) by (rewrite fs_bytes_app; lia).
Qed.

(** A name with an extension is a name: it leads one level down. *)
Lemma step_file cur n ext :
  2 < length ext -> step cur (n ++ ext) = cur ++ [n ++ ext].
Proof.
  intros Hlen. apply step_plain;
    intros E%(f_equal length); rewrite length_app in E; simpl in E; lia.
Qed.

Lemma place_file start chain n ext :
  2 < length ext ->
  place start (chain ++ [n ++ ext]) = place start chain ++ [n ++ ext].
Proof. intros Hlen. by rewrite place_snoc, step_file. Qed.

Lemma not_dir_spec w p :
  not_dir w p = true ->
  node_at (fs w) (place (start_of w (anchored p)) (parts p)) <> Some Dir
  /\ forall k, k < length (parts p) ->
       place (start_of w (anchored p)) (take k (parts p))
       <> place (start_of w (anchored p)) (parts p).
Proof.
  unfold not_dir. cbv zeta.
  intros [[_ H1]%andb_true_iff H2]%andb_true_iff. split.
  - by destruct (node_at _ _) as [[|]|].
  - rewrite forallb_forall in H2. intros k Hk.
    assert (Hin : In k (seq 0 (length (parts p)))) by (apply in_seq; lia).
    apply H2, negb_true_iff in Hin. by apply bool_decide_eq_false in Hin.
Qed.

Lemma not_dir_short w p : not_dir w p = true -> short_path p = true.
Proof.
  unfold not_dir. cbv zeta. by intros [[H _]%andb_true_iff _]%andb_true_iff.
Qed.

Lemma dirs_made_start start comps w w' :
  dirs_made start comps w w' -> node_at (fs w') start = Some Dir.
Proof.
  intros (_ & _ & _ & Hd & _). specialize (Hd 0 ltac:(lia)).
  by rewrite take_0 in Hd.
Qed.

(** After the directories were made a place holds a directory or what it
    held before. *)
Lemma dirs_made_node start comps w w' q :
  dirs_made start comps w w' ->
  node_at (fs w') q = Some Dir \/ node_at (fs w') q = node_at (fs w) q.
Proof.
  intros (_ & _ & _ & Hd & Hrest).
  destruct (decide (Forall (fun k => q <> place start (take k comps))
                      (seq 0 (S (length comps))))) as [Hall|Hsome].
  - right. apply Hrest. intros k Hk.
    rewrite Forall_forall in Hall. apply Hall, elem_of_seq. lia.
  - left. apply not_Forall_Exists in Hsome; [|intros k; apply _].
    apply Exists_exists in Hsome as (k & Hk%elem_of_seq & Hq').
    apply dec_stable in Hq'. subst q. apply Hd. lia.
Qed.

Lemma dirs_made_files start comps w w' q data :
  dirs_made start comps w w' ->
  node_at (fs w') q = Some (File data) -> node_at (fs w) q = Some (File data).
Proof.
  intros Hdm Hq. destruct (dirs_made_node _ _ _ _ q Hdm) as [Hd|Hs];
    congruence.
Qed.

(** Where no file was in the way before the directories of [a] were
    made, none is afterwards. *)
Lemma dirs_made_clear start a more w w1 :
  dirs_made start a w w1 ->
  (forall k, k <= length (a ++ more) ->
     is_file (node_at (fs w) (place start (take k (a ++ more)))) = false) ->
  forall k, k <= length (a ++ more) ->
    is_file (node_at (fs w1) (place start (take k (a ++ more)))) = false.
Proof.
  intros Hdm Hfile k Hk.
  destruct (dirs_made_node _ _ _ _ (place start (take k (a ++ more))) Hdm)
    as [-> | ->]; [done|by apply Hfile].
Qed.

Lemma dirs_made_trans start a more w w1 w2 :
  dirs_made start a w w1 -> dirs_made start (a ++ more) w1 w2 ->
  dirs_made start (a ++ more) w w2.
Proof.
  intros (Hh1 & Hc1 & Hs1 & Hd1 & Hrest1) (Hh2 & Hc2 & Hs2 & Hd2 & Hrest2).
  split; [congruence|]. split; [congruence|]. split; [congruence|].
  split; [done|]. intros q Hq. rewrite Hrest2 by done. apply Hrest1.
  intros k Hk. rewrite <- (take_app_le a more) by done.
  apply Hq. rewrite length_app. lia.
Qed.

Lemma dirs_exist_ext w w' p :
  fs w' = fs w -> cwd w' = cwd w -> dirs_exist w p -> dirs_exist w' p.
Proof. unfold dirs_exist, start_of. by intros -> ->. Qed.

(** The two directories of a run are made where the way is clear. *)
Lemma agents_dir_total out w :
  let start := start_of w (anchor_of out) in
  let chain := parse_parts out ++ [lit ".claude"; lit "agents"] in
  plain_path (agents_dir out) = true -> way_clear w (agents_dir out) = true ->
  exists w1 w2,
    mkdir (Path out) true true w = (Return tt, w1)
    /\ mkdir (agents_dir out) true true w1 = (Return tt, w2)
    /\ dirs_made start chain w w2.
Proof.
  intros start chain Hplain Hclear. unfold chain, start.
  destruct (way_clear_limits _ _ Hclear) as [Hshort Hroom].
  rewrite agents_dir_parts in *. cbn [anchored parts] in *.
  set (anch := anchor_of out) in *.
  set (comps0 := parse_parts out) in *.
  set (more := [lit ".claude"; lit "agents"]) in *.
  apply way_clear_spec in Hclear as [Hstart Hfile]. cbn [anchored parts] in *.
  remember (start_of w anch) as st eqn:Hst.
  rewrite mkdir_room_S in Hroom.
  destruct (plain_path_app _ _ _ Hplain) as [Hplain0 _].
  destruct (mkdir_parents_total (Nat.pred mkdir_room) anch comps0 w)
    as (w1 & Hrun1 & Hdm1).
  { by apply plain_path_ok. }
  { by eapply short_path_init. }
  { rewrite length_app in Hroom. lia. }
  { by apply (plain_path_plain (MkPath anch comps0)). }
  { by rewrite <- Hst. }
  { rewrite <- Hst. intros k Hk.
    rewrite <- (take_app_le comps0 more) by done.
    apply Hfile. rewrite length_app. lia. }
  rewrite <- Hst in Hdm1. pose proof Hdm1 as (Hh1 & Hc1 & Hs1 & _).
  assert (Hst1 : start_of w1 anch = st)
    by (rewrite Hst; unfold start_of; by rewrite Hc1).
  destruct (mkdir_parents_total (Nat.pred mkdir_room) anch (comps0 ++ more) w1)
    as (w2 & Hrun2 & Hdm2).
  { by apply plain_path_ok. }
  { done. }
  { done. }
  { by apply (plain_path_plain (MkPath anch (comps0 ++ more))). }
  { rewrite Hst1. by eapply dirs_made_start. }
  { rewrite Hst1. by eapply dirs_made_clear. }
  rewrite <- mkdir_room_S in Hrun1, Hrun2. rewrite Hst1 in Hdm2.
  exists w1, w2. unfold mkdir. cbn [anchored parts Path]. fold anch comps0.
  split; [done|]. split; [done|]. by eapply dirs_made_trans.
Qed.

(** The whole of [emit] succeeds from a world where the way is clear. *)
Lemma emit_total n ty out md js w :
  plain_path (agents_dir out) = true -> safe_name n = true ->
  way_clear w (agents_dir out) = true ->
  not_dir w (agent_file n out) = true -> not_dir w (json_file n out) = true ->
  utf8_encodable md = true -> utf8_encodable js = true ->
  utf8_encodable ty = true ->
  exists w', emit n ty out md js w = (Return tt, w')
             /\ dirs_exist w' (agents_dir out).
Proof.
  intros Hplain Hn Hclear Hmd_free Hjs_free Hmd Hjs Hty.
  destruct ext_md_ok as [Hm1 Hm2]. destruct ext_json_ok as [Hj1 Hj2].
  pose proof (safe_file_parts (agents_dir out) n ext_md Hn Hm1 Hm2) as Hfile_md.
  pose proof (safe_file_parts (agents_dir out) n ext_json Hn Hj1 Hj2)
    as Hfile_js.
  pose proof (not_dir_short _ _ Hmd_free) as Hmd_short.
  pose proof (not_dir_short _ _ Hjs_free) as Hjs_short.
  apply not_dir_spec in Hmd_free as [Hmd_free Hmd_off].
  apply not_dir_spec in Hjs_free as [Hjs_free Hjs_off].
  destruct (agents_dir_total out w Hplain Hclear)
    as (w1 & w2 & Hrun1 & Hrun2 & Hdm).
  unfold emit, agent_file, json_file in *. fold ext_md ext_json in *.
  unfold status_lines, agent_file. fold ext_md.
  rewrite Hfile_md, Hfile_js in *. clear Hfile_md Hfile_js.
  rewrite agents_dir_parts in *. cbn [anchored parts] in *.
  set (anch := anchor_of out) in *.
  set (chain := parse_parts out ++ [lit ".claude"; lit "agents"]) in *.
  remember (start_of w anch) as start eqn:Hst.
  pose proof Hdm as (Hh2 & Hc2 & Hs2 & Hd2 & Hrest2).
  assert (Hst2 : start_of w2 anch = start)
    by (rewrite Hst; unfold start_of; by rewrite Hc2).
  set (t_md := place start (chain ++ [n ++ ext_md])) in *.
  set (t_js := place start (chain ++ [n ++ ext_json])) in *.
  assert (Hoff : forall file k,
             (forall j, j < length (chain ++ [file]) ->
                place start (take j (chain ++ [file]))
                <> place start (chain ++ [file])) ->
             k <= length chain ->
             place start (chain ++ [file]) <> place start (take k chain)).
  { intros file k H Hk E. apply (H k); [rewrite length_app; simpl; lia|].
    by rewrite take_snoc_le. }
  (* the two files *)
  assert (Hp_md : plain_path (MkPath anch (chain ++ [n ++ ext_md])) = true).
  { unfold plain_path in *. cbn [parts] in *.
    rewrite forallb_app, Hplain. cbn [forallb].
    by rewrite plain_name_file by (done || apply ext_md_bytes). }
  assert (Hp_js : plain_path (MkPath anch (chain ++ [n ++ ext_json])) = true).
  { unfold plain_path in *. cbn [parts] in *.
    rewrite forallb_app, Hplain. cbn [forallb].
    by rewrite plain_name_file by (done || apply ext_json_bytes). }
  pose proof (write_text_total anch chain (n ++ ext_md) md w2 Hp_md
                Hmd_short) as Hw3.
  rewrite Hst2 in Hw3. cbv zeta in Hw3. fold t_md in Hw3.
  specialize (Hw3 Hd2).
  rewrite (Hrest2 t_md) in Hw3 by (intros k Hk; by apply (Hoff (n ++ ext_md))).
  specialize (Hw3 Hmd_free Hmd).
  set (w3 := set_fs (<[t_md := File md]> (fs w2)) w2) in *.
  assert (Hne : t_md <> t_js).
  { unfold t_md, t_js. rewrite !place_file by done.
    intros E%app_inv_head. injection E as E. by apply app_inv_head in E. }
  pose proof (write_text_total anch chain (n ++ ext_json) js w3 Hp_js
                Hjs_short) as Hw4.
  change (start_of w3 anch) with (start_of w2 anch) in Hw4.
  rewrite Hst2 in Hw4. cbv zeta in Hw4. fold t_js in Hw4.
  assert (Hd3 : forall k, k <= length chain ->
             node_at (fs w3) (place start (take k chain)) = Some Dir).
  { intros k Hk. unfold w3. simpl. rewrite node_at_insert_ne; [by apply Hd2|].
    intros E. by apply (Hoff (n ++ ext_md) k). }
  specialize (Hw4 Hd3).
  unfold w3 at 1 in Hw4. simpl fs in Hw4.
  rewrite node_at_insert_ne in Hw4 by done.
  rewrite (Hrest2 t_js) in Hw4
    by (intros k Hk; by apply (Hoff (n ++ ext_json))).
  specialize (Hw4 Hjs_free Hjs).
  (* the lines printed *)
  destruct (safe_name_spec n Hn) as (Hn8 & _ & _).
  eexists. split.
  - rewrite bind_eq, Hrun1, bind_eq, Hrun2, bind_eq, Hw3, bind_eq, Hw4.
    apply print_all_eq. cbn [forallb].
    change (?c :: lit ?s ++ ?r) with ([c] ++ lit s ++ r).
    change (nl ++ ?c :: lit ?s) with (nl ++ [c] ++ lit s).
    rewrite !utf8_encodable_app, Hn8, Hty, (plain_path_str _ Hp_md).
    reflexivity.
  - apply (dirs_exist_ext (set_fs (<[t_js := File js]> (fs w3)) w3));
      [reflexivity | reflexivity |].
    intros k Hk. cbn [anchored parts] in *.
    change (start_of (set_fs _ w3) anch) with (start_of w2 anch).
    rewrite Hst2. unfold w3, set_fs. cbn [fs].
    rewrite !node_at_insert_ne; [by apply Hd2|..]; intros E;
      [by apply (Hoff (n ++ ext_md) k)|by apply (Hoff (n ++ ext_json) k)].
Qed.
(** ** generate_claude_md *)

Lemma generate_run ty out w text :
  GenerateClaudeMd.loaded w ->
  template_text GenerateClaudeMd.module_heap ty = Some text ->
  GenerateClaudeMd.generate_claude_md ty out w = emit_md ty out text w.
Proof.
  intros Hl Htext. unfold template_text in Htext.
  destruct (dict_at GenerateClaudeMd.module_heap GenerateClaudeMd.TEMPLATES)
    as [reg|] eqn:Hreg; [|discriminate].
  destruct (items_get ty reg) as [[s|]|] eqn:Hty; try discriminate.
  injection Htext as ->.
  apply (dict_at_weaken _ _ _ _ Hl) in Hreg.
  unfold GenerateClaudeMd.generate_claude_md, emit_md.
  rewrite bind_eq, (contains_eq _ _ _ _ Hreg), Hty.
  rewrite bool_decide_eq_true_2 by eauto. cbn [negb].
  rewrite bind_eq, (getitem_eq _ _ _ _ _ Hreg Hty).
  rewrite !bind_eq.
  destruct (mkdir (parent (Path out)) true true w) as [[[]|e|] w1];
    reflexivity.
Qed.

Lemma valid_template_text ty :
  ty ∈ project_types ->
  is_Some (template_text GenerateClaudeMd.module_heap ty).
Proof.
  rewrite project_types_eq, !elem_of_cons, elem_of_nil.
  intros [->|[->|[->|[->|[->|[->|[]]]]]]]; vm_compute; eauto.
Qed.

Lemma template_text_valid ty text :
  template_text GenerateClaudeMd.module_heap ty = Some text ->
  ty ∈ project_types.
Proof.
  unfold template_text, project_types, registry_keys.
  destruct (dict_at _ _) as [reg|]; [|discriminate].
  destruct (items_get ty reg) eqn:E; [|discriminate].
  intros _. apply items_get_is_Some. by rewrite E.
Qed.

Lemma template_text_encodable ty text :
  template_text GenerateClaudeMd.module_heap ty = Some text ->
  utf8_encodable text = true /\ utf8_encodable ty = true.
Proof.
  intros H. pose proof (template_text_valid _ _ H) as Hty. revert H.
  rewrite project_types_eq, !elem_of_cons, elem_of_nil in Hty.
  destruct Hty as [->|[->|[->|[->|[->|[->|[]]]]]]];
    intros [= <-]; split; vm_compute; reflexivity.
Qed.

Lemma emit_md_Return ty out text w w' :
  emit_md ty out text w = (Return tt, w') -> generated ty out text w w'.
Proof.
  unfold emit_md.
  intros ([] & w1 & H1 & H)%bind_Return_inv.
  apply bind_Return_inv in H as ([] & w2 & H2 & H).
  apply print_all_Return in H as [Hlines ->].
  pose proof (fs_only_mkdir (parent (Path out)) true true w)
    as (Hh1 & Hc1 & Hs1).
  pose proof (keeps_dirs_mkdir (parent (Path out)) true true w) as Hk1.
  rewrite H1 in Hh1, Hc1, Hs1, Hk1. simpl in Hh1, Hc1, Hs1, Hk1.
  apply mkdir_made in H1.
  pose proof (fs_only_write_text (Path out) text w1) as (_ & _ & Hs2).
  rewrite H2 in Hs2. simpl in Hs2.
  apply write_text_holds in H2 as (Hfile & _ & Hk2 & Hh2 & Hc2 & _).
  split; simpl; try done; try congruence.
  - eauto using dirs_kept_trans.
  - eapply names_dir_mono; [exact Hk2|done|done].
Qed.

Lemma removelast_snoc {A} (l : list A) x : removelast (l ++ [x]) = l.
Proof. by rewrite removelast_app, app_nil_r. Qed.

(** The whole of [emit_md] succeeds from a world where the way is
    clear. *)
Lemma emit_md_total ty out text w :
  plain_path (Path out) = true -> utf8_encodable out = true ->
  way_clear w (parent (Path out)) = true -> not_dir w (Path out) = true ->
  utf8_encodable text = true -> utf8_encodable ty = true ->
  exists w', emit_md ty out text w = (Return tt, w')
             /\ dirs_exist w' (parent (Path out)).
Proof.
  intros Hplain Hout Hclear Hfree Htext Hty.
  pose proof (not_dir_short _ _ Hfree) as Hshort.
  apply not_dir_spec in Hfree as [Hfree Hoff].
  pose proof Hclear as [Hstart _]%way_clear_spec.
  unfold emit_md, parent in *. unfold Path in *. cbn [anchored parts] in *.
  set (anch := anchor_of out) in *.
  destruct (exists_last (l := parse_parts out)) as (pre & c & Hparts).
  { intros E. rewrite E in Hfree. done. }
  rewrite Hparts in *. rewrite removelast_snoc in *.
  destruct (plain_path_app _ _ _ Hplain) as [Hplain0 _].
  destruct (mkdir_total (MkPath anch pre) w Hplain0 Hclear)
    as (w1 & Hrun1 & Hdm1).
  cbn [anchored parts] in Hdm1.
  pose proof Hdm1 as (Hh1 & Hc1 & Hs1 & Hd1 & Hrest1).
  assert (Hst1 : start_of w1 anch = start_of w anch)
    by (unfold start_of; by rewrite Hc1).
  set (target := place (start_of w anch) (pre ++ [c])) in *.
  assert (Hoff' : forall k, k <= length pre ->
             target <> place (start_of w anch) (take k pre)).
  { intros k Hk E. apply (Hoff k); [rewrite length_app; simpl; lia|].
    by rewrite take_snoc_le. }
  pose proof (write_text_total anch pre c text w1 Hplain Hshort) as Hw2.
  rewrite Hst1 in Hw2. cbv zeta in Hw2. fold target in Hw2.
  specialize (Hw2 Hd1). rewrite (Hrest1 target) in Hw2 by done.
  specialize (Hw2 Hfree Htext).
  eexists. split.
  - rewrite bind_eq, Hrun1, bind_eq, Hw2.
    apply print_all_eq. unfold generate_lines. cbn [forallb].
    change (?x :: lit ?s ++ ?r) with ([x] ++ lit s ++ r).
    rewrite !utf8_encodable_app, Hout, Hty. reflexivity.
  - apply (dirs_exist_ext (set_fs (<[target := File text]> (fs w1)) w1));
      [reflexivity | reflexivity |].
    intros k Hk. cbn [anchored parts] in *.
    change (start_of (set_fs _ w1) anch) with (start_of w1 anch).
    rewrite Hst1. unfold set_fs. cbn [fs].
    rewrite node_at_insert_ne; [by apply Hd1|]. intros E.
    by apply (Hoff' k).
Qed.

(** ** The texts of the two files *)

Lemma utf8_char_small c : (c < 0xD800)%N -> utf8_char c = true.
Proof. intros H. apply utf8_char_spec. lia. Qed.

Lemma hex_digit_ascii d : (d < 16)%N -> utf8_char (hex_digit d) = true.
Proof.
  intros H. apply utf8_char_small. unfold hex_digit.
  destruct (d <? 10)%N; lia.
Qed.

Lemma hex4_ascii n : utf8_encodable (hex4 n) = true.
Proof.
  unfold hex4. cbn [utf8_encodable forallb].
  rewrite !hex_digit_ascii by (apply N.mod_lt; lia). reflexivity.
Qed.

Lemma escape_char_ascii c : utf8_encodable (escape_char c) = true.
Proof.
  unfold escape_char.
  repeat match goal with
         | |- context [if (c =? ?k)%N then _ else _] =>
             destruct (c =? k)%N; [reflexivity|]
         end.
  destruct ((32 <=? c) && (c <=? 126))%N eqn:E.
  - apply andb_true_iff in E as [_ E%N.leb_le]. cbn [utf8_encodable forallb].
    rewrite utf8_char_small by lia. reflexivity.
  - destruct (c <? 65536)%N;
      by rewrite !utf8_encodable_app, !hex4_ascii.
Qed.

Lemma encode_str_ascii s : utf8_encodable (encode_str s) = true.
Proof.
  unfold encode_str. rewrite !utf8_encodable_app. cbn [dq utf8_encodable forallb].
  rewrite andb_true_r. induction s as [|c s IH]; [done|].
  cbn [flat_map]. fold (utf8_encodable (escape_char c ++ flat_map escape_char s)).
  rewrite utf8_encodable_app, escape_char_ascii. exact IH.
Qed.

Lemma array_text_ascii xs : utf8_encodable (array_text xs) = true.
Proof.
  destruct xs as [|x xs]; [done|]. unfold array_text.
  rewrite !utf8_encodable_app, utf8_encodable_join; [done|done|].
  rewrite forallb_forall. intros e (s & <- & _)%in_map_iff.
  apply encode_str_ascii.
Qed.

(** The JSON text is plain ASCII, whatever the name. *)
Lemma json_text_encodable name t : utf8_encodable (json_text name t) = true.
Proof.
  unfold json_text.
  by rewrite !utf8_encodable_app, !encode_str_ascii, array_text_ascii.
Qed.

Lemma md_text_encodable name t :
  utf8_encodable (md_text name t)
  = utf8_encodable name && utf8_encodable (t_description t)
    && utf8_encodable (t_instructions t)
    && utf8_encodable (join nl (map (fun tool => lit "- " ++ tool) (t_tools t)))
    && utf8_encodable (t_autonomy_desc t).
Proof.
  unfold md_text. rewrite !utf8_encodable_app.
  change (utf8_encodable nl) with true.
  change (utf8_encodable (lit "# ")) with true.
  change (utf8_encodable (lit "## Instructions")) with true.
  change (utf8_encodable (lit "## Allowed Tools")) with true.
  change (utf8_encodable (lit "## Autonomy Level")) with true.
  cbn [andb]. rewrite !andb_true_r, !andb_assoc. reflexivity.
Qed.

(** ** The five templates *)

Lemma view_valid ty t : view module_heap ty = Some t -> ty ∈ agent_types.
Proof.
  unfold view, agent_types, registry_keys.
  destruct (dict_at _ _) as [reg|]; [|discriminate].
  destruct (items_get ty reg) eqn:E; [|discriminate].
  intros _. apply items_get_is_Some. by rewrite E.
Qed.

Lemma view_facts ty t :
  view module_heap ty = Some t ->
  encodable_template t = true
  /\ utf8_encodable (t_autonomy_desc t) = true
  /\ utf8_encodable ty = true
  /\ t_name t = lit "{agent_name}"
  /\ t_tools t <> [].
Proof.
  intros H. pose proof (view_valid _ _ H) as Hty. revert H.
  rewrite agent_types_eq, !elem_of_cons, elem_of_nil in Hty.
  destruct Hty as [->|[->|[->|[->|[->|[]]]]]];
    intros [= <-]; repeat split; try (vm_compute; reflexivity); discriminate.
Qed.

Lemma md_text_template_encodable name t ty :
  view module_heap ty = Some t ->
  utf8_encodable (md_text name t) = utf8_encodable name.
Proof.
  intros (Ht & Hdesc & _)%view_facts. rewrite md_text_encodable.
  unfold encodable_template in Ht.
  apply andb_true_iff in Ht as [Ht Ha].
  apply andb_true_iff in Ht as [Ht Hts].
  apply andb_true_iff in Ht as [Hd Hi].
  assert (Hj : utf8_encodable
                 (join nl (map (fun tool => lit "- " ++ tool) (t_tools t)))
               = true).
  { apply utf8_encodable_join; [done|].
    rewrite forallb_forall in *. intros e (s & <- & Hs)%in_map_iff.
    rewrite utf8_encodable_app. by rewrite (Hts s Hs). }
  rewrite Hd, Hi, Hdesc, Hj. by rewrite !andb_true_r.
Qed.

(** ** Runs of [create_subagent] *)

Lemma loaded_run name ty out w t :
  loaded w -> view module_heap ty = Some t ->
  create_subagent name ty out w
  = emit name ty out (md_text name t) (json_text name t)
      (set_heap (<[fresh (dom (heap w)) := ODict (record_items name t)]>
                   (heap w)) w).
Proof. intros Hl Hv. by apply create_subagent_run, loaded_has_template. Qed.

Lemma Return_valid name ty out w w' :
  loaded w -> create_subagent name ty out w = (Return tt, w') ->
  ty ∈ agent_types.
Proof.
  intros Hl Hrun. destruct (decide (ty ∈ agent_types)) as [|Hn]; [done|].
  by rewrite create_subagent_unknown in Hrun.
Qed.

Lemma heap_bind {A B} (m : M A) (f : A -> M B) :
  (forall w, heap (snd (m w)) = heap w) ->
  (forall a w, heap (snd (f a w)) = heap w) ->
  forall w, heap (snd (bind m f w)) = heap w.
Proof.
  intros Hm Hf w. unfold bind. specialize (Hm w).
  destruct (m w) as [[a|e|] w1]; simpl in *; try done.
  by rewrite Hf.
Qed.

Lemma print_heap s w : heap (snd (print s w)) = heap w.
Proof. unfold print. by destruct (utf8_encodable s). Qed.

Lemma print_all_heap lines w : heap (snd (print_all lines w)) = heap w.
Proof.
  revert w. induction lines as [|l [|l' rest] IH]; intros w; [done|..].
  - apply print_heap.
  - cbn [print_all]. apply heap_bind; [apply print_heap|]. intros _. apply IH.
Qed.

Lemma emit_heap n ty out md js w :
  heap (snd (emit n ty out md js w)) = heap w.
Proof.
  unfold emit. revert w.
  apply heap_bind; [intros w; apply fs_only_mkdir | intros _].
  apply heap_bind; [intros w; apply fs_only_mkdir | intros _].
  apply heap_bind; [intros w; apply fs_only_write_text | intros _].
  apply heap_bind; [intros w; apply fs_only_write_text | intros _].
  apply print_all_heap.
Qed.

Lemma loaded_after name ty out w :
  loaded w -> loaded (snd (create_subagent name ty out w)).
Proof.
  intros Hl. destruct (decide (ty ∈ agent_types)) as [Hty|Hn].
  - destruct (valid_view ty Hty) as [t Hv].
    rewrite (loaded_run _ _ _ _ _ Hl Hv). unfold loaded.
    rewrite emit_heap. simpl. etrans; [exact Hl|].
    apply insert_subseteq, fresh_loc_None.
  - by rewrite create_subagent_unknown.
Qed.
(** * The properties of the specification *)

(** C1.  A type key outside the registry makes either script fail before
    anything is created: [create_subagent] and [generate_claude_md] raise
    [ValueError] and their [main] exits with status 2 on the argument
    error, each time in the very world they started in (same files and
    directories, same heap, nothing printed), and the message of the
    [ValueError], like the choices of the argument error, names every
    valid key of that script's registry. *)
Theorem unknown_type_fails_before_any_write
    (agent_name agent_type project_type output : str)
    (output_arg : option str) (wa wg : world) :
  loaded wa -> GenerateClaudeMd.loaded wg ->
  agent_type ∉ agent_types -> project_type ∉ project_types ->
  (exists msg,
      create_subagent agent_name agent_type output wa
      = (Raise (ValueError msg), wa)
      /\ forall k, k ∈ agent_types -> substring k msg)
  /\ main agent_name (Some agent_type) output_arg wa
     = (Raise (SystemExit 2
                 (ArgumentError (lit "--type") agent_type agent_types)), wa)
  /\ (exists msg,
        GenerateClaudeMd.generate_claude_md project_type output wg
        = (Raise (ValueError msg), wg)
        /\ forall k, k ∈ project_types -> substring k msg)
  /\ GenerateClaudeMd.main (Some project_type) output_arg wg
     = (Raise (SystemExit 2
                 (ArgumentError (lit "--type") project_type project_types)),
        wg).
Proof.
  intros Hla Hlg Ha Hg. repeat split.
  - eexists. split; [by apply create_subagent_unknown|].
    intros k Hk. do 4 apply substring_app_r. by apply substring_join.
  - by apply main_unknown.
  - eexists. split; [by apply generate_claude_md_unknown|].
    intros k Hk. do 3 apply substring_app_r. by apply substring_join.
  - by apply generate_main_unknown.
Qed.

Lemma unknown_type_fails_before_any_write_witness :
  (exists msg,
      create_subagent (lit "doc-searcher") (lit "nonexistent") (lit ".")
        (fresh_world module_heap)
      = (Raise (ValueError msg), fresh_world module_heap)
      /\ forall k, k ∈ agent_types -> substring k msg)
  /\ main (lit "doc-searcher") (Some (lit "nonexistent")) None
       (fresh_world module_heap)
     = (Raise (SystemExit 2
                 (ArgumentError (lit "--type") (lit "nonexistent")
                    agent_types)), fresh_world module_heap)
  /\ (exists msg,
        GenerateClaudeMd.generate_claude_md (lit "nonexistent") (lit ".")
          (fresh_world GenerateClaudeMd.module_heap)
        = (Raise (ValueError msg), fresh_world GenerateClaudeMd.module_heap)
        /\ forall k, k ∈ project_types -> substring k msg)
  /\ GenerateClaudeMd.main (Some (lit "nonexistent")) None
       (fresh_world GenerateClaudeMd.module_heap)
     = (Raise (SystemExit 2
                 (ArgumentError (lit "--type") (lit "nonexistent")
                    project_types)),
        fresh_world GenerateClaudeMd.module_heap).
Proof.
  apply (unknown_type_fails_before_any_write
           (lit "doc-searcher") (lit "nonexistent") (lit "nonexistent")
           (lit ".") None (fresh_world module_heap)
           (fresh_world GenerateClaudeMd.module_heap)).
  - unfold loaded, fresh_world. cbn [heap]. reflexivity.
  - unfold GenerateClaudeMd.loaded, fresh_world. cbn [heap]. reflexivity.
  - apply (bool_decide_unpack _). vm_compute. exact I.
  - apply (bool_decide_unpack _). vm_compute. exact I.
Defined.

(** C2.  Round trip: after a run of [create_subagent] with a valid type
    that returns normally, the [.json] file it wrote parses as JSON to an
    object whose [name] is the given agent name and whose [tools] is the
    tools list of the registry's record for that type. *)
Theorem json_file_round_trip
    (agent_name agent_type output_dir : str) (w w' : world) :
  loaded w -> agent_type ∈ agent_types ->
  create_subagent agent_name agent_type output_dir w = (Return tt, w') ->
  exists t written items,
    view module_heap agent_type = Some t
    /\ read_file w' (json_file agent_name output_dir) = Some written
    /\ json_loads written = Return (JObj items)
    /\ items_get (lit "name") items = Some (JStr agent_name)
    /\ items_get (lit "tools") items = Some (JArr (map JStr (t_tools t))).
Proof.
  intros Hl Hty Hrun. destruct (valid_view _ Hty) as [t Hv].
  rewrite (loaded_run _ _ _ _ _ Hl Hv) in Hrun. apply emit_Return in Hrun.
  pose proof (em_md_ok _ _ _ _ _ _ _ Hrun) as Hname.
  rewrite (md_text_template_encodable _ _ _ Hv) in Hname.
  destruct (view_facts _ _ Hv) as (Henc & _).
  eexists t, _, _. split; [done|]. split.
  { apply holds_read, (em_json _ _ _ _ _ _ _ Hrun). }
  split; [by apply json_loads_json_text|]. split; reflexivity.
Qed.

Lemma json_file_round_trip_witness :
  exists t written items,
    view module_heap (lit "researcher") = Some t
    /\ read_file (snd doc_searcher_run)
         (json_file (lit "doc-searcher") (lit ".")) = Some written
    /\ json_loads written = Return (JObj items)
    /\ items_get (lit "name") items = Some (JStr (lit "doc-searcher"))
    /\ items_get (lit "tools") items = Some (JArr (map JStr (t_tools t))).
Proof.
  apply (json_file_round_trip (lit "doc-searcher") (lit "researcher")
           (lit ".") (fresh_world module_heap) (snd doc_searcher_run)).
  - unfold loaded, fresh_world. cbn [heap]. reflexivity.
  - apply (bool_decide_unpack _). vm_compute. exact I.
  - apply (outcome_Return doc_searcher_run). vm_compute. reflexivity.
Defined.

(** C3.  Determinism: two runs of [create_subagent] with the same agent
    name and type, from any two loaded worlds and into any two output
    directories, leave the same [.md] text and the same [.json] text; and
    running again in the world a run has left succeeds and changes no
    file. *)
Theorem same_inputs_same_files
    (agent_name agent_type out out' : str) (w w1 v v1 : world) :
  loaded w -> loaded v ->
  create_subagent agent_name agent_type out w = (Return tt, w1) ->
  create_subagent agent_name agent_type out' v = (Return tt, v1) ->
  (exists md js,
      read_file w1 (agent_file agent_name out) = Some md
      /\ read_file v1 (agent_file agent_name out') = Some md
      /\ read_file w1 (json_file agent_name out) = Some js
      /\ read_file v1 (json_file agent_name out') = Some js)
  /\ loaded w1
  /\ exists w2, create_subagent agent_name agent_type out w1 = (Return tt, w2)
                /\ fs w2 = fs w1.
Proof.
  intros Hlw Hlv Hw Hv.
  pose proof (Return_valid _ _ _ _ _ Hlw Hw) as Hty.
  destruct (valid_view _ Hty) as [t Ht].
  assert (Hl1 : loaded w1).
  { pose proof (loaded_after agent_name agent_type out w Hlw) as H.
    by rewrite Hw in H. }
  rewrite (loaded_run _ _ _ _ _ Hlw Ht) in Hw. apply emit_Return in Hw.
  rewrite (loaded_run _ _ _ _ _ Hlv Ht) in Hv. apply emit_Return in Hv.
  split; [|split; [done|]].
  - exists (md_text agent_name t), (json_text agent_name t).
    repeat split; apply holds_read.
    + apply (em_md _ _ _ _ _ _ _ Hw).
    + apply (em_md _ _ _ _ _ _ _ Hv).
    + apply (em_json _ _ _ _ _ _ _ Hw).
    + apply (em_json _ _ _ _ _ _ _ Hv).
  - eexists. rewrite (loaded_run _ _ _ _ _ Hl1 Ht).
    split; [by eapply emit_again|]. reflexivity.
Qed.

Lemma same_inputs_same_files_witness :
  (exists md js,
      read_file (snd doc_searcher_run)
        (agent_file (lit "doc-searcher") (lit ".")) = Some md
      /\ read_file (snd nested_run)
           (agent_file (lit "doc-searcher") (lit "build/out")) = Some md
      /\ read_file (snd doc_searcher_run)
           (json_file (lit "doc-searcher") (lit ".")) = Some js
      /\ read_file (snd nested_run)
           (json_file (lit "doc-searcher") (lit "build/out")) = Some js)
  /\ loaded (snd doc_searcher_run)
  /\ exists w2,
       create_subagent (lit "doc-searcher") (lit "researcher") (lit ".")
         (snd doc_searcher_run)
       = (Return tt, w2)
       /\ fs w2 = fs (snd doc_searcher_run).
Proof.
  apply (same_inputs_same_files (lit "doc-searcher") (lit "researcher")
           (lit ".") (lit "build/out")
           (fresh_world module_heap) (snd doc_searcher_run)
           (home_world module_heap) (snd nested_run)).
  - unfold loaded, fresh_world. cbn [heap]. reflexivity.
  - unfold loaded, home_world. cbn [heap]. reflexivity.
  - apply (outcome_Return doc_searcher_run). vm_compute. reflexivity.
  - apply (outcome_Return nested_run). vm_compute. reflexivity.
Defined.

(** C4 as stated fails: what [TEMPLATES] holds under a valid key is a
    plain string, not a record with tools and an autonomy level. *)
Lemma templates_hold_text_not_records :
  ~ yields_record (fresh_world GenerateClaudeMd.module_heap)
      GenerateClaudeMd.TEMPLATES (lit "general").
Proof.
  intros (l & items & tl & elems & a & desc & Hget & _).
  vm_compute in Hget. discriminate.
Qed.

(** C4, amended.  Every valid key of [SUBAGENT_TEMPLATES] looks up to a
    record whose tools list is not empty and whose autonomy level is a
    key of [AUTONOMY_DESCRIPTIONS]; every valid key of [TEMPLATES] looks
    up to a template string. *)
Theorem registry_lookups_succeed
    (agent_type project_type : str) (wa wg : world) :
  loaded wa -> agent_type ∈ agent_types ->
  GenerateClaudeMd.loaded wg -> project_type ∈ project_types ->
  yields_record wa SUBAGENT_TEMPLATES agent_type
  /\ exists content,
       getitem GenerateClaudeMd.TEMPLATES project_type wg
       = (Return (VStr content), wg).
Proof.
  intros Hla Hta Hlg Htg. split.
  - destruct (valid_view _ Hta) as [t Hv].
    destruct (view_facts _ _ Hv) as (_ & _ & _ & _ & Htools).
    destruct (loaded_has_template wa _ _ Hla Hv)
      as ([reg [Hreg Hty]] & Hrec & Htl & [auts [Hauts Hdesc]]).
    exists (t_loc t), (record_items (t_name t) t), (t_tools_loc t),
      (map VStr (t_tools t)), (t_autonomy t), (t_autonomy_desc t).
    split; [by eapply getitem_eq|]. split; [done|]. split; [done|].
    split; [done|]. split; [by destruct (t_tools t)|]. split; [done|].
    by eapply getitem_eq.
  - destruct (valid_template_text _ Htg) as [text Ht]. exists text.
    unfold template_text in Ht.
    destruct (dict_at GenerateClaudeMd.module_heap _) as [reg|] eqn:Hreg;
      [|discriminate].
    destruct (items_get project_type reg) as [[s|]|] eqn:E; try discriminate.
    injection Ht as ->.
    eapply getitem_eq; [|exact E]. by eapply dict_at_weaken.
Qed.

Lemma registry_lookups_succeed_witness :
  yields_record (fresh_world module_heap) SUBAGENT_TEMPLATES
    (lit "deep_analyzer")
  /\ exists content,
       getitem GenerateClaudeMd.TEMPLATES (lit "general")
         (fresh_world GenerateClaudeMd.module_heap)
       = (Return (VStr content), fresh_world GenerateClaudeMd.module_heap).
Proof.
  apply (registry_lookups_succeed (lit "deep_analyzer") (lit "general")
           (fresh_world module_heap)
           (fresh_world GenerateClaudeMd.module_heap)).
  - unfold loaded, fresh_world. cbn [heap]. reflexivity.
  - apply (bool_decide_unpack _). vm_compute. exact I.
  - unfold GenerateClaudeMd.loaded, fresh_world. cbn [heap]. reflexivity.
  - apply (bool_decide_unpack _). vm_compute. exact I.
Defined.

(** C5.  The [.json] file of a successful run is the selected record
    with [name] set to the agent name, its members written in the order
    name, description, instructions, tools, autonomy: the file holds
    [json_text], which names them in that order, and parsing it gives
    back exactly these five members in that order, the last four as the
    registry has them. *)
Theorem json_file_is_the_record_renamed
    (agent_name agent_type output_dir : str) (w w' : world) :
  loaded w -> agent_type ∈ agent_types ->
  create_subagent agent_name agent_type output_dir w = (Return tt, w') ->
  exists t,
    view module_heap agent_type = Some t
    /\ read_file w' (json_file agent_name output_dir)
       = Some (json_text agent_name t)
    /\ json_loads (json_text agent_name t)
       = Return (JObj [(lit "name", JStr agent_name);
                       (lit "description", JStr (t_description t));
                       (lit "instructions", JStr (t_instructions t));
                       (lit "tools", JArr (map JStr (t_tools t)));
                       (lit "autonomy", JStr (t_autonomy t))]).
Proof.
  intros Hl Hty Hrun. destruct (valid_view _ Hty) as [t Hv].
  rewrite (loaded_run _ _ _ _ _ Hl Hv) in Hrun. apply emit_Return in Hrun.
  pose proof (em_md_ok _ _ _ _ _ _ _ Hrun) as Hname.
  rewrite (md_text_template_encodable _ _ _ Hv) in Hname.
  destruct (view_facts _ _ Hv) as (Henc & _).
  exists t. split; [done|]. split.
  - apply holds_read, (em_json _ _ _ _ _ _ _ Hrun).
  - by apply json_loads_json_text.
Qed.

Lemma json_file_is_the_record_renamed_witness :
  exists t,
    view module_heap (lit "researcher") = Some t
    /\ read_file (snd doc_searcher_run)
         (json_file (lit "doc-searcher") (lit "."))
       = Some (json_text (lit "doc-searcher") t)
    /\ json_loads (json_text (lit "doc-searcher") t)
       = Return (JObj [(lit "name", JStr (lit "doc-searcher"));
                       (lit "description", JStr (t_description t));
                       (lit "instructions", JStr (t_instructions t));
                       (lit "tools", JArr (map JStr (t_tools t)));
                       (lit "autonomy", JStr (t_autonomy t))]).
Proof.
  apply (json_file_is_the_record_renamed (lit "doc-searcher")
           (lit "researcher") (lit ".") (fresh_world module_heap)
           (snd doc_searcher_run)).
  - unfold loaded, fresh_world. cbn [heap]. reflexivity.
  - apply (bool_decide_unpack _). vm_compute. exact I.
  - apply (outcome_Return doc_searcher_run). vm_compute. reflexivity.
Defined.

Lemma main_valid name ty output_arg w :
  loaded w -> ty ∈ agent_types ->
  main name (Some ty) output_arg w
  = create_subagent name ty (default (lit ".") output_arg) w.
Proof.
  intros Hl Hty. destruct (loaded_registry w Hl) as (reg & Hreg & Hkeys).
  unfold main. rewrite bind_eq, (keys_eq _ _ _ Hreg), Hkeys.
  rewrite bind_eq. by rewrite bool_decide_eq_true_2.
Qed.

Lemma create_subagent_total name ty out w t :
  loaded w -> view module_heap ty = Some t ->
  safe_name name = true -> plain_path (Path out) = true ->
  way_clear w (agents_dir out) = true ->
  not_dir w (agent_file name out) = true ->
  not_dir w (json_file name out) = true ->
  exists w', create_subagent name ty out w = (Return tt, w')
             /\ dirs_exist w' (agents_dir out)
             /\ read_file w' (agent_file name out) = Some (md_text name t)
             /\ read_file w' (json_file name out) = Some (json_text name t).
Proof.
  intros Hl Hv Hn Hp Hclear Hmd Hjs.
  destruct (view_facts _ _ Hv) as (_ & _ & Hty & _).
  destruct (safe_name_spec _ Hn) as (Hn8 & _).
  rewrite (loaded_run _ _ _ _ _ Hl Hv).
  destruct (emit_total name ty out (md_text name t) (json_text name t)
              (set_heap (<[fresh (dom (heap w)) := ODict (record_items name t)]>
                           (heap w)) w)) as (w' & Hrun & Hdirs); try done.
  - rewrite agents_dir_parts. unfold plain_path in *. cbn [parts Path] in *.
    by rewrite forallb_app, Hp.
  - by rewrite (md_text_template_encodable _ _ _ Hv).
  - apply json_text_encodable.
  - exists w'. split; [done|]. split; [done|].
    apply emit_Return in Hrun.
    split; apply holds_read.
    + apply (em_md _ _ _ _ _ _ _ Hrun).
    + apply (em_json _ _ _ _ _ _ _ Hrun).
Qed.

(** C6.  Scenario A: [main] with agent name "doc-searcher", type
    researcher and the default output, in any loaded world where the
    directories can be made and no directory is in the place of the two
    files, returns normally; [./.claude/agents/doc-searcher.md] then
    contains the researcher's description and the [autonomy] member of
    [./.claude/agents/doc-searcher.json] is "medium". *)
Theorem scenario_doc_searcher (w : world) :
  loaded w ->
  way_clear w (Path (lit "./.claude/agents")) = true ->
  not_dir w (Path (lit "./.claude/agents/doc-searcher.md")) = true ->
  not_dir w (Path (lit "./.claude/agents/doc-searcher.json")) = true ->
  exists w' md js items,
    main (lit "doc-searcher") (Some (lit "researcher")) None w = (Return tt, w')
    /\ read_file w' (Path (lit "./.claude/agents/doc-searcher.md")) = Some md
    /\ substring
         (lit "Research and documentation lookup agent with deep analysis") md
    /\ read_file w' (Path (lit "./.claude/agents/doc-searcher.json")) = Some js
    /\ json_loads js = Return (JObj items)
    /\ items_get (lit "autonomy") items = Some (JStr (lit "medium")).
Proof.
  intros Hl Hclear Hmd Hjs.
  assert (Hty : lit "researcher" ∈ agent_types)
    by (apply (bool_decide_unpack _); vm_compute; exact I).
  destruct (valid_view _ Hty) as [t Hv].
  destruct (create_subagent_total (lit "doc-searcher") (lit "researcher")
              (lit ".") w t Hl Hv) as (w' & Hrun & _ & Hrmd & Hrjs);
    try done.
  destruct (view_facts _ _ Hv) as (Henc & _).
  exists w', (md_text (lit "doc-searcher") t),
    (json_text (lit "doc-searcher") t). eexists.
  split; [by rewrite main_valid|]. split; [exact Hrmd|]. split.
  { vm_compute in Hv. injection Hv as <-. unfold md_text. cbn [t_description].
    do 4 apply substring_app_r. apply substring_app_l.
    exists [], []. by rewrite app_nil_r. }
  split; [exact Hrjs|]. split; [by apply json_loads_json_text|].
  vm_compute in Hv. by injection Hv as <-.
Qed.

Lemma scenario_doc_searcher_witness :
  exists w' md js items,
    main (lit "doc-searcher") (Some (lit "researcher")) None
      (fresh_world module_heap) = (Return tt, w')
    /\ read_file w' (Path (lit "./.claude/agents/doc-searcher.md")) = Some md
    /\ substring
         (lit "Research and documentation lookup agent with deep analysis") md
    /\ read_file w' (Path (lit "./.claude/agents/doc-searcher.json")) = Some js
    /\ json_loads js = Return (JObj items)
    /\ items_get (lit "autonomy") items = Some (JStr (lit "medium")).
Proof.
  apply (scenario_doc_searcher (fresh_world module_heap)).
  - unfold loaded, fresh_world. cbn [heap]. reflexivity.
  - vm_compute. reflexivity.
  - vm_compute. reflexivity.
  - vm_compute. reflexivity.
Defined.

Lemma generate_main_valid ty output_arg w :
  GenerateClaudeMd.loaded w -> ty ∈ project_types ->
  GenerateClaudeMd.main (Some ty) output_arg w
  = GenerateClaudeMd.generate_claude_md ty
      (default (lit "./CLAUDE.md") output_arg) w.
Proof.
  intros Hl Hty. destruct (loaded_templates w Hl) as (reg & Hreg & Hkeys).
  unfold GenerateClaudeMd.main. rewrite bind_eq, (keys_eq _ _ _ Hreg), Hkeys.
  rewrite bind_eq. by rewrite bool_decide_eq_true_2.
Qed.

Lemma generate_total ty out w text :
  GenerateClaudeMd.loaded w ->
  template_text GenerateClaudeMd.module_heap ty = Some text ->
  plain_path (Path out) = true -> utf8_encodable out = true ->
  way_clear w (parent (Path out)) = true -> not_dir w (Path out) = true ->
  exists w', GenerateClaudeMd.generate_claude_md ty out w = (Return tt, w')
             /\ dirs_exist w' (parent (Path out))
             /\ read_file w' (Path out) = Some text.
Proof.
  intros Hl Ht Hp Hout Hclear Hfree.
  destruct (template_text_encodable _ _ Ht) as [Htext Hty].
  rewrite (generate_run _ _ _ _ Hl Ht).
  destruct (emit_md_total ty out text w) as (w' & Hrun & Hdirs); try done.
  exists w'. split; [done|]. split; [done|].
  apply emit_md_Return in Hrun. apply holds_read, (gen_file _ _ _ _ _ Hrun).
Qed.

(** C7.  Whenever [generate_claude_md] returns normally for a valid
    project type, the file at the output path holds exactly the text
    [TEMPLATES] has for that type; and scenario B: [main] with type
    library and the default output, where [.] is a directory and no
    directory is in the place of [./CLAUDE.md], returns normally and
    [./CLAUDE.md] is exactly the library template. *)
Theorem template_is_written_verbatim (w : world) :
  GenerateClaudeMd.loaded w ->
  (forall project_type output_path w',
      project_type ∈ project_types ->
      GenerateClaudeMd.generate_claude_md project_type output_path w
      = (Return tt, w') ->
      exists content,
        template_text GenerateClaudeMd.module_heap project_type = Some content
        /\ getitem GenerateClaudeMd.TEMPLATES project_type w
           = (Return (VStr content), w)
        /\ read_file w' (Path output_path) = Some content)
  /\ (way_clear w (parent (Path (lit "./CLAUDE.md"))) = true ->
      not_dir w (Path (lit "./CLAUDE.md")) = true ->
      exists w',
        GenerateClaudeMd.main (Some (lit "library")) None w = (Return tt, w')
        /\ read_file w' (Path (lit "./CLAUDE.md"))
           = Some GenerateClaudeMd.library_template).
Proof.
  intros Hl. split.
  - intros ty out w' Hty Hrun.
    destruct (valid_template_text _ Hty) as [text Ht].
    exists text. split; [done|]. split.
    + unfold template_text in Ht.
      destruct (dict_at GenerateClaudeMd.module_heap _) as [reg|] eqn:Hreg;
        [|discriminate].
      destruct (items_get ty reg) as [[s|]|] eqn:E; try discriminate.
      injection Ht as ->.
      eapply getitem_eq; [|exact E]. by eapply dict_at_weaken.
    + rewrite (generate_run _ _ _ _ Hl Ht) in Hrun.
      apply emit_md_Return in Hrun.
      apply holds_read, (gen_file _ _ _ _ _ Hrun).
  - intros Hclear Hfree.
    assert (Hty : lit "library" ∈ project_types)
      by (apply (bool_decide_unpack _); vm_compute; exact I).
    destruct (generate_total (lit "library") (lit "./CLAUDE.md") w
                GenerateClaudeMd.library_template Hl)
      as (w' & Hrun & _ & Hread); try done.
    exists w'. split; [|done]. by rewrite generate_main_valid.
Qed.

Lemma template_is_written_verbatim_witness :
  (forall project_type output_path w',
      project_type ∈ project_types ->
      GenerateClaudeMd.generate_claude_md project_type output_path
        (fresh_world GenerateClaudeMd.module_heap)
      = (Return tt, w') ->
      exists content,
        template_text GenerateClaudeMd.module_heap project_type = Some content
        /\ getitem GenerateClaudeMd.TEMPLATES project_type
             (fresh_world GenerateClaudeMd.module_heap)
           = (Return (VStr content), fresh_world GenerateClaudeMd.module_heap)
        /\ read_file w' (Path output_path) = Some content)
  /\ exists w',
       library_run = (Return tt, w')
       /\ read_file w' (Path (lit "./CLAUDE.md"))
          = Some GenerateClaudeMd.library_template.
Proof.
  destruct (template_is_written_verbatim
              (fresh_world GenerateClaudeMd.module_heap)) as [Hall Hlib].
  - unfold GenerateClaudeMd.loaded, fresh_world. cbn [heap]. reflexivity.
  - split; [exact Hall|]. apply Hlib.
    + vm_compute. reflexivity.
    + vm_compute. reflexivity.
Defined.



(** The directories are made along a path with [..] too: from [/home] the
    output [../proj/out] is [/proj/out]. *)
Example sibling_run_makes_the_directories :
  fst sibling_run = Return tt
  /\ node_at (fs (snd sibling_run))
       [lit "proj"; lit "out"; lit ".claude"; lit "agents"] = Some Dir
  /\ is_file (node_at (fs (snd sibling_run))
                [lit "proj"; lit "out"; lit ".claude"; lit "agents";
                 lit "bot.md"]) = true
  /\ is_file (node_at (fs (snd sibling_run))
                [lit "proj"; lit "out"; lit ".claude"; lit "agents";
                 lit "bot.json"]) = true.
Proof. repeat split; vm_compute; reflexivity. Qed.

(** A directory that is only passed through is made as well:
    [site/../pages/CLAUDE.md] leaves an empty [site] beside [pages]. *)
Example detour_md_run_makes_both :
  fst detour_md_run = Return tt
  /\ node_at (fs (snd detour_md_run)) [lit "home"; lit "site"] = Some Dir
  /\ is_file (node_at (fs (snd detour_md_run))
                [lit "home"; lit "pages"; lit "CLAUDE.md"]) = true.
Proof. repeat split; vm_compute; reflexivity. Qed.

(** Beyond the limits of the platform the run fails.  A file name of more
    than [NAME_MAX] bytes is refused when the [.md] file is opened, a
    directory name of that length when the directory is made: the plain
    [OSError] with [ENAMETOOLONG], and nothing is printed. *)
Example long_name_is_refused :
  fst long_name_run = Raise (OSError ENAMETOOLONG)
  /\ stdout (snd long_name_run) = []
  /\ fst long_output_run = Raise (OSError ENAMETOOLONG)
  /\ fs (snd long_output_run) = fs (busy_world module_heap).
Proof. repeat split; vm_compute; reflexivity. Qed.

(** With 993 directories to make, one inside the other, [Path.mkdir]
    exceeds the recursion limit before it has made any. *)
Example deep_path_exceeds_the_recursion_limit :
  fst (deep_md_run 993) = Raise RecursionError
  /\ fs (snd (deep_md_run 993))
     = fs (busy_world GenerateClaudeMd.module_heap).
Proof. split; vm_compute; reflexivity. Qed.

(** C9.  The registry is not mutated: after any run of [create_subagent]
    with a valid type, whatever its outcome, every object of the heap is
    as it was before, so the module's objects are still as built; the
    record of the selected type still has the placeholder as its name and
    the same tools list; the agent name went into a copy, a new object. *)
Theorem registry_is_not_mutated
    (agent_name agent_type output_dir : str) (w : world) :
  loaded w -> agent_type ∈ agent_types ->
  let w' := snd (create_subagent agent_name agent_type output_dir w) in
  heap w ⊆ heap w' /\ loaded w'
  /\ exists t l,
       view module_heap agent_type = Some t
       /\ heap w' !! t_loc t
          = Some (ODict (record_items (lit "{agent_name}") t))
       /\ heap w' !! t_tools_loc t = Some (OList (map VStr (t_tools t)))
       /\ heap w !! l = None
       /\ heap w' !! l = Some (ODict (record_items agent_name t)).
Proof.
  intros Hl Hty w'. destruct (valid_view _ Hty) as [t Hv].
  assert (Hh : heap w' = <[fresh (dom (heap w)) :=
                             ODict (record_items agent_name t)]> (heap w)).
  { unfold w'. rewrite (loaded_run _ _ _ _ _ Hl Hv). by rewrite emit_heap. }
  assert (Hsub : heap w ⊆ heap w').
  { rewrite Hh. apply insert_subseteq, fresh_loc_None. }
  split; [done|]. split; [by apply loaded_after|].
  destruct (loaded_has_template w _ _ Hl Hv) as (_ & Hrec & Htools & _).
  destruct (view_facts _ _ Hv) as (_ & _ & _ & Hname & _).
  exists t, (fresh (dom (heap w))). split; [done|].
  rewrite Hname in Hrec.
  split; [by eapply lookup_weaken|]. split; [by eapply lookup_weaken|].
  split; [apply fresh_loc_None|]. rewrite Hh. apply lookup_insert_eq.
Qed.

Lemma registry_is_not_mutated_witness :
  heap (fresh_world module_heap) ⊆ heap (snd doc_searcher_run)
  /\ loaded (snd doc_searcher_run)
  /\ exists t l,
       view module_heap (lit "researcher") = Some t
       /\ heap (snd doc_searcher_run) !! t_loc t
          = Some (ODict (record_items (lit "{agent_name}") t))
       /\ heap (snd doc_searcher_run) !! t_tools_loc t
          = Some (OList (map VStr (t_tools t)))
       /\ heap (fresh_world module_heap) !! l = None
       /\ heap (snd doc_searcher_run) !! l
          = Some (ODict (record_items (lit "doc-searcher") t)).
Proof.
  apply (registry_is_not_mutated (lit "doc-searcher") (lit "researcher")
           (lit ".") (fresh_world module_heap)).
  - unfold loaded, fresh_world. cbn [heap]. reflexivity.
  - apply (bool_decide_unpack _). vm_compute. exact I.
Defined.

(** C10.  Rendering is total: whatever the agent name and the four other
    strings are, braces and text that looks like a placeholder included,
    [CLAUDE_CODE_FORMAT.format] returns, and its result is the template
    with each string inserted as it is. *)
Theorem rendering_never_fails
    (agent_name description instructions tools_list autonomy_desc : str) :
  format CLAUDE_CODE_FORMAT
    [(lit "agent_name", VStr agent_name);
     (lit "description", VStr description);
     (lit "instructions", VStr instructions);
     (lit "tools", VStr tools_list);
     (lit "autonomy_description", VStr autonomy_desc)]
  = Return (lit "# " ++ agent_name ++ nl ++ nl
            ++ description ++ nl ++ nl
            ++ lit "## Instructions" ++ nl ++ nl
            ++ instructions ++ nl ++ nl
            ++ lit "## Allowed Tools" ++ nl ++ nl
            ++ tools_list ++ nl ++ nl
            ++ lit "## Autonomy Level" ++ nl ++ nl
            ++ autonomy_desc ++ nl).
Proof. apply format_CLAUDE_CODE_FORMAT. Qed.

(** A name that is itself a placeholder stays as it is, while the same
    text in the format string would have been replaced. *)
Example placeholder_name_is_literal :
  format CLAUDE_CODE_FORMAT
    [(lit "agent_name", VStr (lit "{description}"));
     (lit "description", VStr (lit "D"));
     (lit "instructions", VStr (lit "I"));
     (lit "tools", VStr (lit "T"));
     (lit "autonomy_description", VStr (lit "A"))]
  = Return (text [lit "# {description}"; []; lit "D"; [];
                  lit "## Instructions"; []; lit "I"; [];
                  lit "## Allowed Tools"; []; lit "T"; [];
                  lit "## Autonomy Level"; []; lit "A"; []]).
Proof. vm_compute. reflexivity. Qed.

(** A format string that names a field the call does not give fails. *)
Example missing_field_fails :
  format (lit "{agent_name} {nickname}") [(lit "agent_name", VStr (lit "a"))]
  = Raise (KeyError (lit "nickname")).
Proof. vm_compute. reflexivity. Qed.
(** * Further properties of the two scripts *)

(** ** What a run leaves alone *)

Lemma only_writes_refl T w : only_writes T w w.
Proof.
  split; [done|]. split; [apply dirs_kept_refl|]. intros q data H. by left.
Qed.

Lemma only_writes_trans T w1 w2 w3 :
  only_writes T w1 w2 -> only_writes T w2 w3 -> only_writes T w1 w3.
Proof.
  intros (Hc1 & Hd1 & Hf1) (Hc2 & Hd2 & Hf2).
  split; [congruence|]. split; [by eapply dirs_kept_trans|].
  intros q data Hq. destruct (Hf1 q data Hq) as [Hk|(p & Hp & Hres)].
  - apply Hf2, Hk.
  - right. exists p. split; [done|]. by apply (resolve_mono w2 w3 p q).
Qed.

Lemma only_writes_ext T w w' :
  fs w' = fs w -> cwd w' = cwd w -> only_writes T w w'.
Proof.
  intros Hf Hc. split; [done|]. rewrite Hf.
  split; [apply dirs_kept_refl|]. intros q data H. by left.
Qed.

Lemma confined_same {A} T (m : M A) :
  (forall w, snd (m w) = w) ->
  (forall w, ends_in platform_error (fst (m w))) -> confined T m.
Proof. intros Hs He w. rewrite Hs. split; [apply only_writes_refl|apply He]. Qed.

Lemma confined_ret {A} T (a : A) : confined T (ret a).
Proof. by apply confined_same. Qed.

Lemma confined_raise {A} T e :
  platform_error e = true -> confined T (raise e : M A).
Proof. intros He. by apply confined_same. Qed.

Lemma confined_bind {A B} T (m : M A) (f : A -> M B) :
  confined T m -> (forall a, confined T (f a)) -> confined T (bind m f).
Proof.
  intros Hm Hf w. unfold bind. destruct (Hm w) as [Hw He].
  destruct (m w) as [[a|e|] w1]; simpl in *; try done.
  destruct (Hf a w1) as [Hw1 He1]. split; [|done].
  by eapply only_writes_trans.
Qed.

Lemma confined_try_except {A} T (m : M A) handles handler :
  confined T m ->
  (forall e, platform_error e = true -> confined T (handler e)) ->
  confined T (try_except m handles handler).
Proof.
  intros Hm Hh w. unfold try_except. destruct (Hm w) as [Hw He].
  destruct (m w) as [[a|e|] w1]; simpl in *; try done.
  destruct (handles e); [|done].
  destruct (Hh e He w1) as [Hw1 He1]. split; [|done].
  by eapply only_writes_trans.
Qed.

Lemma confined_fsencode T p : confined T (fsencode p).
Proof.
  apply confined_same; [apply fsencode_state|]. intros w. unfold fsencode.
  destruct (negb _); [done|]. by destruct (existsb _ _).
Qed.

Lemma walk_error f cur comps e :
  walk f cur comps = inl e -> platform_error e = true.
Proof.
  revert cur. induction comps as [|c rest IH]; intros cur; [done|]. simpl.
  destruct (node_at f cur) as [[|data]|]; try by intros [= <-].
  destruct (NAME_MAX <? fs_bytes c); [by intros [= <-]|]. apply IH.
Qed.

Lemma resolve_error w p e : resolve w p = inl e -> platform_error e = true.
Proof.
  unfold resolve. destruct (PATH_MAX <=? _); [by intros [= <-]|].
  apply walk_error.
Qed.

Lemma confined_os_mkdir T p : confined T (os_mkdir p).
Proof.
  unfold os_mkdir. apply confined_bind; [apply confined_fsencode|].
  intros _ w. destruct (resolve w p) as [e|t] eqn:Hres.
  { split; [apply only_writes_refl|]. by apply (resolve_error w p). }
  destruct (node_at (fs w) t) as [n|] eqn:Hn.
  { split; [apply only_writes_refl|done]. }
  split; [|done]. split; [done|]. split; [apply dirs_kept_insert_dir|].
  intros q data Hq. left. unfold set_fs. simpl.
  rewrite node_at_insert_ne; [done|]. congruence.
Qed.

Lemma confined_mkdir_oserror T p ok e :
  platform_error e = true -> confined T (mkdir_oserror p ok e).
Proof.
  intros He. unfold mkdir_oserror. apply confined_bind.
  - apply confined_same; [apply is_dir_state|]. intros w. unfold is_dir.
    destruct (fsencode p w) as [[u|e'|] w1]; try done.
    destruct (resolve w p) as [e'|t] eqn:Hres.
    + destruct (ignore_error e'); [done|]. by apply (resolve_error w p).
    + by destruct (node_at (fs w) t) as [[|data]|].
  - intros d. destruct (_ || _); [by apply confined_raise|apply confined_ret].
Qed.

Lemma confined_mkdir_flat T p ok : confined T (mkdir_flat p ok).
Proof.
  apply confined_try_except; [apply confined_os_mkdir|].
  intros e He. by apply confined_mkdir_oserror.
Qed.

Lemma confined_mkdir_parents T room anch rparts ok :
  confined T (mkdir_parents room anch rparts ok).
Proof.
  revert rparts ok. induction room as [|room IH]; intros rparts ok; simpl;
    [by apply confined_raise|].
  apply confined_try_except; [apply confined_os_mkdir|].
  intros e He. destruct (is_FileNotFoundError e);
    [|by apply confined_mkdir_oserror].
  destruct rparts as [|c rparent]; [by apply confined_raise|].
  apply confined_bind; auto using confined_mkdir_flat.
Qed.

Lemma confined_mkdir T p parents ok : confined T (mkdir p parents ok).
Proof.
  unfold mkdir.
  destruct parents; auto using confined_mkdir_parents, confined_mkdir_flat.
Qed.

Lemma confined_write_text T p data : p ∈ T -> confined T (write_text p data).
Proof.
  intros Hp. unfold write_text. apply confined_bind; [apply confined_fsencode|].
  intros _ w. destruct (resolve w p) as [e|t] eqn:Hres.
  { split; [apply only_writes_refl|]. by apply (resolve_error w p). }
  assert (Hput : forall text,
             node_at (fs w) t <> Some Dir ->
             only_writes T w (set_fs (<[t := File text]> (fs w)) w)).
  { intros text Hnd. split; [done|]. split; [by apply dirs_kept_insert|].
    intros q old Hq. destruct (decide (q = t)) as [->|Hne].
    - right. exists p. split; [done|].
      by apply (read_after_write w p t text).
    - left. unfold set_fs. simpl. by rewrite node_at_insert_ne. }
  destruct (node_at (fs w) t) as [[|old]|] eqn:Hn.
  - split; [apply only_writes_refl|done].
  - destruct (utf8_encodable data); (split; [by apply Hput|done]).
  - destruct (utf8_encodable data); (split; [by apply Hput|done]).
Qed.

Lemma confined_print T s : confined T (print s).
Proof.
  intros w. unfold print. destruct (utf8_encodable s); simpl.
  - split; [by apply only_writes_ext|done].
  - split; [apply only_writes_refl|done].
Qed.

Lemma confined_print_all T lines : confined T (print_all lines).
Proof.
  induction lines as [|line rest IH]; [apply confined_ret|].
  destruct rest as [|next rest]; [apply confined_print|].
  change (confined T (print line ;; print_all (next :: rest))%py).
  apply confined_bind; [apply confined_print|done].
Qed.

Lemma confined_emit n ty out md js :
  confined [agent_file n out; json_file n out] (emit n ty out md js).
Proof.
  unfold emit.
  apply confined_bind; [apply confined_mkdir|intros _].
  apply confined_bind; [apply confined_mkdir|intros _].
  apply confined_bind; [apply confined_write_text; set_solver|intros _].
  apply confined_bind; [apply confined_write_text; set_solver|intros _].
  apply confined_print_all.
Qed.

Lemma confined_emit_md ty out text :
  confined [Path out] (emit_md ty out text).
Proof.
  unfold emit_md.
  apply confined_bind; [apply confined_mkdir|intros _].
  apply confined_bind; [apply confined_write_text; set_solver|intros _].
  apply confined_print_all.
Qed.

Lemma loaded_set_heap_fs w h : fs (set_heap h w) = fs w /\ cwd (set_heap h w) = cwd w.
Proof. by destruct w. Qed.

Lemma create_subagent_confined name ty out w :
  loaded w ->
  only_writes [agent_file name out; json_file name out] w
    (snd (create_subagent name ty out w))
  /\ (ty ∈ agent_types ->
      ends_in platform_error (fst (create_subagent name ty out w))).
Proof.
  intros Hl. destruct (decide (ty ∈ agent_types)) as [Hty|Hty].
  - destruct (valid_view _ Hty) as [t Hv].
    rewrite (loaded_run _ _ _ _ _ Hl Hv).
    match goal with |- context [emit _ _ _ ?md ?js ?w1] =>
      destruct (confined_emit name ty out md js w1) as [Hw He];
      destruct (loaded_set_heap_fs w (heap w1)) as [Hf Hc]
    end.
    split; [|done].
    eapply only_writes_trans; [|exact Hw]. by apply only_writes_ext.
  - rewrite (create_subagent_unknown _ _ _ _ Hl Hty).
    split; [apply only_writes_refl|done].
Qed.

(** X1.  Whatever its outcome, a run of [create_subagent] leaves the working
    directory where it was, removes no directory, and changes the text of
    no file other than the two agent files. *)
Theorem create_subagent_writes_only_its_files
    (agent_name agent_type output_dir : str) (w : world) :
  loaded w ->
  let w' := snd (create_subagent agent_name agent_type output_dir w) in
  cwd w' = cwd w
  /\ (forall q, node_at (fs w) q = Some Dir -> node_at (fs w') q = Some Dir)
  /\ forall q data,
       node_at (fs w) q = Some (File data) ->
       node_at (fs w') q = Some (File data)
       \/ resolve w' (agent_file agent_name output_dir) = inr q
       \/ resolve w' (json_file agent_name output_dir) = inr q.
Proof.
  intros Hl w'.
  destruct (create_subagent_confined agent_name agent_type output_dir w Hl)
    as [(Hc & Hd & Hf) _].
  split; [done|]. split; [exact Hd|]. intros q data Hq.
  destruct (Hf q data Hq) as [Hk|(p & Hp & Hres)]; [by left|right].
  rewrite !elem_of_cons, elem_of_nil in Hp.
  destruct Hp as [->|[->|[]]]; [by left|by right].
Qed.

Lemma create_subagent_writes_only_its_files_witness :
  cwd (snd busy_run) = cwd (busy_world module_heap)
  /\ (forall q, node_at (fs (busy_world module_heap)) q = Some Dir ->
                node_at (fs (snd busy_run)) q = Some Dir)
  /\ forall q data,
       node_at (fs (busy_world module_heap)) q = Some (File data) ->
       node_at (fs (snd busy_run)) q = Some (File data)
       \/ resolve (snd busy_run) (agent_file (lit "doc-searcher") (lit "."))
          = inr q
       \/ resolve (snd busy_run) (json_file (lit "doc-searcher") (lit "."))
          = inr q.
Proof.
  apply (create_subagent_writes_only_its_files (lit "doc-searcher")
           (lit "researcher") (lit ".") (busy_world module_heap)).
  unfold loaded, busy_world. cbn [heap]. reflexivity.
Defined.

(** In the directory in use, the run keeps the notes and the project file
    and replaces the agent file that was there. *)
Example busy_run_keeps_the_notes :
  fst busy_run = Return tt
  /\ read_file (snd busy_run) (Path (lit "notes.txt")) = Some (lit "keep me")
  /\ read_file (snd busy_run) (Path (lit "CLAUDE.md"))
     = Some (lit "old project notes")
  /\ read_file (snd busy_run) (Path (lit ".claude/agents/doc-searcher.md"))
     <> Some (lit "old agent").
Proof.
  split; [vm_compute; reflexivity|]. split; [vm_compute; reflexivity|].
  split; [vm_compute; reflexivity|]. vm_compute. discriminate.
Qed.

Lemma main_default name output_arg w :
  loaded w ->
  main name None output_arg w
  = create_subagent name (lit "researcher") (default (lit ".") output_arg) w.
Proof.
  intros Hl. destruct (loaded_registry w Hl) as (reg & Hreg & Hkeys).
  unfold main. rewrite bind_eq, (keys_eq _ _ _ Hreg). by rewrite bind_eq.
Qed.

Lemma researcher_valid : lit "researcher" ∈ agent_types.
Proof. apply (bool_decide_unpack _). vm_compute. exact I. Qed.



Lemma emit_md_heap ty out text w :
  heap (snd (emit_md ty out text w)) = heap w.
Proof.
  unfold emit_md. revert w.
  apply heap_bind; [intros w; apply fs_only_mkdir | intros _].
  apply heap_bind; [intros w; apply fs_only_write_text | intros _].
  apply print_all_heap.
Qed.

Lemma generate_confined ty out w :
  GenerateClaudeMd.loaded w ->
  heap (snd (GenerateClaudeMd.generate_claude_md ty out w)) = heap w
  /\ only_writes [Path out] w
       (snd (GenerateClaudeMd.generate_claude_md ty out w))
  /\ (ty ∈ project_types ->
      ends_in platform_error
        (fst (GenerateClaudeMd.generate_claude_md ty out w))).
Proof.
  intros Hl. destruct (decide (ty ∈ project_types)) as [Hty|Hty].
  - destruct (valid_template_text _ Hty) as [text Ht].
    rewrite (generate_run _ _ _ _ Hl Ht).
    destruct (confined_emit_md ty out text w) as [Hw He].
    split; [apply emit_md_heap|]. by split.
  - rewrite (generate_claude_md_unknown _ _ _ Hl Hty).
    split; [done|]. split; [apply only_writes_refl|done].
Qed.

(** X3.  Whatever its outcome, a run of [generate_claude_md] leaves the heap
    and the working directory as they were, removes no directory, and
    changes the text of no file other than the one at the output path. *)
Theorem generate_claude_md_writes_only_its_file
    (project_type output_path : str) (w : world) :
  GenerateClaudeMd.loaded w ->
  let w' :=
    snd (GenerateClaudeMd.generate_claude_md project_type output_path w) in
  heap w' = heap w /\ cwd w' = cwd w
  /\ (forall q, node_at (fs w) q = Some Dir -> node_at (fs w') q = Some Dir)
  /\ forall q data,
       node_at (fs w) q = Some (File data) ->
       node_at (fs w') q = Some (File data)
       \/ resolve w' (Path output_path) = inr q.
Proof.
  intros Hl w'.
  destruct (generate_confined project_type output_path w Hl)
    as (Hh & (Hc & Hd & Hf) & _).
  split; [done|]. split; [done|]. split; [exact Hd|]. intros q data Hq.
  destruct (Hf q data Hq) as [Hk|(p & Hp & Hres)]; [by left|right].
  apply list_elem_of_singleton in Hp. by subst p.
Qed.

Lemma generate_claude_md_writes_only_its_file_witness :
  heap (snd busy_md_run) = heap (busy_world GenerateClaudeMd.module_heap)
  /\ cwd (snd busy_md_run) = cwd (busy_world GenerateClaudeMd.module_heap)
  /\ (forall q,
        node_at (fs (busy_world GenerateClaudeMd.module_heap)) q = Some Dir ->
        node_at (fs (snd busy_md_run)) q = Some Dir)
  /\ forall q data,
       node_at (fs (busy_world GenerateClaudeMd.module_heap)) q
       = Some (File data) ->
       node_at (fs (snd busy_md_run)) q = Some (File data)
       \/ resolve (snd busy_md_run) (Path (lit "./CLAUDE.md")) = inr q.
Proof.
  apply (generate_claude_md_writes_only_its_file (lit "library")
           (lit "./CLAUDE.md") (busy_world GenerateClaudeMd.module_heap)).
  unfold GenerateClaudeMd.loaded, busy_world. cbn [heap]. reflexivity.
Defined.

(** In the directory in use, the run replaces the project file and keeps
    the notes and the agent file. *)
Example busy_md_run_replaces_the_project_file :
  fst busy_md_run = Return tt
  /\ read_file (snd busy_md_run) (Path (lit "CLAUDE.md"))
     = Some GenerateClaudeMd.library_template
  /\ read_file (snd busy_md_run) (Path (lit "notes.txt"))
     = Some (lit "keep me")
  /\ read_file (snd busy_md_run) (Path (lit ".claude/agents/doc-searcher.md"))
     = Some (lit "old agent").
Proof. repeat split; vm_compute; reflexivity. Qed.

Lemma generate_main_default output_arg w :
  GenerateClaudeMd.loaded w ->
  GenerateClaudeMd.main None output_arg w
  = GenerateClaudeMd.generate_claude_md (lit "general")
      (default (lit "./CLAUDE.md") output_arg) w.
Proof.
  intros Hl. destruct (loaded_templates w Hl) as (reg & Hreg & Hkeys).
  unfold GenerateClaudeMd.main.
  rewrite bind_eq, (keys_eq _ _ _ Hreg). by rewrite bind_eq.
Qed.

Lemma general_valid : lit "general" ∈ project_types.
Proof. apply (bool_decide_unpack _). vm_compute. exact I. Qed.

(** X4.  With a valid type [generate_claude_md] ends in a result or in an
    error of a platform call: an [OSError] of the file system (one of its
    subclasses, or the plain [OSError] of a name that is too long), the
    [RecursionError] of [Path.mkdir], or the error of encoding the text or
    the path name.  Once argparse has taken the values of [--type] and
    [--output] from the command line, [main] ends so too, or in the exit
    with status 2 on a type that is no choice.  The lookup of the template
    never fails. *)
Theorem project_run_fails_only_on_the_platform
    (project_type output_path : str)
    (type_arg output_arg : option str) (w : world) :
  GenerateClaudeMd.loaded w ->
  (project_type ∈ project_types ->
   ends_in platform_error
     (fst (GenerateClaudeMd.generate_claude_md project_type output_path w)))
  /\ ends_in (fun e => platform_error e || usage_error e)
       (fst (GenerateClaudeMd.main type_arg output_arg w)).
Proof.
  intros Hl. split.
  { apply (generate_confined _ _ _ Hl). }
  assert (Hrun : forall ty out, ty ∈ project_types ->
            ends_in (fun e => platform_error e || usage_error e)
              (fst (GenerateClaudeMd.generate_claude_md ty out w))).
  { intros ty out Hty.
    destruct (generate_confined ty out w Hl) as (_ & _ & He).
    specialize (He Hty).
    destruct (fst (GenerateClaudeMd.generate_claude_md ty out w))
      as [u|e|]; try done.
    simpl in *. by rewrite He. }
  destruct type_arg as [t|].
  - destruct (decide (t ∈ project_types)) as [Hty|Hty].
    + rewrite (generate_main_valid _ _ _ Hl Hty). by apply Hrun.
    + rewrite (generate_main_unknown _ _ _ Hl Hty). done.
  - rewrite (generate_main_default _ _ Hl). apply Hrun, general_valid.
Qed.

Lemma project_run_fails_only_on_the_platform_witness :
  (lit "library" ∈ project_types -> ends_in platform_error (fst busy_md_run))
  /\ ends_in (fun e => platform_error e || usage_error e)
       (fst (GenerateClaudeMd.main None (Some (lit "docs"))
               (busy_world GenerateClaudeMd.module_heap))).
Proof.
  apply (project_run_fails_only_on_the_platform (lit "library")
           (lit "./CLAUDE.md") None (Some (lit "docs"))
           (busy_world GenerateClaudeMd.module_heap)).
  unfold GenerateClaudeMd.loaded, busy_world. cbn [heap]. reflexivity.
Defined.
(** ** What a run writes and prints *)

(** X5.  The [.md] file of a successful run is the format string with the
    agent name as title, the description and the instructions of the
    selected record, one [- tool] line for each of its tools, in their
    order, and the description of its autonomy level. *)
Theorem md_file_is_the_rendering
    (agent_name agent_type output_dir : str) (w w' : world) :
  loaded w -> agent_type ∈ agent_types ->
  create_subagent agent_name agent_type output_dir w = (Return tt, w') ->
  exists t,
    view module_heap agent_type = Some t
    /\ read_file w' (agent_file agent_name output_dir)
       = Some (lit "# " ++ agent_name ++ nl ++ nl
               ++ t_description t ++ nl ++ nl
               ++ lit "## Instructions" ++ nl ++ nl
               ++ t_instructions t ++ nl ++ nl
               ++ lit "## Allowed Tools" ++ nl ++ nl
               ++ join nl (map (fun tool => lit "- " ++ tool) (t_tools t))
               ++ nl ++ nl
               ++ lit "## Autonomy Level" ++ nl ++ nl
               ++ t_autonomy_desc t ++ nl).
Proof.
  intros Hl Hty Hrun. destruct (valid_view _ Hty) as [t Hv]. exists t.
  split; [done|].
  rewrite (loaded_run _ _ _ _ _ Hl Hv) in Hrun. apply emit_Return in Hrun.
  apply holds_read, (em_md _ _ _ _ _ _ _ Hrun).
Qed.

Lemma md_file_is_the_rendering_witness :
  exists t,
    view module_heap (lit "researcher") = Some t
    /\ read_file (snd doc_searcher_run)
         (agent_file (lit "doc-searcher") (lit "."))
       = Some (lit "# " ++ lit "doc-searcher" ++ nl ++ nl
               ++ t_description t ++ nl ++ nl
               ++ lit "## Instructions" ++ nl ++ nl
               ++ t_instructions t ++ nl ++ nl
               ++ lit "## Allowed Tools" ++ nl ++ nl
               ++ join nl (map (fun tool => lit "- " ++ tool) (t_tools t))
               ++ nl ++ nl
               ++ lit "## Autonomy Level" ++ nl ++ nl
               ++ t_autonomy_desc t ++ nl).
Proof.
  apply (md_file_is_the_rendering (lit "doc-searcher") (lit "researcher")
           (lit ".") (fresh_world module_heap) (snd doc_searcher_run)).
  - unfold loaded, fresh_world. cbn [heap]. reflexivity.
  - apply (bool_decide_unpack _). vm_compute. exact I.
  - apply (outcome_Return doc_searcher_run). vm_compute. reflexivity.
Defined.

Lemma print_fs s w :
  fs (snd (print s w)) = fs w /\ cwd (snd (print s w)) = cwd w.
Proof. unfold print. by destruct (utf8_encodable s). Qed.

Lemma print_all_fs lines w :
  fs (snd (print_all lines w)) = fs w /\ cwd (snd (print_all lines w)) = cwd w.
Proof.
  revert w. induction lines as [|line rest IH]; intros w; [done|].
  destruct rest as [|next rest]; [apply print_fs|].
  change (print_all (line :: next :: rest))
    with (print line ;; print_all (next :: rest))%py.
  rewrite bind_eq. pose proof (print_fs line w) as [Hf Hc].
  destruct (print line w) as [[[]|e|] w1]; simpl in *; try done.
  destruct (IH w1) as [Hf1 Hc1]. split; congruence.
Qed.

(** [emit] either stops before anything is printed, or has written both
    files and goes on to print. *)
Lemma emit_steps n ty out md js w :
  stdout (snd (emit n ty out md js w)) = stdout w
  \/ exists w4,
       emit n ty out md js w = print_all (status_lines n ty out) w4
       /\ stdout w4 = stdout w
       /\ holds w4 (agent_file n out) md /\ holds w4 (json_file n out) js.
Proof.
  unfold emit. rewrite bind_eq.
  pose proof (fs_only_mkdir (Path out) true true w) as (_ & _ & Hs1).
  destruct (mkdir (Path out) true true w) as [[[]|e|] w1];
    simpl in Hs1; [|by left|by left].
  rewrite bind_eq.
  pose proof (fs_only_mkdir (agents_dir out) true true w1) as (_ & _ & Hs2).
  destruct (mkdir (agents_dir out) true true w1) as [[[]|e|] w2];
    simpl in Hs2; [|left; simpl; congruence|left; simpl; congruence].
  rewrite bind_eq.
  pose proof (fs_only_write_text (agent_file n out) md w2) as (_ & _ & Hs3).
  destruct (write_text (agent_file n out) md w2) as [[[]|e|] w3] eqn:H3;
    simpl in Hs3; [|left; simpl; congruence|left; simpl; congruence].
  rewrite bind_eq.
  pose proof (fs_only_write_text (json_file n out) js w3) as (_ & _ & Hs4).
  destruct (write_text (json_file n out) js w3) as [[[]|e|] w4] eqn:H4;
    simpl in Hs4; [|left; simpl; congruence|left; simpl; congruence].
  right. exists w4. split; [done|]. split; [congruence|].
  apply write_text_holds in H3 as (Hmd & _).
  apply write_text_holds in H4 as (Hjs & _ & _ & _ & _ & Hother).
  split; [|done]. apply Hother; [done|].
  intros tq t2 Hq Hres2. by eapply files_differ.
Qed.

(** X6.  A confirmation means the files are there: whenever a run with a
    valid type has printed anything, whatever its outcome, both agent
    files hold their text. *)
Theorem confirmation_means_files_written
    (agent_name agent_type output_dir : str) (w : world) :
  loaded w -> agent_type ∈ agent_types ->
  let w' := snd (create_subagent agent_name agent_type output_dir w) in
  stdout w' <> stdout w ->
  exists t,
    view module_heap agent_type = Some t
    /\ read_file w' (agent_file agent_name output_dir)
       = Some (md_text agent_name t)
    /\ read_file w' (json_file agent_name output_dir)
       = Some (json_text agent_name t).
Proof.
  intros Hl Hty w' Hout. destruct (valid_view _ Hty) as [t Hv]. exists t.
  split; [done|]. unfold w' in *.
  rewrite (loaded_run _ _ _ _ _ Hl Hv) in *.
  match type of Hout with context [emit _ _ _ ?md ?js ?w1] =>
    destruct (emit_steps agent_name agent_type output_dir md js w1)
      as [Hs|(w4 & Hrun & Hs & Hmd & Hjs)]
  end.
  { by destruct w. }
  rewrite Hrun.
  destruct (print_all_fs (status_lines agent_name agent_type output_dir) w4)
    as [Hf Hc].
  split; apply holds_read; by eapply holds_ext.
Qed.

Lemma confirmation_means_files_written_witness :
  exists t,
    view module_heap (lit "researcher") = Some t
    /\ read_file (snd busy_run) (agent_file (lit "doc-searcher") (lit "."))
       = Some (md_text (lit "doc-searcher") t)
    /\ read_file (snd busy_run) (json_file (lit "doc-searcher") (lit "."))
       = Some (json_text (lit "doc-searcher") t).
Proof.
  apply (confirmation_means_files_written (lit "doc-searcher")
           (lit "researcher") (lit ".") (busy_world module_heap)).
  - unfold loaded, busy_world. cbn [heap]. reflexivity.
  - apply (bool_decide_unpack _). vm_compute. exact I.
  - apply (bool_decide_unpack _). vm_compute. exact I.
Defined.

(** X7.  A successful run of [create_subagent] prints these nine lines, in
    this order, after what was printed before: the name, the type and the
    path of the [.md] file as pathlib writes it, the next steps and a
    usage example. *)
Theorem create_subagent_prints_the_confirmation
    (agent_name agent_type output_dir : str) (w w' : world) :
  loaded w ->
  create_subagent agent_name agent_type output_dir w = (Return tt, w') ->
  stdout w'
  = stdout w
    ++ [9989%N :: lit " Created subagent: " ++ agent_name;
        lit "   Type: " ++ agent_type;
        lit "   Location: " ++ path_str (agent_file agent_name output_dir);
        nl ++ 128221%N :: lit " Next steps:";
        lit "   1. Review and customize "
          ++ path_str (agent_file agent_name output_dir);
        lit "   2. Use in Claude Code with: /agent " ++ agent_name;
        lit "   3. Commit to version control";
        nl ++ 128161%N :: lit " Usage example:";
        lit "   /agent " ++ agent_name ++ lit " [your task description]"].
Proof.
  intros Hl Hrun. pose proof (Return_valid _ _ _ _ _ Hl Hrun) as Hty.
  destruct (valid_view _ Hty) as [t Hv].
  rewrite (loaded_run _ _ _ _ _ Hl Hv) in Hrun. apply emit_Return in Hrun.
  rewrite (em_stdout _ _ _ _ _ _ _ Hrun). by destruct w.
Qed.

Lemma create_subagent_prints_the_confirmation_witness :
  stdout (snd doc_searcher_run)
  = stdout (fresh_world module_heap)
    ++ [9989%N :: lit " Created subagent: " ++ lit "doc-searcher";
        lit "   Type: " ++ lit "researcher";
        lit "   Location: "
          ++ path_str (agent_file (lit "doc-searcher") (lit "."));
        nl ++ 128221%N :: lit " Next steps:";
        lit "   1. Review and customize "
          ++ path_str (agent_file (lit "doc-searcher") (lit "."));
        lit "   2. Use in Claude Code with: /agent " ++ lit "doc-searcher";
        lit "   3. Commit to version control";
        nl ++ 128161%N :: lit " Usage example:";
        lit "   /agent " ++ lit "doc-searcher"
          ++ lit " [your task description]"].
Proof.
  apply (create_subagent_prints_the_confirmation (lit "doc-searcher")
           (lit "researcher") (lit ".") (fresh_world module_heap)
           (snd doc_searcher_run)).
  - unfold loaded, fresh_world. cbn [heap]. reflexivity.
  - apply (outcome_Return doc_searcher_run). vm_compute. reflexivity.
Defined.

(** With the default output the location printed has no leading [./]. *)
Example doc_searcher_location :
  nth_error (stdout (snd doc_searcher_run)) 2
  = Some (lit "   Location: .claude/agents/doc-searcher.md").
Proof. vm_compute. reflexivity. Qed.

(** Two leading slashes of the output are printed as given, three or more
    as one. *)
Example double_slash_location :
  fst double_slash_run = Return tt
  /\ nth_error (stdout (snd double_slash_run)) 2
     = Some (lit "   Location: //srv/x/.claude/agents/bot.md")
  /\ path_str (agent_file (lit "bot") (lit "///srv/x"))
     = lit "/srv/x/.claude/agents/bot.md".
Proof. repeat split; vm_compute; reflexivity. Qed.

(** X8.  A successful run of [generate_claude_md] prints these six lines after
    what was printed before; the output path is printed as it was given. *)
Theorem generate_claude_md_prints_the_confirmation
    (project_type output_path : str) (w w' : world) :
  GenerateClaudeMd.loaded w -> project_type ∈ project_types ->
  GenerateClaudeMd.generate_claude_md project_type output_path w
  = (Return tt, w') ->
  stdout w'
  = stdout w
    ++ [9989%N :: lit " Generated CLAUDE.md at " ++ output_path;
        lit "   Template: " ++ project_type;
        nl ++ 128221%N :: lit " Next steps:";
        lit "   1. Review and customize the generated CLAUDE.md";
        lit "   2. Fill in project-specific details";
        lit "   3. Commit it to your repository"].
Proof.
  intros Hl Hty Hrun. destruct (valid_template_text _ Hty) as [text Ht].
  rewrite (generate_run _ _ _ _ Hl Ht) in Hrun. apply emit_md_Return in Hrun.
  apply (gen_stdout _ _ _ _ _ Hrun).
Qed.

Lemma generate_claude_md_prints_the_confirmation_witness :
  stdout (snd busy_md_run)
  = stdout (busy_world GenerateClaudeMd.module_heap)
    ++ [9989%N :: lit " Generated CLAUDE.md at " ++ lit "./CLAUDE.md";
        lit "   Template: " ++ lit "library";
        nl ++ 128221%N :: lit " Next steps:";
        lit "   1. Review and customize the generated CLAUDE.md";
        lit "   2. Fill in project-specific details";
        lit "   3. Commit it to your repository"].
Proof.
  apply (generate_claude_md_prints_the_confirmation (lit "library")
           (lit "./CLAUDE.md") (busy_world GenerateClaudeMd.module_heap)
           (snd busy_md_run)).
  - unfold GenerateClaudeMd.loaded, busy_world. cbn [heap]. reflexivity.
  - apply (bool_decide_unpack _). vm_compute. exact I.
  - apply (outcome_Return busy_md_run). vm_compute. reflexivity.
Defined.
(** ** The command lines *)

(** X9.  What [--type] and [--output] default to.  Without [--type] the
    [main] of either script runs its function with [researcher] (for
    agents) or [general] (for projects), which are keys of the registry;
    with a key of the registry it runs it with that key; the output is
    the one given, or else [.] (for agents) or [./CLAUDE.md] (for
    projects). *)
Theorem defaults_of_the_command_lines
    (agent_name : str) (output_arg : option str) (wa wg : world) :
  loaded wa -> GenerateClaudeMd.loaded wg ->
  (lit "researcher" ∈ agent_types
   /\ main agent_name None output_arg wa
      = create_subagent agent_name (lit "researcher")
          (default (lit ".") output_arg) wa
   /\ forall t, t ∈ agent_types ->
        main agent_name (Some t) output_arg wa
        = create_subagent agent_name t (default (lit ".") output_arg) wa)
  /\ (lit "general" ∈ project_types
      /\ GenerateClaudeMd.main None output_arg wg
         = GenerateClaudeMd.generate_claude_md (lit "general")
             (default (lit "./CLAUDE.md") output_arg) wg
      /\ forall t, t ∈ project_types ->
           GenerateClaudeMd.main (Some t) output_arg wg
           = GenerateClaudeMd.generate_claude_md t
               (default (lit "./CLAUDE.md") output_arg) wg).
Proof.
  intros Hla Hlg. split; (split; [auto using researcher_valid, general_valid|]).
  - split; [by apply main_default|]. intros t Ht. by apply main_valid.
  - split; [by apply generate_main_default|].
    intros t Ht. by apply generate_main_valid.
Qed.

Lemma defaults_of_the_command_lines_witness :
  (lit "researcher" ∈ agent_types
   /\ main (lit "doc-searcher") None None (fresh_world module_heap)
      = doc_searcher_run
   /\ forall t, t ∈ agent_types ->
        main (lit "doc-searcher") (Some t) None (fresh_world module_heap)
        = create_subagent (lit "doc-searcher") t (lit ".")
            (fresh_world module_heap))
  /\ (lit "general" ∈ project_types
      /\ GenerateClaudeMd.main None None
           (fresh_world GenerateClaudeMd.module_heap)
         = GenerateClaudeMd.generate_claude_md (lit "general")
             (lit "./CLAUDE.md") (fresh_world GenerateClaudeMd.module_heap)
      /\ forall t, t ∈ project_types ->
           GenerateClaudeMd.main (Some t) None
             (fresh_world GenerateClaudeMd.module_heap)
           = GenerateClaudeMd.generate_claude_md t (lit "./CLAUDE.md")
               (fresh_world GenerateClaudeMd.module_heap)).
Proof.
  apply (defaults_of_the_command_lines (lit "doc-searcher") None
           (fresh_world module_heap)
           (fresh_world GenerateClaudeMd.module_heap)).
  - unfold loaded, fresh_world. cbn [heap]. reflexivity.
  - unfold GenerateClaudeMd.loaded, fresh_world. cbn [heap]. reflexivity.
Defined.
(** ** Outputs that cannot be written *)

Lemma forallb_removelast {A} (f : A -> bool) xs :
  forallb f xs = true -> forallb f (removelast xs) = true.
Proof.
  induction xs as [|x [|y ys] IH]; [done|done|].
  intros [Hx Hxs]%andb_true_iff.
  change (removelast (x :: y :: ys)) with (x :: removelast (y :: ys)).
  simpl. rewrite Hx. by apply IH.
Qed.

Lemma existsb_removelast {A} (f : A -> bool) xs :
  existsb f xs = false -> existsb f (removelast xs) = false.
Proof.
  induction xs as [|x [|y ys] IH]; [done|done|].
  intros [Hx Hxs]%orb_false_iff.
  change (removelast (x :: y :: ys)) with (x :: removelast (y :: ys)).
  simpl. rewrite Hx. by apply IH.
Qed.

Lemma path_ok_parent p : path_ok p = true -> path_ok (parent p) = true.
Proof.
  unfold path_ok, parent. cbn [parts].
  intros [H1 H2%negb_true_iff]%andb_true_iff.
  by rewrite forallb_removelast, existsb_removelast.
Qed.

Lemma walk_last f cur init c t :
  walk f cur (init ++ [c]) = inr t ->
  exists d, walk f cur init = inr d /\ node_at f d = Some Dir.
Proof.
  rewrite walk_app. destruct (walk f cur init) as [e|d]; [done|].
  simpl. destruct (node_at f d) as [[|data]|] eqn:Hd; try done.
  intros _. by exists d.
Qed.

Lemma removelast_snoc' {A} (xs : list A) x : removelast (xs ++ [x]) = xs.
Proof. by rewrite removelast_app, app_nil_r. Qed.

(** The directory a directory is in is a directory. *)
Lemma names_dir_parent w p : names_dir w p -> names_dir w (parent p).
Proof.
  intros (Hok & t & Hres & Hnode). split; [by apply path_ok_parent|].
  destruct p as [anch comps]. unfold parent. cbn [anchored parts].
  induction comps as [|c init _] using rev_ind.
  { exists t. by split. }
  rewrite removelast_snoc'.
  apply resolve_inr in Hres as [Hshort Hw].
  pose proof (short_path_init _ _ _ Hshort) as Hshort'.
  unfold os_comps in Hw. cbn [anchored parts] in Hw.
  assert (Hw' : walk (fs w) (start_of w anch) (init ++ [c]) = inr t).
  { destruct (rooted anch); [done|]. destruct (init ++ [c]) eqn:E; [|done].
    by destruct init. }
  apply walk_last in Hw' as (d & Hd & Hdir).
  rewrite (resolve_short _ _ Hshort'). unfold os_comps.
  cbn [anchored parts]. unfold start_of in *.
  destruct (rooted anch).
  - exists d. by split.
  - destruct init as [|i init]; [|exists d; by split].
    simpl in Hd. injection Hd as <-. exists (cwd w). split; [|done].
    simpl. rewrite Hdir. unfold step, str_eqb.
    by rewrite bool_decide_eq_true_2.
Qed.

Lemma write_text_on_dir p data w :
  names_dir w p -> write_text p data w = (Raise IsADirectoryError, w).
Proof.
  intros (Hok & t & Hres & Hnode). unfold write_text.
  by rewrite bind_eq, (fsencode_ok _ _ Hok), Hres, Hnode.
Qed.

(** X10.  An output path that names a directory is rejected: with a valid type
    [generate_claude_md] raises [IsADirectoryError] and leaves the world
    as it was; no file is made inside that directory and nothing is
    printed. *)
Theorem output_directory_is_rejected
    (project_type output_path : str) (w : world) :
  GenerateClaudeMd.loaded w -> project_type ∈ project_types ->
  names_dir w (Path output_path) ->
  GenerateClaudeMd.generate_claude_md project_type output_path w
  = (Raise IsADirectoryError, w).
Proof.
  intros Hl Hty Hdir. destruct (valid_template_text _ Hty) as [text Ht].
  rewrite (generate_run _ _ _ _ Hl Ht). unfold emit_md.
  rewrite bind_eq, (mkdir_existing _ _ (names_dir_parent _ _ Hdir)).
  by rewrite bind_eq, (write_text_on_dir _ _ _ Hdir).
Qed.

Lemma docs_is_a_directory :
  names_dir (busy_world GenerateClaudeMd.module_heap) (Path (lit "docs")).
Proof.
  split; [vm_compute; reflexivity|].
  exists [lit "home"; lit "docs"]. split; vm_compute; reflexivity.
Qed.

Lemma output_directory_is_rejected_witness :
  GenerateClaudeMd.generate_claude_md (lit "general") (lit "docs")
    (busy_world GenerateClaudeMd.module_heap)
  = (Raise IsADirectoryError, busy_world GenerateClaudeMd.module_heap).
Proof.
  apply (output_directory_is_rejected (lit "general") (lit "docs")
           (busy_world GenerateClaudeMd.module_heap)).
  - unfold GenerateClaudeMd.loaded, busy_world. cbn [heap]. reflexivity.
  - apply (bool_decide_unpack _). vm_compute. exact I.
  - split; [vm_compute; reflexivity|].
    exists [lit "home"; lit "docs"]. split; vm_compute; reflexivity.
Defined.

Lemma is_dir_on_file p data w : holds w p data -> is_dir p w = (Return false, w).
Proof.
  intros (Hok & t & Hres & Hnode). unfold is_dir.
  by rewrite (fsencode_ok _ _ Hok), Hres, Hnode.
Qed.

Lemma os_mkdir_on_file p data w :
  holds w p data -> os_mkdir p w = (Raise FileExistsError, w).
Proof.
  intros (Hok & t & Hres & Hnode). unfold os_mkdir.
  by rewrite bind_eq, (fsencode_ok _ _ Hok), Hres, Hnode.
Qed.

Lemma mkdir_on_file p data w :
  holds w p data -> mkdir p true true w = (Raise FileExistsError, w).
Proof.
  intros Hfile. destruct p as [anch comps]. unfold mkdir.
  cbn [anchored parts]. rewrite mkdir_room_S, mkdir_parents_S, rev_involutive.
  unfold try_except. rewrite (os_mkdir_on_file _ _ _ Hfile).
  cbn [is_OSError is_FileNotFoundError]. unfold mkdir_oserror.
  by rewrite bind_eq, (is_dir_on_file _ _ _ Hfile).
Qed.

(** X11.  An output directory that names a file is rejected: with a valid type
    [create_subagent] raises [FileExistsError]; the file system is as it
    was and nothing is printed. *)
Theorem output_file_is_in_the_way
    (agent_name agent_type output_dir data : str) (w : world) :
  loaded w -> agent_type ∈ agent_types ->
  holds w (Path output_dir) data ->
  exists w',
    create_subagent agent_name agent_type output_dir w
    = (Raise FileExistsError, w')
    /\ fs w' = fs w /\ cwd w' = cwd w /\ stdout w' = stdout w.
Proof.
  intros Hl Hty Hfile. destruct (valid_view _ Hty) as [t Hv].
  rewrite (loaded_run _ _ _ _ _ Hl Hv). eexists. split.
  - unfold emit. rewrite bind_eq, (mkdir_on_file _ data); [done|].
    eapply holds_ext; [| |exact Hfile]; by destruct w.
  - by destruct w.
Qed.

Lemma output_file_is_in_the_way_witness :
  exists w',
    create_subagent (lit "doc-searcher") (lit "researcher") (lit "notes.txt")
      (busy_world module_heap)
    = (Raise FileExistsError, w')
    /\ fs w' = fs (busy_world module_heap)
    /\ cwd w' = cwd (busy_world module_heap)
    /\ stdout w' = stdout (busy_world module_heap).
Proof.
  apply (output_file_is_in_the_way (lit "doc-searcher") (lit "researcher")
           (lit "notes.txt") (lit "keep me") (busy_world module_heap)).
  - unfold loaded, busy_world. cbn [heap]. reflexivity.
  - apply (bool_decide_unpack _). vm_compute. exact I.
  - split; [vm_compute; reflexivity|].
    exists [lit "home"; lit "notes.txt"]. split; vm_compute; reflexivity.
Defined.
(** ** Agent names that are paths *)

Lemma is_absolute_ext n ext : is_absolute n = true -> is_absolute (n ++ ext) = true.
Proof. by destruct n. Qed.

(** X12.  The agent name is joined to the agents directory as a path.  A name
    that starts with [/] replaces that directory in the path of the two
    files: after a successful run, whatever the output directory is, the
    absolute paths [agent_name.md] and [agent_name.json] hold the two
    texts.  (Whether that place is inside the output directory depends on
    the name alone.) *)
Theorem absolute_name_replaces_the_agents_directory
    (agent_name agent_type output_dir : str) (w w' : world) :
  loaded w -> is_absolute agent_name = true ->
  create_subagent agent_name agent_type output_dir w = (Return tt, w') ->
  exists t,
    view module_heap agent_type = Some t
    /\ read_file w' (Path (agent_name ++ lit ".md"))
       = Some (md_text agent_name t)
    /\ read_file w' (Path (agent_name ++ lit ".json"))
       = Some (json_text agent_name t).
Proof.
  intros Hl Habs Hrun. pose proof (Return_valid _ _ _ _ _ Hl Hrun) as Hty.
  destruct (valid_view _ Hty) as [t Hv]. exists t. split; [done|].
  rewrite (loaded_run _ _ _ _ _ Hl Hv) in Hrun. apply emit_Return in Hrun.
  pose proof (em_md _ _ _ _ _ _ _ Hrun) as Hmd.
  pose proof (em_json _ _ _ _ _ _ _ Hrun) as Hjs.
  unfold agent_file, json_file, joinpath in Hmd, Hjs.
  rewrite (is_absolute_ext _ (lit ".md") Habs) in Hmd.
  rewrite (is_absolute_ext _ (lit ".json") Habs) in Hjs.
  split; by apply holds_read.
Qed.

Lemma absolute_name_replaces_the_agents_directory_witness :
  exists t,
    view module_heap (lit "tester") = Some t
    /\ read_file (snd escaping_run) (Path (lit "/home/docs/bot" ++ lit ".md"))
       = Some (md_text (lit "/home/docs/bot") t)
    /\ read_file (snd escaping_run)
         (Path (lit "/home/docs/bot" ++ lit ".json"))
       = Some (json_text (lit "/home/docs/bot") t).
Proof.
  apply (absolute_name_replaces_the_agents_directory (lit "/home/docs/bot")
           (lit "tester") (lit "out") (busy_world module_heap)
           (snd escaping_run)).
  - unfold loaded, busy_world. cbn [heap]. reflexivity.
  - vm_compute. reflexivity.
  - apply (outcome_Return escaping_run). vm_compute. reflexivity.
Defined.

(** The run makes the agents directory under [out] all the same; the
    files are in [/home/docs]. *)
Example escaping_run_writes_elsewhere :
  fst escaping_run = Return tt
  /\ node_at (fs (snd escaping_run))
       [lit "home"; lit "out"; lit ".claude"; lit "agents"] = Some Dir
  /\ read_file (snd escaping_run) (Path (lit "out/.claude/agents/bot.md"))
     = None
  /\ is_file (node_at (fs (snd escaping_run))
                [lit "home"; lit "docs"; lit "bot.md"]) = true
  /\ is_file (node_at (fs (snd escaping_run))
                [lit "home"; lit "docs"; lit "bot.json"]) = true.
Proof. repeat split; vm_compute; reflexivity. Qed.
(** ** The text of the [.json] file *)

Lemma ascii_only_app a b : ascii_only (a ++ b) = ascii_only a && ascii_only b.
Proof. apply forallb_app. Qed.

Lemma hex_digit_below d : (d < 16)%N -> (hex_digit d <? 128)%N = true.
Proof.
  intros H. apply N.ltb_lt. unfold hex_digit. destruct (d <? 10)%N; lia.
Qed.

Lemma hex4_ascii_only n : ascii_only (hex4 n) = true.
Proof.
  unfold hex4. cbn [ascii_only forallb].
  rewrite !hex_digit_below by (apply N.mod_lt; lia). reflexivity.
Qed.

Lemma escape_char_ascii_only c : ascii_only (escape_char c) = true.
Proof.
  unfold escape_char.
  repeat match goal with
         | |- context [if (c =? ?k)%N then _ else _] =>
             destruct (c =? k)%N; [reflexivity|]
         end.
  destruct ((32 <=? c) && (c <=? 126))%N eqn:E.
  - apply andb_true_iff in E as [_ E%N.leb_le]. cbn [ascii_only forallb].
    rewrite (proj2 (N.ltb_lt c 128)) by lia. reflexivity.
  - destruct (c <? 65536)%N;
      by rewrite !ascii_only_app, !hex4_ascii_only.
Qed.

Lemma encode_str_ascii_only s : ascii_only (encode_str s) = true.
Proof.
  unfold encode_str. rewrite !ascii_only_app.
  cbn [dq ascii_only forallb]. rewrite andb_true_r.
  induction s as [|c s IH]; [done|].
  cbn [flat_map]. fold (ascii_only (escape_char c ++ flat_map escape_char s)).
  rewrite ascii_only_app, escape_char_ascii_only. exact IH.
Qed.

Lemma ascii_only_join sep xs :
  ascii_only sep = true -> forallb ascii_only xs = true ->
  ascii_only (join sep xs) = true.
Proof.
  intros Hsep. induction xs as [|x [|y ys] IH]; [done|..].
  - simpl. by rewrite andb_true_r.
  - intros [Hx Hxs]%andb_true_iff.
    change (join sep (x :: y :: ys)) with (x ++ sep ++ join sep (y :: ys)).
    by rewrite !ascii_only_app, Hx, Hsep, IH.
Qed.

Lemma array_text_ascii_only xs : ascii_only (array_text xs) = true.
Proof.
  destruct xs as [|x xs]; [done|]. unfold array_text.
  rewrite !ascii_only_app, ascii_only_join; [done|done|].
  rewrite forallb_forall. intros e (s & <- & _)%in_map_iff.
  apply encode_str_ascii_only.
Qed.

Lemma json_text_ascii_only name t : ascii_only (json_text name t) = true.
Proof.
  unfold json_text.
  by rewrite !ascii_only_app, !encode_str_ascii_only, array_text_ascii_only.
Qed.

(** X13.  The [.json] file of a successful run is ASCII whatever the agent
    name is: [json.dumps] is called without [ensure_ascii=False], so every
    other character of the name is written as a [\u] escape. *)
Theorem json_file_is_ascii
    (agent_name agent_type output_dir : str) (w w' : world) :
  loaded w ->
  create_subagent agent_name agent_type output_dir w = (Return tt, w') ->
  exists written,
    read_file w' (json_file agent_name output_dir) = Some written
    /\ ascii_only written = true.
Proof.
  intros Hl Hrun. pose proof (Return_valid _ _ _ _ _ Hl Hrun) as Hty.
  destruct (valid_view _ Hty) as [t Hv].
  rewrite (loaded_run _ _ _ _ _ Hl Hv) in Hrun. apply emit_Return in Hrun.
  exists (json_text agent_name t). split.
  - apply holds_read, (em_json _ _ _ _ _ _ _ Hrun).
  - apply json_text_ascii_only.
Qed.

Lemma json_file_is_ascii_witness :
  exists written,
    read_file (snd accented_run) (json_file [233; 8364; 128512]%N (lit "."))
    = Some written
    /\ ascii_only written = true.
Proof.
  apply (json_file_is_ascii [233; 8364; 128512]%N (lit "builder") (lit ".")
           (fresh_world module_heap) (snd accented_run)).
  - unfold loaded, fresh_world. cbn [heap]. reflexivity.
  - apply (outcome_Return accented_run). vm_compute. reflexivity.
Defined.

(** The name of that agent in its [.json] file; the emoji is a surrogate
    pair. *)
Example accented_name_is_escaped :
  exists written,
    read_file (snd accented_run) (json_file [233; 8364; 128512]%N (lit "."))
    = Some written
    /\ substring (dq ++ lit "name" ++ dq ++ lit ": " ++ dq
                  ++ lit "\u00e9\u20ac\ud83d\ude00" ++ dq) written.
Proof.
  eexists. split; [vm_compute; reflexivity|].
  match goal with |- substring ?n ?h =>
    exists (take 4 h), (drop (4 + length n) h) end.
  vm_compute. reflexivity.
Qed.

(** ** Running [generate_claude_md] again *)

(** X14.  Running [generate_claude_md] again in the world a successful run has
    left succeeds and changes no file and no directory: the parent
    directory that exists is no error and the file is written over with
    the same text. *)
Theorem generate_again_changes_nothing
    (project_type output_path : str) (w w1 : world) :
  GenerateClaudeMd.loaded w -> project_type ∈ project_types ->
  GenerateClaudeMd.generate_claude_md project_type output_path w
  = (Return tt, w1) ->
  exists w2,
    GenerateClaudeMd.generate_claude_md project_type output_path w1
    = (Return tt, w2)
    /\ fs w2 = fs w1 /\ heap w2 = heap w1.
Proof.
  intros Hl Hty Hrun. destruct (valid_template_text _ Hty) as [text Ht].
  destruct (template_text_encodable _ _ Ht) as [Htext _].
  rewrite (generate_run _ _ _ _ Hl Ht) in Hrun.
  pose proof Hrun as Hgen. apply emit_md_Return in Hgen.
  assert (Hlines : forallb utf8_encodable
                     (generate_lines project_type output_path) = true).
  { unfold emit_md in Hrun.
    apply bind_Return_inv in Hrun as ([] & wa & _ & Hrun).
    apply bind_Return_inv in Hrun as ([] & wb & _ & Hrun).
    by apply print_all_Return in Hrun as [Hlines _]. }
  assert (Hl1 : GenerateClaudeMd.loaded w1).
  { unfold GenerateClaudeMd.loaded. by rewrite (gen_heap _ _ _ _ _ Hgen). }
  rewrite (generate_run _ _ _ _ Hl1 Ht). unfold emit_md. eexists.
  rewrite bind_eq, (mkdir_existing _ _ (gen_parent _ _ _ _ _ Hgen)).
  rewrite bind_eq, (holds_rewrite _ _ _ (gen_file _ _ _ _ _ Hgen) Htext).
  rewrite (print_all_eq _ _ Hlines). by destruct w1.
Qed.

Lemma generate_again_changes_nothing_witness :
  exists w2,
    GenerateClaudeMd.generate_claude_md (lit "library") (lit "./CLAUDE.md")
      (snd busy_md_run)
    = (Return tt, w2)
    /\ fs w2 = fs (snd busy_md_run) /\ heap w2 = heap (snd busy_md_run).
Proof.
  apply (generate_again_changes_nothing (lit "library") (lit "./CLAUDE.md")
           (busy_world GenerateClaudeMd.module_heap) (snd busy_md_run)).
  - unfold GenerateClaudeMd.loaded, busy_world. cbn [heap]. reflexivity.
  - apply (bool_decide_unpack _). vm_compute. exact I.
  - apply (outcome_Return busy_md_run). vm_compute. reflexivity.
Defined.
(** ** An agent name with a directory part *)

Lemma split_on_sep d rest :
  Forall (fun c => c <> slash) d ->
  split_on slash (d ++ slash :: rest) = d :: split_on slash rest.
Proof.
  induction 1 as [|c d Hc _ IH].
  - done.
  - simpl. rewrite (proj2 (N.eqb_neq c slash) Hc). by rewrite IH.
Qed.

(** The parts of [agents_dir / (d/n.ext)]. *)
Lemma nested_file_parts p d n ext :
  safe_name d = true -> d <> [] -> d <> dot ->
  safe_name n = true ->
  Forall (fun c => c <> slash) ext -> 2 < length ext ->
  joinpath p (d ++ slash :: n ++ ext)
  = MkPath (anchored p) (parts p ++ [d; n ++ ext]).
Proof.
  intros (_ & _ & Hd)%safe_name_spec Hne Hdot (_ & _ & Hn)%safe_name_spec
    Hx Hlen.
  unfold joinpath.
  assert (Habs : is_absolute (d ++ slash :: n ++ ext) = false).
  { destruct d as [|c d]; [done|]. simpl. apply N.eqb_neq.
    by apply Forall_cons in Hd as [Hc _]. }
  rewrite Habs. f_equal. f_equal. unfold parse_parts.
  rewrite split_on_sep by done.
  rewrite split_on_nosep by (by apply Forall_app).
  rewrite filter_cons_True by done.
  rewrite filter_cons_True; [done|].
  split; intros E%(f_equal length); rewrite length_app in E; simpl in E; lia.
Qed.

Lemma dir_name_parts p d :
  Forall (fun c => c <> slash) d -> d <> [] -> d <> dot ->
  joinpath p d = MkPath (anchored p) (parts p ++ [d]).
Proof.
  intros Hd Hne Hdot. unfold joinpath.
  assert (Habs : is_absolute d = false).
  { destruct Hd as [|c s Hc _]; [done|]. simpl. by apply N.eqb_neq. }
  rewrite Habs. f_equal. f_equal. unfold parse_parts.
  rewrite split_on_nosep by done. by rewrite filter_cons_True.
Qed.

Lemma absent_spec w p :
  absent w p = true ->
  node_at (fs w) (place (start_of w (anchored p)) (parts p)) = None
  /\ forall k, k < length (parts p) ->
       place (start_of w (anchored p)) (take k (parts p))
       <> place (start_of w (anchored p)) (parts p).
Proof.
  unfold absent. intros [[_ Hoff]%not_dir_spec H]%andb_true_iff.
  split; [|done]. by destruct (node_at _ _).
Qed.

(** X15.  The agent name is not made into directories.  With a name [d/n]
    whose directory part [d] is an ordinary name, where nothing is at the
    place of [d] in the agents directory and the path of the [.md] file
    is one a system call takes, the run fails: the output and agents
    directories are made, and are there afterwards, then the write of the
    [.md] file raises [FileNotFoundError]; no file is written and nothing
    is printed. *)
Theorem name_with_directory_needs_the_directory
    (d n agent_type output_dir : str) (w : world) :
  loaded w -> agent_type ∈ agent_types ->
  safe_name d = true -> d <> [] -> d <> dot -> d <> dotdot ->
  safe_name n = true ->
  plain_path (Path output_dir) = true ->
  way_clear w (agents_dir output_dir) = true ->
  short_path (agent_file (d ++ slash :: n) output_dir) = true ->
  absent w (joinpath (agents_dir output_dir) d) = true ->
  exists w',
    create_subagent (d ++ slash :: n) agent_type output_dir w
    = (Raise FileNotFoundError, w')
    /\ dirs_exist w' (agents_dir output_dir)
    /\ stdout w' = stdout w
    /\ forall q data,
         node_at (fs w') q = Some (File data) ->
         node_at (fs w) q = Some (File data).
Proof.
  intros Hl Hty Hd Hdne Hdot Hdotdot Hn Hout Hclear Hshort Hmissing.
  destruct (valid_view _ Hty) as [t Hv].
  rewrite (loaded_run _ _ _ _ _ Hl Hv).
  set (w0 := set_heap _ w).
  assert (Hplain : plain_path (agents_dir output_dir) = true).
  { rewrite agents_dir_parts. unfold plain_path in *. cbn [parts Path] in *.
    by rewrite forallb_app, Hout. }
  pose proof (safe_name_bytes _ Hd) as Hdlen.
  destruct (safe_name_spec _ Hd) as (Hd8 & Hd0 & Hdslash).
  rewrite (dir_name_parts _ d) in Hmissing by done.
  apply absent_spec in Hmissing as [Hmissing Hoff].
  destruct (agents_dir_total output_dir w0 Hplain)
    as (w1 & w2 & Hrun1 & Hrun2 & Hdm).
  { by destruct w. }
  change (start_of w0 (anchor_of output_dir))
    with (start_of w (anchor_of output_dir)) in *.
  pose proof Hdm as (Hh & Hc & Hs & Hdirs & Hrest).
  change (fs w0) with (fs w) in *.
  assert (Hst : start_of w2 (anchor_of output_dir)
                = start_of w (anchor_of output_dir))
    by (unfold start_of; change (cwd w) with (cwd w0); by rewrite Hc).
  exists w2. split; [|split; [|split]].
  - unfold emit. rewrite bind_eq, Hrun1, bind_eq, Hrun2, bind_eq.
    unfold agent_file in *. destruct ext_md_ok as [Hm1 Hm2].
    change (d ++ slash :: n) with (d ++ [slash] ++ n) in *.
    rewrite <- !app_assoc in *. cbn [app] in *. fold ext_md in *.
    rewrite (nested_file_parts _ d n ext_md) in * by done.
    rewrite agents_dir_parts in *. cbn [anchored parts] in *.
    set (anch := anchor_of output_dir) in *.
    set (chain := parse_parts output_dir ++ [lit ".claude"; lit "agents"]) in *.
    assert (Hfile : plain_name (n ++ ext_md) = true)
      by (apply plain_name_file; done || apply ext_md_bytes).
    assert (Hdp : plain_name d = true).
    { unfold plain_name. rewrite Hd8, Hd0. apply Nat.leb_le. lia. }
    assert (Hp : plain_path (MkPath anch (chain ++ [d; n ++ ext_md])) = true).
    { unfold plain_path in *. cbn [parts] in *.
      rewrite forallb_app, Hplain. cbn [forallb]. by rewrite Hdp, Hfile. }
    unfold write_text.
    rewrite bind_eq, (fsencode_ok _ _ (plain_path_ok _ Hp)).
    rewrite resolve_nonempty, Hst by (done || by destruct chain).
    rewrite walk_app, (walk_dirs _ _ chain).
    + cbn [walk]. pose proof (Hdirs (length chain) (le_n _)) as Hlast.
      rewrite firstn_all in Hlast. rewrite Hlast.
      rewrite (proj2 (Nat.ltb_ge _ _)) by lia.
      rewrite place_snoc in Hmissing, Hoff.
      rewrite Hrest, Hmissing; [done|].
      intros k Hk E. apply (Hoff k); [rewrite length_app; simpl; lia|].
      by rewrite take_snoc_le.
    + apply (plain_path_plain (MkPath anch chain)), Hplain.
    + intros k Hk. apply Hdirs. lia.
  - intros k Hk. rewrite agents_dir_parts in *. cbn [anchored parts] in *.
    rewrite Hst. by apply Hdirs.
  - by rewrite Hs.
  - intros q data. by apply (dirs_made_files _ _ _ _ _ _ Hdm).
Qed.

Lemma name_with_directory_needs_the_directory_witness :
  exists w',
    create_subagent (lit "team" ++ slash :: lit "bot") (lit "analyzer")
      (lit "out") (busy_world module_heap)
    = (Raise FileNotFoundError, w')
    /\ dirs_exist w' (agents_dir (lit "out"))
    /\ stdout w' = stdout (busy_world module_heap)
    /\ forall q data,
         node_at (fs w') q = Some (File data) ->
         node_at (fs (busy_world module_heap)) q = Some (File data).
Proof.
  apply (name_with_directory_needs_the_directory (lit "team") (lit "bot")
           (lit "analyzer") (lit "out") (busy_world module_heap)).
  - unfold loaded, busy_world. cbn [heap]. reflexivity.
  - apply (bool_decide_unpack _). vm_compute. exact I.
  - vm_compute. reflexivity.
  - apply (bool_decide_unpack _). vm_compute. exact I.
  - apply (bool_decide_unpack _). vm_compute. exact I.
  - apply (bool_decide_unpack _). vm_compute. exact I.
  - vm_compute. reflexivity.
  - vm_compute. reflexivity.
  - vm_compute. reflexivity.
  - vm_compute. reflexivity.
  - vm_compute. reflexivity.
Defined.
(** ** Arguments that are ordinary text *)






























(** A file where a directory is needed: [NotADirectoryError]. *)
Example blocked_run_fails :
  fst blocked_run = Raise NotADirectoryError
  /\ read_file (snd blocked_run) (Path (lit "notes.txt"))
     = Some (lit "keep me").
Proof. split; vm_compute; reflexivity. Qed.



(** The parent of the output path is a file: [FileExistsError] from the
    [mkdir] of the parent, and the file is as it was. *)
Example blocked_md_run_fails :
  fst blocked_md_run = Raise FileExistsError
  /\ read_file (snd blocked_md_run) (Path (lit "notes.txt"))
     = Some (lit "keep me").
Proof. split; vm_compute; reflexivity. Qed.
(** ** An agent name that does not encode *)

Lemma file_stem_spec n :
  file_stem n = true ->
  forallb fs_char n = true /\ existsb (N.eqb 0) n = false
  /\ Forall (fun c => c <> slash) n.
Proof.
  unfold file_stem. intros [Hn _]%andb_true_iff. revert Hn.
  induction n as [|c n IH]; [done|].
  cbn [forallb existsb].
  intros [[[Hc Hs]%andb_true_iff H0]%andb_true_iff Hn]%andb_true_iff.
  destruct (IH Hn) as (H1 & H2 & H3).
  apply negb_true_iff in Hs, H0. apply N.eqb_neq in Hs.
  rewrite Hc, H1, H2, N.eqb_sym, H0. split; [done|]. split; [done|].
  by constructor.
Qed.

Lemma file_stem_bytes n :
  file_stem n = true -> fs_bytes n + ext_bytes <= NAME_MAX.
Proof. unfold file_stem. by intros [_ H%Nat.leb_le]%andb_true_iff. Qed.

Lemma stem_file_parts p n ext :
  Forall (fun c => c <> slash) n ->
  Forall (fun c => c <> slash) ext -> 2 < length ext ->
  joinpath p (n ++ ext) = MkPath (anchored p) (parts p ++ [n ++ ext]).
Proof.
  intros Hn Hx Hlen.
  assert (Hall : Forall (fun c => c <> slash) (n ++ ext))
    by (by apply Forall_app).
  unfold joinpath.
  assert (Habs : is_absolute (n ++ ext) = false).
  { destruct Hall as [|c s Hc _]; [done|]. simpl. by apply N.eqb_neq. }
  rewrite Habs. f_equal. f_equal. unfold parse_parts.
  rewrite split_on_nosep by done. rewrite filter_cons_True; [done|].
  split; intros E%(f_equal length); rewrite length_app in E; simpl in E; lia.
Qed.

Lemma path_ok_snoc anch chain c :
  path_ok (MkPath anch chain) = true ->
  forallb fs_char c = true -> existsb (N.eqb 0) c = false ->
  path_ok (MkPath anch (chain ++ [c])) = true.
Proof.
  unfold path_ok. cbn [parts].
  intros [H1 H2%negb_true_iff]%andb_true_iff Hc H0.
  rewrite forallb_app, existsb_app, H1, H2. simpl. by rewrite Hc, H0.
Qed.

(** X18.  An agent name with a character that does not encode as UTF-8 (an
    undecodable byte of the command line) makes the run fail after the
    [.md] file was opened: the run raises [UnicodeEncodeError], the [.md]
    file is left empty, no other file is written and nothing is
    printed. *)
Theorem unencodable_name_leaves_an_empty_file
    (agent_name agent_type output_dir : str) (w : world) :
  loaded w -> agent_type ∈ agent_types ->
  file_stem agent_name = true -> utf8_encodable agent_name = false ->
  plain_path (Path output_dir) = true ->
  way_clear w (agents_dir output_dir) = true ->
  not_dir w (agent_file agent_name output_dir) = true ->
  exists w',
    create_subagent agent_name agent_type output_dir w
    = (Raise UnicodeEncodeError, w')
    /\ read_file w' (agent_file agent_name output_dir) = Some []
    /\ stdout w' = stdout w
    /\ forall q data,
         node_at (fs w') q = Some (File data) ->
         node_at (fs w) q = Some (File data)
         \/ (data = []
             /\ resolve w' (agent_file agent_name output_dir) = inr q).
Proof.
  intros Hl Hty Hstem Hname Hout Hclear Hfree.
  destruct (valid_view _ Hty) as [t Hv].
  rewrite (loaded_run _ _ _ _ _ Hl Hv). unfold emit.
  set (w0 := set_heap _ w).
  assert (Hplain : plain_path (agents_dir output_dir) = true).
  { rewrite agents_dir_parts. unfold plain_path in *. cbn [parts Path] in *.
    by rewrite forallb_app, Hout. }
  destruct (file_stem_spec _ Hstem) as (Hfs & Hnull & Hslash).
  destruct (agents_dir_total output_dir w0 Hplain)
    as (w1 & w2 & Hrun1 & Hrun2 & Hdm).
  { by destruct w. }
  change (start_of w0 (anchor_of output_dir))
    with (start_of w (anchor_of output_dir)) in *.
  pose proof Hdm as (Hh & Hc & Hs & Hdirs & Hrest).
  change (fs w0) with (fs w) in *.
  pose proof (not_dir_short _ _ Hfree) as Hshort.
  pose proof (file_stem_bytes _ Hstem) as Hbytes.
  pose proof ext_md_bytes as Hxb.
  apply not_dir_spec in Hfree as [Hfree Hoff].
  destruct ext_md_ok as [Hm1 Hm2].
  unfold agent_file in *. fold ext_md in *.
  rewrite (stem_file_parts _ agent_name ext_md) in * by done.
  rewrite agents_dir_parts in *. cbn [anchored parts] in *.
  set (anch := anchor_of output_dir) in *.
  set (chain := parse_parts output_dir ++ [lit ".claude"; lit "agents"]) in *.
  set (file := agent_name ++ ext_md) in *.
  set (p := MkPath anch (chain ++ [file])) in *.
  set (target := place (start_of w anch) (chain ++ [file])) in *.
  assert (Hst : start_of w2 anch = start_of w anch)
    by (unfold start_of; change (cwd w) with (cwd w0); by rewrite Hc).
  assert (Hok : path_ok p = true).
  { apply path_ok_snoc; [by apply plain_path_ok| |].
    - unfold file. by rewrite forallb_app, Hfs.
    - unfold file. by rewrite existsb_app, Hnull. }
  assert (Hres : resolve w2 p = inr target).
  { unfold p. rewrite resolve_nonempty, Hst by (done || by destruct chain).
    apply walk_dirs.
    - apply Forall_app. split.
      + apply (plain_path_plain (MkPath anch chain)), Hplain.
      + constructor; [|done]. unfold file. rewrite fs_bytes_app. lia.
    - intros k Hk. rewrite length_app in Hk. simpl in Hk.
      rewrite take_snoc_le by lia. apply Hdirs. lia. }
  assert (Hnode : node_at (fs w2) target <> Some Dir).
  { rewrite Hrest; [done|]. intros k Hk E.
    apply (Hoff k); [rewrite length_app; simpl; lia|].
    by rewrite take_snoc_le. }
  destruct (read_after_write w2 p target [] Hres Hnode) as [Hres' Hnode'].
  exists (set_fs (<[target := File []]> (fs w2)) w2).
  split; [|split; [|split]].
  - rewrite bind_eq, Hrun1, bind_eq, Hrun2, bind_eq.
    unfold write_text. rewrite bind_eq, (fsencode_ok _ _ Hok), Hres.
    rewrite (md_text_template_encodable _ _ _ Hv), Hname.
    by destruct (node_at (fs w2) target) as [[|old]|].
  - unfold read_file. by rewrite Hres', Hnode'.
  - unfold set_fs. cbn [stdout]. by rewrite Hs.
  - intros q data Hq. destruct (decide (q = target)) as [->|Hne].
    + right. rewrite Hnode' in Hq. by injection Hq as <-.
    + left. apply (dirs_made_files _ _ _ _ _ _ Hdm).
      unfold set_fs in Hq. simpl in Hq.
      by rewrite node_at_insert_ne in Hq.
Qed.

Lemma unencodable_name_leaves_an_empty_file_witness :
  exists w',
    undecodable_run = (Raise UnicodeEncodeError, w')
    /\ read_file w' (agent_file (lit "bot" ++ [0xDCFF%N]) (lit ".")) = Some []
    /\ stdout w' = stdout (busy_world module_heap)
    /\ forall q data,
         node_at (fs w') q = Some (File data) ->
         node_at (fs (busy_world module_heap)) q = Some (File data)
         \/ (data = []
             /\ resolve w' (agent_file (lit "bot" ++ [0xDCFF%N]) (lit "."))
                = inr q).
Proof.
  apply (unencodable_name_leaves_an_empty_file (lit "bot" ++ [0xDCFF%N])
           (lit "tester") (lit ".") (busy_world module_heap)).
  - unfold loaded, busy_world. cbn [heap]. reflexivity.
  - apply (bool_decide_unpack _). vm_compute. exact I.
  - vm_compute. reflexivity.
  - vm_compute. reflexivity.
  - vm_compute. reflexivity.
  - vm_compute. reflexivity.
  - vm_compute. reflexivity.
Defined.
